(** * Urban mobility data pipeline: the cleaning, feature and loading code of
    [backend/data_processor.py], embedded and verified.

    The pipeline works on pandas data frames.  A data frame is a list of rows
    (records), a column operation is a [map], a boolean mask followed by
    [df[~mask]] is a [filter].  The instance attribute [excluded_records] is
    threaded through the functions that extend it.

    Numbers.  pandas holds the numeric columns as float64.  The embedding keeps
    the special values of float64 that decide what the filters do (a missing
    cell is NaN and every comparison with NaN is false; a division by zero is
    an infinity or NaN) and takes the arithmetic on finite values as exact
    real arithmetic: rounding error, overflow and the sign of zero are not
    modelled. *)

From Stdlib Require Import Reals Lra Lia ZArith List String Bool Permutation.
From Stdlib Require Import DecimalString.
Import ListNotations.

Set Implicit Arguments.

(** ** numpy's float64, with exact arithmetic on the finite values *)

Module Np.

Local Open Scope R_scope.

Inductive float64 : Type :=
| NaN
| Inf (neg : bool)
| Fin (x : R).

Definition Rltb (x y : R) : bool := if Rlt_dec x y then true else false.
Definition Rleb (x y : R) : bool := if Rle_dec x y then true else false.
Definition Reqb (x y : R) : bool := if Req_dec_T x y then true else false.

(** Comparisons: false as soon as one side is NaN. *)
Definition lt (a b : float64) : bool :=
  match a, b with
  | NaN, _ | _, NaN => false
  | Inf na, Inf nb => na && negb nb
  | Inf na, Fin _ => na
  | Fin _, Inf nb => negb nb
  | Fin x, Fin y => Rltb x y
  end.

Definition le (a b : float64) : bool :=
  match a, b with
  | NaN, _ | _, NaN => false
  | Inf na, Inf nb => na || negb nb
  | Inf na, Fin _ => na
  | Fin _, Inf nb => negb nb
  | Fin x, Fin y => Rleb x y
  end.

Definition gt (a b : float64) : bool := lt b a.
Definition ge (a b : float64) : bool := le b a.

Definition eq (a b : float64) : bool :=
  match a, b with
  | Inf na, Inf nb => Bool.eqb na nb
  | Fin x, Fin y => Reqb x y
  | _, _ => false
  end.

Definition isna (a : float64) : bool :=
  match a with NaN => true | _ => false end.

Definition isinf (a : float64) : bool :=
  match a with Inf _ => true | _ => false end.

Definition add (a b : float64) : float64 :=
  match a, b with
  | NaN, _ | _, NaN => NaN
  | Inf na, Inf nb => if Bool.eqb na nb then Inf na else NaN
  | Inf na, Fin _ => Inf na
  | Fin _, Inf nb => Inf nb
  | Fin x, Fin y => Fin (x + y)
  end.

Definition neg (a : float64) : float64 :=
  match a with
  | NaN => NaN
  | Inf n => Inf (negb n)
  | Fin x => Fin (- x)
  end.

Definition sub (a b : float64) : float64 :=
  match a, b with
  | NaN, _ | _, NaN => NaN
  | Inf na, Inf nb => if Bool.eqb na nb then NaN else Inf na
  | Inf na, Fin _ => Inf na
  | Fin _, Inf nb => Inf (negb nb)
  | Fin x, Fin y => Fin (x - y)
  end.

Definition mul (a b : float64) : float64 :=
  match a, b with
  | NaN, _ | _, NaN => NaN
  | Inf na, Inf nb => Inf (xorb na nb)
  | Inf na, Fin y => if Reqb y 0 then NaN else Inf (xorb na (Rltb y 0))
  | Fin x, Inf nb => if Reqb x 0 then NaN else Inf (xorb (Rltb x 0) nb)
  | Fin x, Fin y => Fin (x * y)
  end.

(** Division: [x / 0] is an infinity of the sign of [x], [0 / 0] is NaN. *)
Definition div (a b : float64) : float64 :=
  match a, b with
  | NaN, _ | _, NaN => NaN
  | Inf _, Inf _ => NaN
  | Inf na, Fin y => Inf (xorb na (Rltb y 0))
  | Fin _, Inf _ => Fin 0
  | Fin x, Fin y =>
      if Reqb y 0 then (if Reqb x 0 then NaN else Inf (Rltb x 0))
      else Fin (x / y)
  end.

Definition abs (a : float64) : float64 :=
  match a with
  | NaN => NaN
  | Inf _ => Inf false
  | Fin x => Fin (Rabs x)
  end.

(** [x ** 2] *)
Definition square (a : float64) : float64 := mul a a.

Definition sqrt (a : float64) : float64 :=
  match a with
  | NaN => NaN
  | Inf n => if n then NaN else Inf false
  | Fin x => if Rltb x 0 then NaN else Fin (R_sqrt.sqrt x)
  end.

Definition sin (a : float64) : float64 :=
  match a with Fin x => Fin (Rtrigo_def.sin x) | _ => NaN end.

Definition cos (a : float64) : float64 :=
  match a with Fin x => Fin (Rtrigo_def.cos x) | _ => NaN end.

Definition arcsin (a : float64) : float64 :=
  match a with
  | Fin x => if Rleb (-1) x && Rleb x 1 then Fin (asin x) else NaN
  | _ => NaN
  end.

(** [np.radians]: degrees times pi / 180. *)
Definition radians (a : float64) : float64 := mul a (Fin (PI / 180)).

(** [np.rint]: the nearest integer, a tie to the even one. *)
Definition rint_R (x : R) : R :=
  let n := Int_part x in
  let f := x - IZR n in
  if Rltb f (1 / 2) then IZR n
  else if Rltb (1 / 2) f then IZR (n + 1)
  else if Z.even n then IZR n else IZR (n + 1).

(** [Series.round(2)]: numpy scales by [10 ** 2], rounds to the nearest
    integer and scales back. *)
Definition round2 (a : float64) : float64 :=
  match a with
  | Fin x => Fin (rint_R (x * 100) / 100)
  | _ => a
  end.

(** [ndarray.mean()]: the sum of the entries over their number. *)
Definition sum (l : list float64) : float64 := fold_left add l (Fin 0).

Definition mean (l : list float64) : float64 :=
  div (sum l) (Fin (IZR (Z.of_nat (List.length l)))).

End Np.

Import Np.

Local Open Scope string_scope.

(** ** The data model *)

(** A row of the raw frame, with its two timestamp cells as datetimes: [None]
    when the cell is missing, and otherwise the instant (in nanoseconds) that
    [pd.to_datetime] reads from the text of the cell.  The row as
    [pd.read_csv] gives it, with the text, is [csv_trip] below, and
    [clean_data_text] is [clean_data] with the step that reads the text.  The
    numeric cells are float64, a missing one is NaN; a numeric column that
    [pd.read_csv] had to read as text (on which the comparisons of
    [clean_data] raise) has no model here.  [id] is the text of the id cell:
    the id column is taken to hold text in every row, as it does in the data
    set (ids like "id2875421"); a file whose id cells are all numbers, or
    with an empty id cell, on whose ids ['\n'.join] raises, has no model
    here either. *)
Record trip : Type := {
  id : string;
  vendor_id : option Z;
  pickup_datetime : option Z;
  dropoff_datetime : option Z;
  passenger_count : float64;
  pickup_longitude : float64;
  pickup_latitude : float64;
  dropoff_longitude : float64;
  dropoff_latitude : float64;
  store_and_fwd_flag : option string;
  trip_duration : float64
}.

(** A row of the frame [calculate_derived_features] returns: the columns of the
    row it was computed from, and the six columns the function adds. *)
Record cleaned_trip : Type := {
  raw : trip;
  trip_distance_km : float64;
  trip_speed_kmh : float64;
  fare_amount : float64;
  fare_per_km : float64;
  pickup_zone : option string;
  dropoff_zone : option string
}.

Abbreviation DataFrame := (list trip).
Abbreviation CleanedFrame := (list cleaned_trip).

(** [self.excluded_records] *)
Abbreviation ledger := (list string).

(** ** The store: the three tables of [database.init_db]

    A table is the list of its rows in insertion order.  The [created_at]
    columns are left out.  A SERIAL column takes the next value of its
    sequence, and PostgreSQL draws that value for every INSERT it attempts,
    also one that ends in ON CONFLICT.  The store holds the values as they
    are sent; that a DECIMAL column keeps them at its scale is not
    modelled. *)

Record vendors_row : Type := {
  vendors_id : nat;
  vendors_vendor_id : Z;
  vendors_vendor_name : string
}.

Record zones_row : Type := {
  zones_id : nat;
  zone_name : string;
  latitude : float64;
  longitude : float64;
  trip_count : nat
}.

Record trips_row : Type := {
  trips_id : string;
  trips_vendor_id : option Z;
  trips_pickup_datetime : option Z;
  trips_dropoff_datetime : option Z;
  trips_passenger_count : float64;
  trips_pickup_longitude : float64;
  trips_pickup_latitude : float64;
  trips_dropoff_longitude : float64;
  trips_dropoff_latitude : float64;
  trips_store_and_fwd_flag : option string;
  trips_trip_duration : float64;
  trips_trip_distance_km : float64;
  trips_trip_speed_kmh : float64;
  trips_fare_amount : float64;
  trips_fare_per_km : float64;
  pickup_zone_id : option nat;
  dropoff_zone_id : option nat
}.

Record database : Type := {
  vendors : list vendors_row;
  zones : list zones_row;
  trips : list trips_row;
  vendors_id_seq : nat;
  zones_id_seq : nat
}.

(** ** [database.check_data_exists]

    [SELECT COUNT( * ) FROM trips] and [count > 0].  The function also returns
    [False] when the query raises (no table [trips]); the store of the model
    always has its three tables. *)

Module Database.

Definition check_data_exists (db : database) : bool :=
  (0 <? List.length (trips db))%nat.

End Database.

(** ** [DataProcessor.clean_data] *)

Module DataProcessor.

(** [df.drop_duplicates(subset=['id'])]: a row is kept when no earlier row has
    its id. *)
Fixpoint drop_duplicates_seen (seen : list string) (df : DataFrame) : DataFrame :=
  match df with
  | [] => []
  | r :: rest =>
      if in_dec string_dec (id r) seen
      then drop_duplicates_seen seen rest
      else r :: drop_duplicates_seen (id r :: seen) rest
  end.

Definition drop_duplicates (df : DataFrame) : DataFrame :=
  drop_duplicates_seen [] df.

Definition isna_dt (c : option Z) : bool :=
  match c with None => true | Some _ => false end.

(** The mask of [df.dropna(subset=[...])] over the two timestamps and the four
    coordinates. *)
Definition has_na (r : trip) : bool :=
  isna_dt (pickup_datetime r) || isna_dt (dropoff_datetime r)
  || isna (pickup_latitude r) || isna (pickup_longitude r)
  || isna (dropoff_latitude r) || isna (dropoff_longitude r).

Definition dropna (df : DataFrame) : DataFrame :=
  filter (fun r => negb (has_na r)) df.

(** [df['dropoff_datetime'] <= df['pickup_datetime']]; a comparison with NaT is
    false. *)
Definition invalid_datetime (r : trip) : bool :=
  match dropoff_datetime r, pickup_datetime r with
  | Some d, Some p => (d <=? p)%Z
  | _, _ => false
  end.

Definition lat_min : float64 := Fin 40.4774.
Definition lat_max : float64 := Fin 40.9176.
Definition lon_min : float64 := Fin (-74.2591).
Definition lon_max : float64 := Fin (-73.7004).

Definition invalid_coords (r : trip) : bool :=
  lt (pickup_latitude r) lat_min
  || gt (pickup_latitude r) lat_max
  || lt (pickup_longitude r) lon_min
  || gt (pickup_longitude r) lon_max
  || lt (dropoff_latitude r) lat_min
  || gt (dropoff_latitude r) lat_max
  || lt (dropoff_longitude r) lon_min
  || gt (dropoff_longitude r) lon_max.

Definition invalid_duration (r : trip) : bool :=
  gt (trip_duration r) (Fin 21600) || lt (trip_duration r) (Fin 60).

Definition invalid_passengers (r : trip) : bool :=
  lt (passenger_count r) (Fin 1) || gt (passenger_count r) (Fin 6).

(** The step the source repeats for every range check:
    [self.excluded_records.extend(df[mask]['id'].tolist()); df = df[~mask]]. *)
Definition exclude (A : Type) (ident : A -> string) (mask : A -> bool)
    (st : list A * ledger) : list A * ledger :=
  let (df, excluded_records) := st in
  (filter (fun r => negb (mask r)) df,
   (excluded_records ++ map ident (filter mask df))%list).

(** [clean_data(self, df)], with [self.excluded_records] passed in and out. *)
Definition clean_data (df : DataFrame) (excluded_records : ledger)
    : DataFrame * ledger :=
  let df := drop_duplicates df in
  let df := dropna df in
  let st := exclude id invalid_datetime (df, excluded_records) in
  let st := exclude id invalid_coords st in
  let st := exclude id invalid_duration st in
  let st := exclude id invalid_passengers st in
  st.

(** *** [clean_data] on the frame [pd.read_csv] returns

    [load_data] calls [pd.read_csv] without [parse_dates]: the two timestamp
    columns of the frame it returns hold text (or nothing, in an empty cell).
    Lines 54-55 of [clean_data] replace each of the two columns by what
    [pd.to_datetime] makes of it.  [clean_data] above is the function on a
    frame whose timestamp columns hold datetimes already, which
    [pd.to_datetime] returns as they are. *)

Record csv_trip : Type := {
  csv_id : string;
  csv_vendor_id : option Z;
  csv_pickup_datetime : option string;
  csv_dropoff_datetime : option string;
  csv_passenger_count : float64;
  csv_pickup_longitude : float64;
  csv_pickup_latitude : float64;
  csv_dropoff_longitude : float64;
  csv_dropoff_latitude : float64;
  csv_store_and_fwd_flag : option string;
  csv_trip_duration : float64
}.

Fixpoint csv_drop_duplicates_seen (seen : list string) (df : list csv_trip)
    : list csv_trip :=
  match df with
  | [] => []
  | r :: rest =>
      if in_dec string_dec (csv_id r) seen
      then csv_drop_duplicates_seen seen rest
      else r :: csv_drop_duplicates_seen (csv_id r :: seen) rest
  end.

Definition csv_has_na (r : csv_trip) : bool :=
  match csv_pickup_datetime r with None => true | Some _ => false end
  || match csv_dropoff_datetime r with None => true | Some _ => false end
  || isna (csv_pickup_latitude r) || isna (csv_pickup_longitude r)
  || isna (csv_dropoff_latitude r) || isna (csv_dropoff_longitude r).

(** The row with its two timestamp cells replaced. *)
Definition with_timestamps (r : csv_trip) (stamps : option Z * option Z) : trip :=
  {| id := csv_id r;
     vendor_id := csv_vendor_id r;
     pickup_datetime := fst stamps;
     dropoff_datetime := snd stamps;
     passenger_count := csv_passenger_count r;
     pickup_longitude := csv_pickup_longitude r;
     pickup_latitude := csv_pickup_latitude r;
     dropoff_longitude := csv_dropoff_longitude r;
     dropoff_latitude := csv_dropoff_latitude r;
     store_and_fwd_flag := csv_store_and_fwd_flag r;
     trip_duration := csv_trip_duration r |}.

(** [clean_data(self, df)] on a frame with text in its timestamp columns.
    [to_datetime] is [pd.to_datetime] on a column: the instants it reads, one
    for each entry (none for an empty one), or [None] when it raises, as it
    does on a text it cannot read.  The function returns [None] when it
    raises. *)
Definition clean_data_text
    (to_datetime : list (option string) -> option (list (option Z)))
    (df : list csv_trip) (excluded_records : ledger)
    : option (DataFrame * ledger) :=
  let df := csv_drop_duplicates_seen [] df in
  let df := filter (fun r => negb (csv_has_na r)) df in
  match to_datetime (map csv_pickup_datetime df) with
  | None => None
  | Some pickup_datetime =>
      match to_datetime (map csv_dropoff_datetime df) with
      | None => None
      | Some dropoff_datetime =>
          let df := map (fun rs => with_timestamps (fst rs) (snd rs))
                        (combine df (combine pickup_datetime dropoff_datetime)) in
          let st := exclude id invalid_datetime (df, excluded_records) in
          let st := exclude id invalid_coords st in
          let st := exclude id invalid_duration st in
          let st := exclude id invalid_passengers st in
          Some st
      end
  end.

(** *** [haversine_distance], the function local to
    [calculate_derived_features] *)

Definition haversine_distance (lat1 lon1 lat2 lon2 : float64) : float64 :=
  let R := Fin 6371 in
  let lat1 := radians lat1 in
  let lon1 := radians lon1 in
  let lat2 := radians lat2 in
  let lon2 := radians lon2 in
  let dlat := sub lat2 lat1 in
  let dlon := sub lon2 lon1 in
  let a := add (square (sin (div dlat (Fin 2))))
               (mul (mul (cos lat1) (cos lat2))
                    (square (sin (div dlon (Fin 2))))) in
  let c := mul (Fin 2) (arcsin (sqrt a)) in
  mul R c.

(** *** [create_zones] and [pd.cut(x, bins=20, labels=False)] *)

Fixpoint nanmin_from (m : float64) (xs : list float64) : float64 :=
  match xs with
  | [] => m
  | x :: rest =>
      nanmin_from (if isna m then x else if lt x m then x else m) rest
  end.

Fixpoint nanmax_from (m : float64) (xs : list float64) : float64 :=
  match xs with
  | [] => m
  | x :: rest =>
      nanmax_from (if isna m then x else if gt x m then x else m) rest
  end.

(** [x.min()] and [x.max()] skip NaN; they are NaN when every entry is. *)
Definition nanmin (xs : list float64) : float64 := nanmin_from NaN xs.
Definition nanmax (xs : list float64) : float64 := nanmax_from NaN xs.

(** [np.linspace(start, stop, num)]: [arange(num) * step + start] with the last
    entry set to [stop].  The edges are computed here in exact arithmetic.
    numpy rounds each of them to float64: an entry within rounding error of
    an inner edge can get the label of the neighbouring bin, and on a column
    whose range is within rounding error of 0 the rounded edges coincide and
    [pd.cut] raises.  The statements below that name a label do so for the
    least and the greatest entry of a column of two distinct numbers, which
    are in the first and in the last bin in float64 as well. *)
Definition linspace (start stop : float64) (num : nat) : list float64 :=
  let step := div (sub stop start) (Fin (IZR (Z.of_nat (num - 1)))) in
  (map (fun i => add (mul (Fin (IZR (Z.of_nat i))) step) start) (seq 0 (num - 1))
   ++ [stop])%list.

(** pandas' [_nbins_to_bins] for [right=True]: the edges of [nbins] bins of
    equal width between the least and the greatest entry, the lowest edge
    moved down by 0.1% of the range so that the least entry falls in the first
    bin.  It raises on an empty column and on an infinite bound; a column of
    NaN only gives NaN edges, which [_bins_to_cuts] rejects as not unique
    (finite edges are distinct in exact arithmetic). *)
Definition nbins_to_bins (x : list float64) (nbins : nat)
    : option (list float64) :=
  match x with
  | [] => None
  | _ :: _ =>
      let mn := nanmin x in
      let mx := nanmax x in
      if isinf mn || isinf mx then None
      else if isna mn then None
      else if eq mn mx then
        let mn := sub mn (if negb (eq mn (Fin 0))
                          then mul (Fin 0.001) (abs mn) else Fin 0.001) in
        let mx := add mx (if negb (eq mx (Fin 0))
                          then mul (Fin 0.001) (abs mx) else Fin 0.001) in
        Some (linspace mn mx (nbins + 1))
      else
        let bins := linspace mn mx (nbins + 1) in
        let adj := mul (sub mx mn) (Fin 0.001) in
        Some (match bins with
              | [] => []
              | b0 :: rest => sub b0 adj :: rest
              end)
  end.

(** [bins.searchsorted(v, side='left')] on increasing edges: the number of
    edges below [v]; NaN sorts after every edge. *)
Definition searchsorted_left (bins : list float64) (v : float64) : nat :=
  if isna v then List.length bins
  else List.length (filter (fun e => lt e v) bins).

(** The bin index of one entry; [None] is the NaN label. *)
Definition bin_label (bins : list float64) (v : float64) : option nat :=
  let ids := searchsorted_left bins v in
  if isna v || (ids =? List.length bins)%nat || (ids =? 0)%nat then None
  else Some (ids - 1)%nat.

Definition cut (x : list float64) (nbins : nat) : option (list (option nat)) :=
  match nbins_to_bins x nbins with
  | None => None
  | Some bins => Some (map (bin_label bins) x)
  end.

Definition string_of_nat (n : nat) : string :=
  NilEmpty.string_of_uint (Nat.to_uint n).

(** What an f-string prints for an entry of the label column: the column is
    int64 when no label is NaN and float64 otherwise. *)
Definition format_label (has_nas : bool) (l : option nat) : string :=
  match l with
  | None => "nan"
  | Some k => if has_nas then string_of_nat k ++ ".0" else string_of_nat k
  end.

Definition has_nas (labels : list (option nat)) : bool :=
  existsb (fun l => match l with None => true | Some _ => false end) labels.

Definition zone_name_of (lat_nas lon_nas : bool)
    (ll : option nat * option nat) : string :=
  "Zone_" ++ format_label lat_nas (fst ll) ++ "_" ++ format_label lon_nas (snd ll).

(** [create_zones(self, latitudes, longitudes)]; [None] when [pd.cut]
    raises. *)
Definition create_zones (latitudes longitudes : list float64)
    : option (list string) :=
  match cut latitudes 20 with
  | None => None
  | Some lat_bins =>
      match cut longitudes 20 with
      | None => None
      | Some lon_bins =>
          Some (map (zone_name_of (has_nas lat_bins) (has_nas lon_bins))
                    (combine lat_bins lon_bins))
      end
  end.

(** *** [calculate_derived_features] *)

Definition base_fare : float64 := Fin 2.50.
Definition per_km_rate : float64 := Fin 1.50.
Definition per_minute_rate : float64 := Fin 0.50.

(** The columns the function adds, each as the function of the row that the
    column expression computes. *)
Definition distance_km (r : trip) : float64 :=
  haversine_distance (pickup_latitude r) (pickup_longitude r)
                     (dropoff_latitude r) (dropoff_longitude r).

Definition speed_kmh (r : trip) : float64 :=
  div (distance_km r) (div (trip_duration r) (Fin 3600)).

Definition invalid_speed (r : trip) : bool :=
  gt (speed_kmh r) (Fin 200) || lt (speed_kmh r) (Fin 1).

Definition fare (r : trip) : float64 :=
  round2 (add (add base_fare (mul (distance_km r) per_km_rate))
              (mul (div (trip_duration r) (Fin 60)) per_minute_rate)).

Definition fare_per_distance (r : trip) : float64 :=
  round2 (div (fare r) (distance_km r)).

Definition with_features (r : trip) (zones : string * string) : cleaned_trip :=
  {| raw := r;
     trip_distance_km := distance_km r;
     trip_speed_kmh := speed_kmh r;
     fare_amount := fare r;
     fare_per_km := fare_per_distance r;
     pickup_zone := Some (fst zones);
     dropoff_zone := Some (snd zones) |}.

(** [calculate_derived_features(self, df)].  The ledger is extended before the
    zones are computed, so it is returned also when [create_zones] raises and
    there is no frame ([None]). *)
Definition calculate_derived_features (df : DataFrame)
    (excluded_records : ledger) : option CleanedFrame * ledger :=
  let (df, excluded_records) :=
    exclude id invalid_speed (df, excluded_records) in
  match create_zones (map pickup_latitude df) (map pickup_longitude df) with
  | None => (None, excluded_records)
  | Some pickup_zones =>
      match create_zones (map dropoff_latitude df) (map dropoff_longitude df) with
      | None => (None, excluded_records)
      | Some dropoff_zones =>
          (Some (map (fun rz => with_features (fst rz) (snd rz))
                     (combine df (combine pickup_zones dropoff_zones))),
           excluded_records)
      end
  end.

(** The cleaning run of [clean_all_data_and_save] and
    [process_data_if_needed]: [clean_data], then
    [calculate_derived_features], on one ledger. *)
Definition clean_pipeline (df : DataFrame) (excluded_records : ledger)
    : option CleanedFrame * ledger :=
  let (df, excluded_records) := clean_data df excluded_records in
  calculate_derived_features df excluded_records.

(** *** [insert_vendors] *)

Fixpoint unique (A : Type) (eq_dec : forall a b : A, {a = b} + {a <> b})
    (seen : list A) (l : list A) : list A :=
  match l with
  | [] => []
  | a :: rest =>
      if in_dec eq_dec a seen then unique eq_dec seen rest
      else a :: unique eq_dec (a :: seen) rest
  end.

Fixpoint dropna_cells (A : Type) (l : list (option A)) : list A :=
  match l with
  | [] => []
  | None :: rest => dropna_cells rest
  | Some a :: rest => a :: dropna_cells rest
  end.

Definition missing (A : Type) (c : option A) : bool :=
  match c with None => true | Some _ => false end.

(** The entries of [l] before the first one that meets [f]. *)
Fixpoint firstn_until (A : Type) (f : A -> bool) (l : list A) : list A :=
  match l with
  | [] => []
  | a :: rest => if f a then [] else a :: firstn_until f rest
  end.

Definition string_of_Z (z : Z) : string := NilZero.string_of_int (Z.to_int z).

(** [f"Vendor_{vendor_id}"]: the column is int64 when no cell is missing and
    float64 (printed with a trailing [.0]) otherwise. *)
Definition vendor_name (float_column : bool) (vendor_id : Z) : string :=
  "Vendor_" ++ string_of_Z vendor_id ++ (if float_column then ".0" else "").

(** [INSERT INTO vendors ... ON CONFLICT (vendor_id) DO NOTHING] *)
Definition execute_insert_vendor (vendor_id : Z) (name : string)
    (db : database) : database :=
  let next := S (vendors_id_seq db) in
  if existsb (fun v => (vendors_vendor_id v =? vendor_id)%Z) (vendors db)
  then {| vendors := vendors db; zones := zones db; trips := trips db;
          vendors_id_seq := next; zones_id_seq := zones_id_seq db |}
  else {| vendors := (vendors db ++
                      [{| vendors_id := next; vendors_vendor_id := vendor_id;
                          vendors_vendor_name := name |}])%list;
          zones := zones db; trips := trips db;
          vendors_id_seq := next; zones_id_seq := zones_id_seq db |}.

(** What an INTEGER column rejects of an integer sent to it. *)
Definition int4_rejects (z : Z) : bool :=
  negb ((-2147483648 <=? z) && (z <=? 2147483647))%Z.

(** A call either returns or raises. *)
Inductive outcome : Type := returned | raised.

(** The store once [conn.rollback()] has undone the statements since the last
    commit: the tables are those of the last commit, the sequences of the
    SERIAL columns stay where the statements left them. *)
Definition rollback (committed current : database) : database :=
  {| vendors := vendors committed; zones := zones committed;
     trips := trips committed;
     vendors_id_seq := vendors_id_seq current;
     zones_id_seq := zones_id_seq current |}.

(** The loop of [insert_vendors].  The values of
    [df['vendor_id'].dropna().unique()] are numpy scalars.  psycopg2 sends a
    [numpy.float64] as the Python float it is, and has no adapter for a
    [numpy.int64]: on an int64 column the first [cursor.execute] raises,
    before a statement is sent.  [float_column] is the dtype of the column; a
    frame cut out of another one ([df[~mask]], [df.iloc[start:]]) keeps the
    dtype of the column it was cut from. *)
Fixpoint execute_vendors (float_column : bool) (unique_vendors : list Z)
    (db : database) : outcome * database :=
  match unique_vendors with
  | [] => (returned, db)
  | vendor_id :: unique_vendors =>
      if negb float_column || int4_rejects vendor_id then (raised, db)
      else execute_vendors float_column unique_vendors
             (execute_insert_vendor vendor_id
                (vendor_name float_column vendor_id) db)
  end.

(** [insert_vendors(self, cursor, conn, df)]: whether the call returns, and
    the store it leaves: after its [conn.commit()] when it returns, after the
    [conn.rollback()] of [save_to_database] when it raises. *)
Definition insert_vendors (float_column : bool) (df : CleanedFrame)
    (db : database) : outcome * database :=
  let column := map (fun r => vendor_id (raw r)) df in
  let unique_vendors := unique Z.eq_dec [] (dropna_cells column) in
  match execute_vendors float_column unique_vendors db with
  | (returned, db') => (returned, db')
  | (raised, db') => (raised, rollback db db')
  end.

(** *** [insert_zones] *)

Definition zone_is (zone_name : string) (cell : option string) : bool :=
  match cell with
  | Some z => if string_dec z zone_name then true else false
  | None => false
  end.

(** The members of the Python set [all_zones], in the order of their first
    appearance (pickup column, then dropoff column).  Python fixes no
    iteration order for a set: [insert_zones] below takes the order it
    iterates in as an argument. *)
Definition all_zones (df : CleanedFrame) : list string :=
  unique string_dec []
    (dropna_cells (map pickup_zone df) ++ dropna_cells (map dropoff_zone df))%list.

(** [df[(df['pickup_zone'] == zone_name) | (df['dropoff_zone'] == zone_name)]] *)
Definition zone_trips (df : CleanedFrame) (zone_name : string) : CleanedFrame :=
  filter (fun r => zone_is zone_name (pickup_zone r)
                   || zone_is zone_name (dropoff_zone r)) df.

(** [zone_trips[['pickup_latitude', 'dropoff_latitude']].values]: two entries
    for each row. *)
Definition latitude_values (rows : CleanedFrame) : list float64 :=
  flat_map (fun r => [pickup_latitude (raw r); dropoff_latitude (raw r)]) rows.

Definition longitude_values (rows : CleanedFrame) : list float64 :=
  flat_map (fun r => [pickup_longitude (raw r); dropoff_longitude (raw r)]) rows.

Definition avg_lat (df : CleanedFrame) (zone_name : string) : float64 :=
  mean (latitude_values (zone_trips df zone_name)).

Definition avg_lon (df : CleanedFrame) (zone_name : string) : float64 :=
  mean (longitude_values (zone_trips df zone_name)).

(** [INSERT INTO zones ... ON CONFLICT (zone_name) DO UPDATE SET latitude,
    longitude, trip_count]: an existing row keeps its id. *)
Definition execute_upsert_zone (name : string) (lat lon : float64)
    (count : nat) (db : database) : database :=
  let next := S (zones_id_seq db) in
  let present := existsb (fun z => zone_is name (Some (zone_name z))) (zones db) in
  {| vendors := vendors db;
     zones :=
       if present
       then map (fun z =>
                   if zone_is name (Some (zone_name z))
                   then {| zones_id := zones_id z; zone_name := zone_name z;
                           latitude := lat; longitude := lon;
                           trip_count := count |}
                   else z) (zones db)
       else (zones db ++
             [{| zones_id := next; zone_name := name; latitude := lat;
                 longitude := lon; trip_count := count |}])%list;
     trips := trips db;
     vendors_id_seq := vendors_id_seq db;
     zones_id_seq := next |}.

(** The loop of [insert_zones], iterating over the set [all_zones] in the
    order [iteration]. *)
Definition insert_zones (iteration : list string) (df : CleanedFrame)
    (db : database) : database :=
  fold_left (fun db zone_name =>
               execute_upsert_zone zone_name (avg_lat df zone_name)
                 (avg_lon df zone_name)
                 (List.length (zone_trips df zone_name)) db)
            iteration db.

(** What a DECIMAL(precision, scale) column rejects: an infinity, and a number
    that has more than [precision - scale] digits before the point once it is
    rounded to [scale] digits after it.  NaN is a value of the column. *)
Definition decimal_rejects (precision scale : nat) (x : float64) : bool :=
  match x with
  | NaN => false
  | Inf _ => true
  | Fin x => Rleb (10 ^ (precision - scale) - / 2 * / 10 ^ scale) (Rabs x)
  end.

(** The statement of [insert_zones] for [zone_name] raises: the name is
    longer than VARCHAR(50), or a mean does not fit DECIMAL(10, 7). *)
Definition zone_rejected (df : CleanedFrame) (zone_name : string) : bool :=
  (50 <? String.length zone_name)%nat
  || decimal_rejects 10 7 (avg_lat df zone_name)
  || decimal_rejects 10 7 (avg_lon df zone_name).

(** [insert_zones(self, cursor, conn, df)] in [save_to_database]: whether the
    call returns, and the store it leaves: after its [conn.commit()] when it
    returns, after [conn.rollback()] when a statement raises. *)
Definition try_insert_zones (iteration : list string) (df : CleanedFrame)
    (db : database) : outcome * database :=
  if existsb (zone_rejected df) iteration
  then (raised,
        rollback db
          (insert_zones (firstn_until (zone_rejected df) iteration) df db))
  else (returned, insert_zones iteration df db).

(** *** [insert_trips] *)

(** [SELECT id FROM zones WHERE zone_name = %s] and [fetchone]; a NaN cell
    sends no query. *)
Definition select_zone_id (db : database) (cell : option string) : option nat :=
  match cell with
  | None => None
  | Some name =>
      match find (fun z => zone_is name (Some (zone_name z))) (zones db) with
      | Some z => Some (zones_id z)
      | None => None
      end
  end.

Definition trips_row_of (r : cleaned_trip) (pickup dropoff : option nat)
    : trips_row :=
  {| trips_id := id (raw r);
     trips_vendor_id := vendor_id (raw r);
     trips_pickup_datetime := pickup_datetime (raw r);
     trips_dropoff_datetime := dropoff_datetime (raw r);
     trips_passenger_count := passenger_count (raw r);
     trips_pickup_longitude := pickup_longitude (raw r);
     trips_pickup_latitude := pickup_latitude (raw r);
     trips_dropoff_longitude := dropoff_longitude (raw r);
     trips_dropoff_latitude := dropoff_latitude (raw r);
     trips_store_and_fwd_flag := store_and_fwd_flag (raw r);
     trips_trip_duration := trip_duration (raw r);
     trips_trip_distance_km := trip_distance_km r;
     trips_trip_speed_kmh := trip_speed_kmh r;
     trips_fare_amount := fare_amount r;
     trips_fare_per_km := fare_per_km r;
     pickup_zone_id := pickup;
     dropoff_zone_id := dropoff |}.

(** [INSERT INTO trips ... ON CONFLICT (id) DO NOTHING] *)
Definition execute_insert_trip (row : trips_row) (db : database) : database :=
  if existsb (fun t => if string_dec (trips_id t) (trips_id row) then true else false)
             (trips db)
  then db
  else {| vendors := vendors db; zones := zones db;
          trips := (trips db ++ [row])%list;
          vendors_id_seq := vendors_id_seq db;
          zones_id_seq := zones_id_seq db |}.

(** The loop over the rows of one slice: the two zone lookups and the
    INSERT. *)
Definition insert_trip_rows (df : CleanedFrame) (db : database) : database :=
  fold_left (fun db r =>
               let pickup_zone_id := select_zone_id db (pickup_zone r) in
               let dropoff_zone_id := select_zone_id db (dropoff_zone r) in
               execute_insert_trip (trips_row_of r pickup_zone_id dropoff_zone_id) db)
            df db.

(** The slices [df.iloc[i:i+batch_size]] for [i] in
    [range(0, len(df), batch_size)]; there are at most [len(df)] of them. *)
Fixpoint slices (A : Type) (fuel batch_size : nat) (df : list A)
    : list (list A) :=
  match fuel with
  | O => []
  | S fuel =>
      match df with
      | [] => []
      | _ :: _ =>
          firstn batch_size df :: slices fuel batch_size (skipn batch_size df)
      end
  end.

(** What an INTEGER column rejects of a float sent to it: NaN, the
    infinities, and a number that rounds to none of its values. *)
Definition integer_rejects (x : float64) : bool :=
  match x with
  | Fin x => negb (Rltb (-2147483648.5) x && Rltb x 2147483647.5)
  | _ => true
  end.

(** The INSERT of [insert_trips] raises for the row.  An empty cell of the
    frame is NaN, which the INTEGER, TIMESTAMP and CHAR(1) columns reject;
    the other columns reject what is over their width.  (A text over the
    width of its column is rejected here also when what is over is blanks,
    which PostgreSQL cuts off.) *)
Definition rejected (r : cleaned_trip) : bool :=
  (50 <? String.length (id (raw r)))%nat
  || missing (vendor_id (raw r))
  || missing (pickup_datetime (raw r))
  || missing (dropoff_datetime (raw r))
  || integer_rejects (passenger_count (raw r))
  || decimal_rejects 10 7 (pickup_longitude (raw r))
  || decimal_rejects 10 7 (pickup_latitude (raw r))
  || decimal_rejects 10 7 (dropoff_longitude (raw r))
  || decimal_rejects 10 7 (dropoff_latitude (raw r))
  || match store_and_fwd_flag (raw r) with
     | None => true
     | Some flag => (1 <? String.length flag)%nat
     end
  || integer_rejects (trip_duration (raw r))
  || decimal_rejects 8 3 (trip_distance_km r)
  || decimal_rejects 6 2 (trip_speed_kmh r)
  || decimal_rejects 8 2 (fare_amount r)
  || decimal_rejects 6 2 (fare_per_km r).

(** The slices in turn, with [conn.commit()] after each.  When a statement
    raises, the rows of the slice at hand are not committed, and the
    [conn.rollback()] of [save_to_database] takes them out again: the store
    is left as the last commit left it. *)
Fixpoint insert_slices (batches : list CleanedFrame) (db : database)
    : outcome * database :=
  match batches with
  | [] => (returned, db)
  | batch :: batches =>
      if existsb rejected batch then (raised, db)
      else insert_slices batches (insert_trip_rows batch db)
  end.

(** [insert_trips(self, cursor, conn, df)], with [batch_size = 100]. *)
Definition insert_trips (df : CleanedFrame) (db : database)
    : outcome * database :=
  insert_slices (slices (List.length df) 100 df) db.

(** [save_to_database(self, df)]: vendors, then zones, then trips; an
    exception of one of them is raised again after [conn.rollback()].
    [float_column] is the dtype of the vendor column of [df], [iteration]
    the order in which the set of zone names is walked. *)
Definition save_to_database (float_column : bool) (iteration : list string)
    (df : CleanedFrame) (db : database) : outcome * database :=
  match insert_vendors float_column df db with
  | (raised, db) => (raised, db)
  | (returned, db) =>
      match try_insert_zones iteration df db with
      | (raised, db) => (raised, db)
      | (returned, db) => insert_trips df db
      end
  end.

(** *** The files and the processor object

    [train.csv] is the list of its rows, as [pd.read_csv] parses them; its
    vendor cells hold integers, so the column read from it is int64 unless a
    cell among the rows read is empty.  [cleaned_dataset.csv] is the frame
    [to_csv] wrote: its rows, and whether the vendor cells are written with a
    decimal point (the column written was float64).  What [read_csv] parses
    from a cell is what [to_csv] wrote to it.  [None] is a file that does not
    exist. *)

Record cleaned_csv : Type := {
  vendor_id_float : bool;
  cleaned_rows : CleanedFrame
}.

(** The processor's [excluded_records], the three files and the store. *)
Record world : Type := {
  self_excluded_records : ledger;
  train_csv : option DataFrame;
  cleaned_dataset_csv : option cleaned_csv;
  excluded_records_txt : option string;
  store : database
}.

Definition with_excluded_records (l : ledger) (w : world) : world :=
  {| self_excluded_records := l; train_csv := train_csv w;
     cleaned_dataset_csv := cleaned_dataset_csv w;
     excluded_records_txt := excluded_records_txt w; store := store w |}.

Definition with_cleaned_dataset_csv (f : cleaned_csv) (w : world) : world :=
  {| self_excluded_records := self_excluded_records w; train_csv := train_csv w;
     cleaned_dataset_csv := Some f;
     excluded_records_txt := excluded_records_txt w; store := store w |}.

Definition with_excluded_records_txt (s : string) (w : world) : world :=
  {| self_excluded_records := self_excluded_records w; train_csv := train_csv w;
     cleaned_dataset_csv := cleaned_dataset_csv w;
     excluded_records_txt := Some s; store := store w |}.

Definition with_store (db : database) (w : world) : world :=
  {| self_excluded_records := self_excluded_records w; train_csv := train_csv w;
     cleaned_dataset_csv := cleaned_dataset_csv w;
     excluded_records_txt := excluded_records_txt w; store := db |}.

(** The default of the [max_records] arguments. *)
Definition default_max_records : nat := 5000.

(** [load_data(self, max_records)]: [pd.read_csv(self.csv_file,
    nrows=max_records)].  The result is the frame and whether its vendor
    column is float64; [None] when [read_csv] raises. *)
Definition load_data (max_records : nat) (w : world) : option (bool * DataFrame) :=
  match train_csv w with
  | None => None
  | Some rows =>
      let df := firstn max_records rows in
      Some (existsb (fun r => missing (vendor_id r)) df, df)
  end.

(** Whether [read_csv] makes a float64 column of the vendor cells of the
    first [max_records] rows of [cleaned_dataset.csv]: when they are written
    with a decimal point, or when one of them is empty. *)
Definition float_column_of (f : cleaned_csv) (max_records : nat) : bool :=
  vendor_id_float f
  || existsb (fun r => missing (vendor_id (raw r)))
             (firstn max_records (cleaned_rows f)).

(** [load_cleaned_data(self, max_records)] *)
Definition load_cleaned_data (max_records : nat) (w : world)
    : option (bool * CleanedFrame) :=
  match cleaned_dataset_csv w with
  | None => None
  | Some f =>
      Some (float_column_of f max_records, firstn max_records (cleaned_rows f))
  end.

(** ['\n'.join(self.excluded_records)] *)
Definition join_lines (l : ledger) : string :=
  String.concat (String (Ascii.ascii_of_nat 10) EmptyString) l.

(** [if self.excluded_records: open('excluded_records.txt', 'w').write(...)] *)
Definition save_excluded_records (w : world) : world :=
  match self_excluded_records w with
  | [] => w
  | _ :: _ => with_excluded_records_txt (join_lines (self_excluded_records w)) w
  end.

(** [clean_all_data_and_save(self, max_records)]: the number of rows written
    to [cleaned_dataset.csv], or [None] when the function raises; in both
    cases with the files and the ledger as the function leaves them. *)
Definition clean_all_data_and_save (max_records : nat) (w : world)
    : option nat * world :=
  match load_data max_records w with
  | None => (None, w)
  | Some (float_column, df) =>
      let (df, excluded_records) := clean_data df (self_excluded_records w) in
      let (result, excluded_records) :=
        calculate_derived_features df excluded_records in
      let w := with_excluded_records excluded_records w in
      match result with
      | None => (None, w)
      | Some df =>
          let w := with_cleaned_dataset_csv
                     {| vendor_id_float := float_column; cleaned_rows := df |} w in
          let final_count := List.length df in
          (Some final_count, save_excluded_records w)
      end
  end.

(** [self.save_to_database(df)] in the world: the store the call leaves,
    and whether it returned.  [set_order] is the order in which Python walks
    a set, given its members in the order they were added. *)
Definition save (float_column : bool) (set_order : list string -> list string)
    (df : CleanedFrame) (w : world) : outcome * world :=
  let (result, db) :=
    save_to_database float_column (set_order (all_zones df)) df (store w) in
  (result, with_store db w).

(** [process_data_if_needed(self)] *)
Definition process_data_if_needed (set_order : list string -> list string)
    (w : world) : option unit * world :=
  if negb (Database.check_data_exists (store w)) then
    match cleaned_dataset_csv w with
    | Some _ =>
        match load_cleaned_data default_max_records w with
        | None => (None, w)
        | Some (float_column, df) =>
            match save float_column set_order df w with
            | (raised, w) => (None, w)
            | (returned, w) => (Some tt, w)
            end
        end
    | None =>
        match load_data default_max_records w with
        | None => (None, w)
        | Some (float_column, df) =>
            let (df, excluded_records) := clean_data df (self_excluded_records w) in
            let (result, excluded_records) :=
              calculate_derived_features df excluded_records in
            let w := with_excluded_records excluded_records w in
            match result with
            | None => (None, w)
            | Some df =>
                match save float_column set_order df w with
                | (raised, w) => (None, w)
                | (returned, w) => (Some tt, save_excluded_records w)
                end
            end
        end
    end
  else (Some tt, w).

(** [response not in ['y', 'yes']], negated. *)
Definition yes (response : string) : bool :=
  String.eqb response "y" || String.eqb response "yes".

(** The loop of [process_data_interactive], and the function.  [responses]
    holds what the calls of [input] return, one after the other, stripped and
    in lower case; [input] raises when there is none left. *)

(** The [while True] loop, entered with
    [total_processed] rows loaded.  Every turn that does not leave the loop
    asks for one response. *)
Fixpoint process_batches (set_order : list string -> list string)
    (batch_size : nat) (responses : list string) (total_processed : nat)
    (w : world) : option nat * world :=
  let start_record := total_processed in
  let end_record := (start_record + batch_size)%nat in
  match load_cleaned_data end_record w with
  | None => (None, w)
  | Some (float_column, df) =>
      if (List.length df <=? start_record)%nat then (Some total_processed, w)
      else
        let df := skipn start_record df in
        if (List.length df =? 0)%nat then (Some total_processed, w)
        else
          match save float_column set_order df w with
          | (raised, w) => (None, w)
          | (returned, w) =>
              let total_processed := (total_processed + List.length df)%nat in
              match responses with
              | [] => (None, w)
              | response :: responses =>
                  if String.eqb response "q" then (Some total_processed, w)
                  else if String.eqb response "a" then
                    match load_cleaned_data default_max_records w with
                    | None => (None, w)
                    | Some (float_column, remaining_df) =>
                        if (total_processed <? List.length remaining_df)%nat then
                          let remaining_df := skipn total_processed remaining_df in
                          match save float_column set_order remaining_df w with
                          | (raised, w) => (None, w)
                          | (returned, w) =>
                              (Some (total_processed
                                     + List.length remaining_df)%nat, w)
                          end
                        else (Some total_processed, w)
                    end
                  else process_batches set_order batch_size responses
                         total_processed w
              end
          end
  end.

(** [process_data_interactive(self, batch_size)] *)
Definition process_data_interactive (set_order : list string -> list string)
    (batch_size : nat) (responses : list string) (w : world)
    : option nat * world :=
  match cleaned_dataset_csv w with
  | None =>
      match responses with
      | [] => (None, w)
      | response :: responses =>
          if negb (yes response) then (Some 0%nat, w)
          else
            match clean_all_data_and_save default_max_records w with
            | (None, w) => (None, w)
            | (Some total_cleaned, w) =>
                process_batches set_order batch_size responses 0 w
            end
      end
  | Some _ => process_batches set_order batch_size responses 0 w
  end.

End DataProcessor.

Import DataProcessor.

Local Open Scope list_scope.

(** * Definitions for the statements *)

(** ** Frames *)

(** [subsequence s l]: [s] is [l] with some rows removed, the others in their
    order. *)
Inductive subsequence (A : Type) : list A -> list A -> Prop :=
| subsequence_nil : subsequence [] []
| subsequence_skip : forall a s l, subsequence s l -> subsequence s (a :: l)
| subsequence_keep : forall a s l, subsequence s l -> subsequence (a :: s) (a :: l).

(** The frame a fallible step returned; no row when it raised. *)
Definition frame_of (result : option CleanedFrame) : CleanedFrame :=
  match result with
  | Some out => out
  | None => []
  end.

(** Its rows without the added columns. *)
Definition rows_of (result : option CleanedFrame) : DataFrame :=
  map raw (frame_of result).

(** [x] carries the id of [r]. *)
Definition same_id (r : trip) (x : trip) : bool :=
  if string_dec (id x) (id r) then true else false.

(** [r] is the first row of [df] that carries its id. *)
Definition first_occurrence (df : DataFrame) (r : trip) : Prop :=
  find (same_id r) df = Some r.

(** C8 as the specification words it: the cleaned output holds no id twice,
    and of several rows of the input with one id it holds the first. *)
Definition first_of_several_kept (df : DataFrame) : Prop :=
  forall excluded_records out ledger',
    clean_pipeline df excluded_records = (Some out, ledger') ->
    NoDup (map id (map raw out))
    /\ forall r,
         first_occurrence df r ->
         (2 <= List.length (filter (same_id r) df))%nat ->
         In r (map raw out).

(** A row passes the missing-value filter and the four range checks of
    [clean_data]. *)
Definition passes_clean_data (r : trip) : Prop :=
  has_na r = false /\ invalid_datetime r = false /\ invalid_coords r = false
  /\ invalid_duration r = false /\ invalid_passengers r = false.

(** ** Timestamps as text and as datetimes *)

(** What a timestamp cell holds: nothing, a text, or a datetime. *)
Inductive timestamp_cell : Type :=
| empty_cell
| text_cell (s : string)
| datetime_cell (t : Z).

Definition cell_read (c : option string) : timestamp_cell :=
  match c with None => empty_cell | Some s => text_cell s end.

Definition cell_held (c : option Z) : timestamp_cell :=
  match c with None => empty_cell | Some t => datetime_cell t end.

(** The row [t] holds what the row [r] holds in the nine columns
    [clean_data] does not assign to. *)
Definition same_other_cells (r : csv_trip) (t : trip) : Prop :=
  id t = csv_id r
  /\ vendor_id t = csv_vendor_id r
  /\ passenger_count t = csv_passenger_count r
  /\ pickup_longitude t = csv_pickup_longitude r
  /\ pickup_latitude t = csv_pickup_latitude r
  /\ dropoff_longitude t = csv_dropoff_longitude r
  /\ dropoff_latitude t = csv_dropoff_latitude r
  /\ store_and_fwd_flag t = csv_store_and_fwd_flag r
  /\ trip_duration t = csv_trip_duration r.

(** The row [t] holds what the row [r] holds, in every column. *)
Definition same_cells (r : csv_trip) (t : trip) : Prop :=
  same_other_cells r t
  /\ cell_held (pickup_datetime t) = cell_read (csv_pickup_datetime r)
  /\ cell_held (dropoff_datetime t) = cell_read (csv_dropoff_datetime r).

(** C10 as the specification words it, for [clean_data] on the frame
    [load_data] returns: the rows returned are rows of the input, in its
    order, each with the values it had. *)
Definition keeps_field_values
    (to_datetime : list (option string) -> option (list (option Z)))
    (df : list csv_trip) : Prop :=
  forall excluded_records out ledger',
    clean_data_text to_datetime df excluded_records = Some (out, ledger') ->
    exists kept, subsequence kept df /\ Forall2 same_cells kept out.

(** ** The great-circle formula over the reals *)

(** The haversine of the central angle between two points given in degrees,
    and the distance in kilometres on a sphere of radius 6371. *)
Definition haversine_a (lat1 lon1 lat2 lon2 : R) : R :=
  (Rtrigo_def.sin ((lat2 * (PI / 180) - lat1 * (PI / 180)) / 2)
   * Rtrigo_def.sin ((lat2 * (PI / 180) - lat1 * (PI / 180)) / 2)
   + Rtrigo_def.cos (lat1 * (PI / 180)) * Rtrigo_def.cos (lat2 * (PI / 180))
     * (Rtrigo_def.sin ((lon2 * (PI / 180) - lon1 * (PI / 180)) / 2)
        * Rtrigo_def.sin ((lon2 * (PI / 180) - lon1 * (PI / 180)) / 2)))%R.

Definition haversine_R (lat1 lon1 lat2 lon2 : R) : R :=
  (6371 * (2 * asin (R_sqrt.sqrt (haversine_a lat1 lon1 lat2 lon2))))%R.

(** ** Bins of equal width *)

(** The 21 edges [pd.cut] computes for a column whose least entry [mn] is below
    its greatest entry [mx]. *)
Definition bin_edges (mn mx : R) : list float64 :=
  Fin (mn - (mx - mn) * 0.001)
  :: map (fun i => Fin (IZR (Z.of_nat i) * ((mx - mn) / 20) + mn)) (seq 1 19)
  ++ [Fin mx].

(** [in_bin mn mx k x]: [x] lies in the [k]-th of 20 bins of equal width
    between [mn] and [mx]; a bin holds its right end, the first one also
    holds [mn]. *)
Definition in_bin (mn mx : R) (k : nat) (x : R) : Prop :=
  (k <= 19)%nat
  /\ (k = 0%nat -> mn <= x)%R
  /\ (k <> 0%nat -> mn + INR k * ((mx - mn) / 20) < x)%R
  /\ (x <= mn + INR (k + 1) * ((mx - mn) / 20))%R.

(** The label of an entry, read off the edges: the number of edges below it,
    less one. *)
Definition bin_index (mn mx x : R) : nat :=
  (searchsorted_left (bin_edges mn mx) (Fin x) - 1)%nat.

(** [mn] is the least and [mx] the greatest entry of the column [xs]. *)
Definition column_range (xs : list R) (mn mx : R) : Prop :=
  In mn xs /\ (forall y, In y xs -> (mn <= y)%R)
  /\ In mx xs /\ (forall y, In y xs -> (y <= mx)%R).

(** ** Frames to run the code on *)

(** Two trips along a meridian: 0.10 degrees of latitude in 20 minutes
    (about 33 km/h) and 0.03 degrees in 10 minutes (about 20 km/h). *)
Definition trip_a : trip :=
  {| id := "id0000001";
     vendor_id := Some 1%Z;
     pickup_datetime := Some 1451606400000000000%Z;
     dropoff_datetime := Some 1451607600000000000%Z;
     passenger_count := Fin 1;
     pickup_longitude := Fin (-74.00);
     pickup_latitude := Fin 40.70;
     dropoff_longitude := Fin (-74.00);
     dropoff_latitude := Fin 40.80;
     store_and_fwd_flag := Some "N";
     trip_duration := Fin 1200 |}.

Definition trip_b : trip :=
  {| id := "id0000002";
     vendor_id := Some 2%Z;
     pickup_datetime := Some 1451610000000000000%Z;
     dropoff_datetime := Some 1451610600000000000%Z;
     passenger_count := Fin 2;
     pickup_longitude := Fin (-73.95);
     pickup_latitude := Fin 40.72;
     dropoff_longitude := Fin (-73.95);
     dropoff_latitude := Fin 40.75;
     store_and_fwd_flag := Some "N";
     trip_duration := Fin 600 |}.

(** The rows the cleaning run makes of them. *)
Definition cleaned_a : cleaned_trip :=
  with_features trip_a ("Zone_0_0", "Zone_19_0").

Definition cleaned_b : cleaned_trip :=
  with_features trip_b ("Zone_19_19", "Zone_0_19").

(** The second trip with its [trip_duration] cell left empty in the CSV. *)
Definition trip_no_duration : trip :=
  {| id := "id0000002";
     vendor_id := Some 2%Z;
     pickup_datetime := Some 1451610000000000000%Z;
     dropoff_datetime := Some 1451610600000000000%Z;
     passenger_count := Fin 2;
     pickup_longitude := Fin (-73.95);
     pickup_latitude := Fin 40.72;
     dropoff_longitude := Fin (-73.95);
     dropoff_latitude := Fin 40.75;
     store_and_fwd_flag := Some "N";
     trip_duration := NaN |}.

Definition cleaned_no_duration : cleaned_trip :=
  with_features trip_no_duration ("Zone_19_19", "Zone_0_19").

(** A row with a missing pickup latitude, a second row with the id of
    [trip_a], and a trip of 30 seconds. *)
Definition trip_no_pickup : trip :=
  {| id := "id0000003";
     vendor_id := Some 1%Z;
     pickup_datetime := Some 1451613600000000000%Z;
     dropoff_datetime := Some 1451614200000000000%Z;
     passenger_count := Fin 1;
     pickup_longitude := Fin (-73.98);
     pickup_latitude := NaN;
     dropoff_longitude := Fin (-73.97);
     dropoff_latitude := Fin 40.76;
     store_and_fwd_flag := Some "N";
     trip_duration := Fin 600 |}.

Definition trip_a_again : trip :=
  {| id := "id0000001";
     vendor_id := Some 2%Z;
     pickup_datetime := Some 1451617200000000000%Z;
     dropoff_datetime := Some 1451617800000000000%Z;
     passenger_count := Fin 3;
     pickup_longitude := Fin (-73.99);
     pickup_latitude := Fin 40.74;
     dropoff_longitude := Fin (-73.98);
     dropoff_latitude := Fin 40.76;
     store_and_fwd_flag := Some "N";
     trip_duration := Fin 600 |}.

Definition trip_short : trip :=
  {| id := "id0000004";
     vendor_id := Some 2%Z;
     pickup_datetime := Some 1451620800000000000%Z;
     dropoff_datetime := Some 1451620830000000000%Z;
     passenger_count := Fin 1;
     pickup_longitude := Fin (-73.95);
     pickup_latitude := Fin 40.72;
     dropoff_longitude := Fin (-73.95);
     dropoff_latitude := Fin 40.75;
     store_and_fwd_flag := Some "N";
     trip_duration := Fin 30 |}.

(** A second row with the id of [trip_short], and a row whose pickup and
    dropoff are one point, with its [trip_duration] cell left empty or 0. *)
Definition trip_short_again : trip :=
  {| id := "id0000004";
     vendor_id := Some 1%Z;
     pickup_datetime := Some 1451624400000000000%Z;
     dropoff_datetime := Some 1451625000000000000%Z;
     passenger_count := Fin 1;
     pickup_longitude := Fin (-73.95);
     pickup_latitude := Fin 40.72;
     dropoff_longitude := Fin (-73.95);
     dropoff_latitude := Fin 40.75;
     store_and_fwd_flag := Some "N";
     trip_duration := Fin 600 |}.

Definition trip_still : trip :=
  {| id := "id0000002";
     vendor_id := Some 2%Z;
     pickup_datetime := Some 1451610000000000000%Z;
     dropoff_datetime := Some 1451610600000000000%Z;
     passenger_count := Fin 2;
     pickup_longitude := Fin (-73.95);
     pickup_latitude := Fin 40.72;
     dropoff_longitude := Fin (-73.95);
     dropoff_latitude := Fin 40.72;
     store_and_fwd_flag := Some "N";
     trip_duration := NaN |}.

Definition cleaned_still : cleaned_trip :=
  with_features trip_still ("Zone_19_19", "Zone_0_19").

Definition trip_zero : trip :=
  {| id := "id0000002";
     vendor_id := Some 2%Z;
     pickup_datetime := Some 1451610000000000000%Z;
     dropoff_datetime := Some 1451610600000000000%Z;
     passenger_count := Fin 2;
     pickup_longitude := Fin (-73.95);
     pickup_latitude := Fin 40.72;
     dropoff_longitude := Fin (-73.95);
     dropoff_latitude := Fin 40.72;
     store_and_fwd_flag := Some "N";
     trip_duration := Fin 0 |}.

Definition cleaned_zero : cleaned_trip :=
  with_features trip_zero ("Zone_19_19", "Zone_0_19").

(** A trip of 30 seconds whose [vendor_id] cell is empty. *)
Definition trip_unknown_vendor : trip :=
  {| id := "id0000005";
     vendor_id := None;
     pickup_datetime := Some 1451620800000000000%Z;
     dropoff_datetime := Some 1451620830000000000%Z;
     passenger_count := Fin 1;
     pickup_longitude := Fin (-73.95);
     pickup_latitude := Fin 40.72;
     dropoff_longitude := Fin (-73.95);
     dropoff_latitude := Fin 40.75;
     store_and_fwd_flag := Some "N";
     trip_duration := Fin 30 |}.

(** The two trips as [pd.read_csv] returns them, and [pd.to_datetime] on
    their texts. *)
Definition csv_a : csv_trip :=
  {| csv_id := "id0000001";
     csv_vendor_id := Some 1%Z;
     csv_pickup_datetime := Some "2016-01-01 00:00:00";
     csv_dropoff_datetime := Some "2016-01-01 00:20:00";
     csv_passenger_count := Fin 1;
     csv_pickup_longitude := Fin (-74.00);
     csv_pickup_latitude := Fin 40.70;
     csv_dropoff_longitude := Fin (-74.00);
     csv_dropoff_latitude := Fin 40.80;
     csv_store_and_fwd_flag := Some "N";
     csv_trip_duration := Fin 1200 |}.

Definition csv_b : csv_trip :=
  {| csv_id := "id0000002";
     csv_vendor_id := Some 2%Z;
     csv_pickup_datetime := Some "2016-01-01 01:00:00";
     csv_dropoff_datetime := Some "2016-01-01 01:10:00";
     csv_passenger_count := Fin 2;
     csv_pickup_longitude := Fin (-73.95);
     csv_pickup_latitude := Fin 40.72;
     csv_dropoff_longitude := Fin (-73.95);
     csv_dropoff_latitude := Fin 40.75;
     csv_store_and_fwd_flag := Some "N";
     csv_trip_duration := Fin 600 |}.

Definition read_instant (s : string) : option Z :=
  if String.eqb s "2016-01-01 00:00:00" then Some 1451606400000000000%Z
  else if String.eqb s "2016-01-01 00:20:00" then Some 1451607600000000000%Z
  else if String.eqb s "2016-01-01 01:00:00" then Some 1451610000000000000%Z
  else if String.eqb s "2016-01-01 01:10:00" then Some 1451610600000000000%Z
  else None.

Fixpoint to_datetime_example (column : list (option string))
    : option (list (option Z)) :=
  match column with
  | [] => Some []
  | None :: column =>
      match to_datetime_example column with
      | Some stamps => Some (None :: stamps)
      | None => None
      end
  | Some s :: column =>
      match read_instant s, to_datetime_example column with
      | Some t, Some stamps => Some (Some t :: stamps)
      | _, _ => None
      end
  end.

Definition raw_batch : DataFrame :=
  [trip_a; trip_b; trip_no_pickup; trip_a_again; trip_short].

Definition empty_database : database :=
  {| vendors := []; zones := []; trips := [];
     vendors_id_seq := 0; zones_id_seq := 0 |}.

(** ** The validity bounds *)

(** The bounds a cleaned record is to satisfy, as a check on a row. *)
Definition after (dropoff pickup : option Z) : bool :=
  match dropoff, pickup with
  | Some d, Some p => (p <? d)%Z
  | _, _ => false
  end.

Definition between (lo hi x : float64) : bool := le lo x && le x hi.

Definition within_bounds (c : cleaned_trip) : bool :=
  after (dropoff_datetime (raw c)) (pickup_datetime (raw c))
  && between lat_min lat_max (pickup_latitude (raw c))
  && between lon_min lon_max (pickup_longitude (raw c))
  && between lat_min lat_max (dropoff_latitude (raw c))
  && between lon_min lon_max (dropoff_longitude (raw c))
  && between (Fin 60) (Fin 21600) (trip_duration (raw c))
  && between (Fin 1) (Fin 6) (passenger_count (raw c))
  && between (Fin 1) (Fin 200) (trip_speed_kmh c).

(** ** The ledger *)

(** The ids of the frame [df] that are not ids of the cleaned output [out]. *)
Definition dropped_id (df : DataFrame) (out : CleanedFrame) (i : string) : Prop :=
  In i (map id df) /\ ~ In i (map id (map raw out)).

(** C2 as the specification words it: after a cleaning run, the ids the run
    appended to the ledger are the ids of the input that are absent from the
    cleaned output, and every row the run dropped has its id among them. *)
Definition ledger_records_every_drop (df : DataFrame) : Prop :=
  forall excluded_records out ledger',
    clean_pipeline df excluded_records = (Some out, ledger') ->
    exists appended,
      ledger' = excluded_records ++ appended
      /\ (forall i, dropped_id df out i <-> In i appended)
      /\ (forall r, In r df -> ~ In r (map raw out) -> In (id r) appended).

(** [app] accounts for the rows removed from [l] to reach [kept]. *)
Definition accounted (l kept : DataFrame) (app : ledger) : Prop :=
  subsequence kept l
  /\ NoDup app
  /\ (forall i, In i app <-> In i (map id l) /\ ~ In i (map id kept)).

(** ** The store *)

(** A zones row carries the values [insert_zones] computes for its zone from
    the batch [df]: the mean over both end points of every trip of the batch
    that refers to the zone as pickup or as dropoff, and the number of those
    trips. *)
Definition zone_row_current (df : CleanedFrame) (row : zones_row) : Prop :=
  latitude row = avg_lat df (zone_name row)
  /\ longitude row = avg_lon df (zone_name row)
  /\ trip_count row = List.length (zone_trips df (zone_name row)).

(** The table has a row for zone [z], and its rows for [z] are current. *)
Definition zone_written (df : CleanedFrame) (z : string)
    (rows : list zones_row) : Prop :=
  (exists row, In row rows /\ zone_name row = z)
  /\ (forall row, In row rows -> zone_name row = z -> zone_row_current df row).

(** The coordinates "mapped to" a zone, as C3 words it: the pickup points
    labelled with the zone and the dropoff points labelled with it. *)
Definition own_latitudes (df : CleanedFrame) (z : string) : list float64 :=
  map (fun r => pickup_latitude (raw r))
      (filter (fun r => zone_is z (pickup_zone r)) df)
  ++ map (fun r => dropoff_latitude (raw r))
         (filter (fun r => zone_is z (dropoff_zone r)) df).

Definition own_longitudes (df : CleanedFrame) (z : string) : list float64 :=
  map (fun r => pickup_longitude (raw r))
      (filter (fun r => zone_is z (pickup_zone r)) df)
  ++ map (fun r => dropoff_longitude (raw r))
         (filter (fun r => zone_is z (dropoff_zone r)) df).

(** C3 as the specification words it. *)
Definition zone_mean_of_own_coordinates (iteration : list string)
    (df : CleanedFrame) (db : database) : Prop :=
  forall z row,
    In z iteration ->
    In row (zones (insert_zones iteration df db)) ->
    zone_name row = z ->
    latitude row = mean (own_latitudes df z)
    /\ longitude row = mean (own_longitudes df z).

(** The store after the statements of [insert_vendors] on a float64 column,
    and after those of [save_to_database], when none of them raises. *)
Definition insert_vendor_rows (float_column : bool) (df : CleanedFrame)
    (db : database) : database :=
  fold_left (fun db vendor_id =>
               execute_insert_vendor vendor_id
                 (vendor_name float_column vendor_id) db)
            (unique Z.eq_dec [] (dropna_cells (map (fun r => vendor_id (raw r)) df)))
            db.

Definition load_rows (float_column : bool) (iteration : list string)
    (df : CleanedFrame) (db : database) : database :=
  insert_trip_rows df
    (insert_zones iteration df (insert_vendor_rows float_column df db)).

(** Whether a load returns: every vendor id is sent as a float and fits its
    column, and no statement for a zone or for a trip raises. *)
Definition load_accepted (float_column : bool) (iteration : list string)
    (df : CleanedFrame) : bool :=
  forallb (fun v => float_column && negb (int4_rejects v))
          (unique Z.eq_dec [] (dropna_cells (map (fun r => vendor_id (raw r)) df)))
  && negb (existsb (zone_rejected df) iteration)
  && negb (existsb rejected df).

(** The rows of the slices [insert_trips] commits: those before the first
    slice that holds a row the INSERT raises for. *)
Definition committed_rows (df : CleanedFrame) : CleanedFrame :=
  List.concat (firstn_until (existsb rejected) (slices (List.length df) 100 df)).

(** [l] is the start of [l']. *)
Definition prefix (A : Type) (l l' : list A) : Prop :=
  exists rest, l' = l ++ rest.

(** A vendor id, a trip id, is a key of its table. *)
Definition vendor_present (v : Z) (db : database) : Prop :=
  existsb (fun row => (vendors_vendor_id row =? v)%Z) (vendors db) = true.

Definition trip_present (i : string) (db : database) : Prop :=
  existsb (fun t => if string_dec (trips_id t) i then true else false)
          (trips db) = true.

(** ** Finite cells *)

(** [np.isfinite], and the number a finite cell holds. *)
Definition isfinite (x : float64) : bool :=
  match x with Fin _ => true | _ => false end.

Definition value (x : float64) : R :=
  match x with Fin v => v | _ => 0%R end.

(** A row every column of the tables takes: its INSERT does not raise, its
    vendor id fits an INTEGER column, its coordinates are numbers and its
    zone names fit VARCHAR(50). *)
Definition short_name (cell : option string) : bool :=
  match cell with
  | None => true
  | Some z => (String.length z <=? 50)%nat
  end.

Definition loadable (r : cleaned_trip) : bool :=
  negb (rejected r)
  && match vendor_id (raw r) with
     | Some v => negb (int4_rejects v)
     | None => false
     end
  && isfinite (pickup_latitude (raw r)) && isfinite (pickup_longitude (raw r))
  && isfinite (dropoff_latitude (raw r)) && isfinite (dropoff_longitude (raw r))
  && short_name (pickup_zone r) && short_name (dropoff_zone r).

(** ** Files to run the code on *)

(** A fresh processor beside a [train.csv] of the two trips, no other file,
    and an empty store. *)
Definition world_raw : world :=
  {| self_excluded_records := [];
     train_csv := Some [trip_a; trip_b];
     cleaned_dataset_csv := None;
     excluded_records_txt := None;
     store := empty_database |}.

(** A [train.csv] with a third row, whose vendor cell is empty: the vendor
    column read from it is float64.  The duration check drops the row. *)
Definition world_raw_float : world :=
  {| self_excluded_records := [];
     train_csv := Some [trip_a; trip_b; trip_unknown_vendor];
     cleaned_dataset_csv := None;
     excluded_records_txt := None;
     store := empty_database |}.

(** The same after [clean_all_data_and_save]. *)
Definition world_cleaned_float : world :=
  {| self_excluded_records := ["id0000005"];
     train_csv := Some [trip_a; trip_b; trip_unknown_vendor];
     cleaned_dataset_csv :=
       Some {| vendor_id_float := true;
               cleaned_rows := [cleaned_a; cleaned_b] |};
     excluded_records_txt := Some "id0000005";
     store := empty_database |}.

(** A store that holds vendor 2, zone "Zone_0_0" and the second trip. *)
Definition database_b : database :=
  {| vendors := [{| vendors_id := 1; vendors_vendor_id := 2%Z;
                    vendors_vendor_name := "Vendor_2.0" |}];
     zones := [{| zones_id := 1; zone_name := "Zone_0_0";
                  latitude := Fin 40.71; longitude := Fin (-73.99);
                  trip_count := 7 |}];
     trips := [trips_row_of cleaned_b None (Some 1%nat)];
     vendors_id_seq := 1; zones_id_seq := 1 |}.

(** A set walked in the order its members were added. *)
Definition insertion_order (members : list string) : list string := members.

(** ** Responses at the prompt *)

(** A response at the prompt of [process_data_interactive] that goes on with
    the next batch: anything but [q] and [a]. *)
Definition continues (response : string) : bool :=
  negb (String.eqb response "q") && negb (String.eqb response "a").

(** ** The constraints of the schema *)

(** The constraints [database.init_db] declares on the three tables, on the
    store: no value twice in a PRIMARY KEY or UNIQUE column ([trips.id],
    [vendors.id], [vendors.vendor_id], [zones.id], [zones.zone_name]), and
    every SERIAL id drawn from its sequence. *)
Definition vendors_hold (db : database) : Prop :=
  NoDup (map vendors_vendor_id (vendors db))
  /\ NoDup (map vendors_id (vendors db))
  /\ Forall (fun v => (vendors_id v <= vendors_id_seq db)%nat) (vendors db).

Definition zones_hold (db : database) : Prop :=
  NoDup (map zone_name (zones db))
  /\ NoDup (map zones_id (zones db))
  /\ Forall (fun z => (zones_id z <= zones_id_seq db)%nat) (zones db).

Definition schema_holds (db : database) : Prop :=
  NoDup (map trips_id (trips db)) /\ vendors_hold db /\ zones_hold db.

(** * Properties *)

(** ** Frames as lists: subsequences and first occurrences *)

Create HintDb frames.
#[local] Hint Constructors subsequence : frames.

Section Subsequence.

Variable A : Type.

Lemma subsequence_refl (l : list A) : subsequence l l.
Proof. induction l; auto with frames. Qed.

Lemma subsequence_trans (s m l : list A) :
  subsequence s m -> subsequence m l -> subsequence s l.
Proof.
  intros Hsm Hml; revert s Hsm.
  induction Hml; intros s' Hsm; auto with frames.
  inversion Hsm; subst; auto with frames.
Qed.

Lemma subsequence_filter (f : A -> bool) (l : list A) :
  subsequence (filter f l) l.
Proof.
  induction l as [|a l IH]; simpl; auto with frames.
  destruct (f a); auto with frames.
Qed.

Lemma subsequence_In (s l : list A) (a : A) :
  subsequence s l -> In a s -> In a l.
Proof.
  induction 1; simpl; intuition.
Qed.

Lemma subsequence_map (B : Type) (f : A -> B) (s l : list A) :
  subsequence s l -> subsequence (map f s) (map f l).
Proof. induction 1; simpl; auto with frames. Qed.

Lemma subsequence_NoDup (s l : list A) :
  subsequence s l -> NoDup l -> NoDup s.
Proof.
  induction 1; intros Hnd; auto.
  - inversion Hnd; auto.
  - inversion Hnd; subst. constructor; auto.
    intros Hin. eauto using subsequence_In.
Qed.

Lemma subsequence_nil_l (l : list A) : subsequence [] l.
Proof. induction l; auto with frames. Qed.

Lemma subsequence_combine_fst (B : Type) (l : list A) (l' : list B) :
  subsequence (map fst (combine l l')) l.
Proof.
  revert l'; induction l as [|a l IH]; intros [|b l']; simpl;
    auto using subsequence_nil_l with frames.
Qed.

End Subsequence.

(** ** [drop_duplicates] *)

Lemma drop_duplicates_seen_subsequence (seen : list string) (df : DataFrame) :
  subsequence (drop_duplicates_seen seen df) df.
Proof.
  revert seen; induction df as [|r df IH]; intros seen; simpl; auto with frames.
  destruct (in_dec string_dec (id r) seen); auto with frames.
Qed.

Lemma drop_duplicates_seen_fresh (seen : list string) (df : DataFrame) (r : trip) :
  In r (drop_duplicates_seen seen df) -> ~ In (id r) seen.
Proof.
  revert seen; induction df as [|x df IH]; intros seen; simpl; [tauto|].
  destruct (in_dec string_dec (id x) seen) as [Hx|Hx].
  - apply IH.
  - simpl. intros [->|Hin]; [exact Hx|].
    apply IH in Hin. simpl in Hin. tauto.
Qed.

Lemma drop_duplicates_seen_NoDup (seen : list string) (df : DataFrame) :
  NoDup (map id (drop_duplicates_seen seen df)).
Proof.
  revert seen; induction df as [|x df IH]; intros seen; simpl; [constructor|].
  destruct (in_dec string_dec (id x) seen) as [Hx|Hx]; [apply IH|].
  simpl. constructor; [|apply IH].
  rewrite in_map_iff. intros (r & Hid & Hin).
  apply drop_duplicates_seen_fresh in Hin. simpl in Hin. intuition congruence.
Qed.

Lemma same_id_true (r x : trip) : same_id r x = true <-> id x = id r.
Proof. unfold same_id. destruct (string_dec (id x) (id r)); split; congruence. Qed.

(** A row survives [drop_duplicates] exactly when its id was not seen before
    and it is the first row of the frame with that id. *)
Lemma drop_duplicates_seen_first (seen : list string) (df : DataFrame) (r : trip) :
  In r (drop_duplicates_seen seen df) <->
  ~ In (id r) seen /\ first_occurrence df r.
Proof.
  unfold first_occurrence.
  revert seen; induction df as [|x df IH]; intros seen; simpl.
  - split; [tauto|]. intros [_ H]; discriminate.
  - destruct (same_id r x) eqn:E.
    + apply same_id_true in E.
      destruct (in_dec string_dec (id x) seen) as [Hx|Hx].
      * rewrite IH. split.
        -- intros [Hs _]. rewrite <- E in Hs. contradiction.
        -- intros [Hs _]. rewrite <- E in Hs. contradiction.
      * simpl. rewrite IH. simpl. split.
        -- intros [->|[Hs _]].
           ++ split; [exact Hx|reflexivity].
           ++ exfalso. apply Hs. left. exact E.
        -- intros [_ H]. left. congruence.
    + assert (Hne : id x <> id r).
      { intros H. apply same_id_true in H. congruence. }
      destruct (in_dec string_dec (id x) seen) as [Hx|Hx].
      * apply IH.
      * simpl. rewrite IH. simpl. split.
        -- intros [->|[Hs H']]; [congruence|]. split; [|exact H'].
           intros Hin. apply Hs. right. exact Hin.
        -- intros [Hs H']. right. split; [|exact H'].
           intros [Heq|Hin]; [exact (Hne Heq)|exact (Hs Hin)].
Qed.

Lemma drop_duplicates_first (df : DataFrame) (r : trip) :
  In r (drop_duplicates df) <-> first_occurrence df r.
Proof.
  unfold drop_duplicates. rewrite drop_duplicates_seen_first. simpl. tauto.
Qed.

(** ** Facts on the float64 model *)

Section Float64.

Local Open Scope R_scope.

Lemma Rltb_true (x y : R) : x < y -> Rltb x y = true.
Proof. intros H. unfold Rltb. destruct (Rlt_dec x y); [reflexivity|contradiction]. Qed.

Lemma Rltb_false (x y : R) : y <= x -> Rltb x y = false.
Proof. intros H. unfold Rltb. destruct (Rlt_dec x y); [lra|reflexivity]. Qed.

Lemma Rleb_true (x y : R) : x <= y -> Rleb x y = true.
Proof. intros H. unfold Rleb. destruct (Rle_dec x y); [reflexivity|contradiction]. Qed.

Lemma Rleb_false (x y : R) : y < x -> Rleb x y = false.
Proof. intros H. unfold Rleb. destruct (Rle_dec x y); [lra|reflexivity]. Qed.

Lemma Reqb_true (x y : R) : x = y -> Reqb x y = true.
Proof. intros H. unfold Reqb. destruct (Req_dec_T x y); [reflexivity|contradiction]. Qed.

Lemma Reqb_false (x y : R) : x <> y -> Reqb x y = false.
Proof. intros H. unfold Reqb. destruct (Req_dec_T x y); [contradiction|reflexivity]. Qed.

Lemma Rltb_spec (x y : R) : Rltb x y = true <-> x < y.
Proof. unfold Rltb. destruct (Rlt_dec x y); split; intros; try discriminate; tauto. Qed.

Lemma Rleb_spec (x y : R) : Rleb x y = true <-> x <= y.
Proof. unfold Rleb. destruct (Rle_dec x y); split; intros; try discriminate; tauto. Qed.

Lemma Rltb_Rleb (x y : R) : Rltb x y = negb (Rleb y x).
Proof.
  unfold Rltb, Rleb. destruct (Rlt_dec x y), (Rle_dec y x); simpl; try reflexivity; lra.
Qed.

Lemma mul_comm (a b : float64) : mul a b = mul b a.
Proof.
  destruct a as [|na|x], b as [|nb|y]; simpl; try reflexivity.
  - now rewrite xorb_comm.
  - destruct (Reqb y 0); [reflexivity|]. now rewrite xorb_comm.
  - destruct (Reqb x 0); [reflexivity|]. now rewrite xorb_comm.
  - now rewrite Rmult_comm.
Qed.

(** What a range check leaves: a cell that is not NaN and is not below (not
    above) a finite bound is at least (at most) that bound. *)
Lemma not_lt_le (a : float64) (c : R) :
  isna a = false -> lt a (Fin c) = false -> le (Fin c) a = true.
Proof.
  destruct a as [|n|x]; simpl; try discriminate.
  - intros _ ->. reflexivity.
  - intros _. rewrite Rltb_Rleb. now destruct (Rleb c x).
Qed.

Lemma not_gt_le (a : float64) (c : R) :
  isna a = false -> gt a (Fin c) = false -> le a (Fin c) = true.
Proof.
  unfold gt. destruct a as [|n|x]; simpl; try discriminate.
  - intros _. now destruct n.
  - intros _. rewrite Rltb_Rleb. now destruct (Rleb x c).
Qed.

End Float64.

Section Haversine.

Local Open Scope R_scope.
Local Abbreviation sin := Rtrigo_def.sin.
Local Abbreviation cos := Rtrigo_def.cos.
Local Abbreviation sqrt := R_sqrt.sqrt.

Lemma cos_cos_bounds (p q : R) :
  - (sin ((q - p) / 2) * sin ((q - p) / 2)) <= cos p * cos q
  <= 1 - sin ((q - p) / 2) * sin ((q - p) / 2).
Proof.
  pose proof (cos_plus p q) as Hp.
  pose proof (cos_minus q p) as Hm.
  pose proof (cos_2a_sin ((q - p) / 2)) as H2.
  replace (2 * ((q - p) / 2)) with (q - p) in H2 by lra.
  pose proof (COS_bound (p + q)) as Hb.
  lra.
Qed.

Lemma haversine_a_bounds (lat1 lon1 lat2 lon2 : R) :
  0 <= haversine_a lat1 lon1 lat2 lon2 <= 1.
Proof.
  unfold haversine_a.
  set (p := lat1 * (PI / 180)). set (q := lat2 * (PI / 180)).
  set (s := sin ((q - p) / 2)).
  set (t := sin ((lon2 * (PI / 180) - lon1 * (PI / 180)) / 2)).
  pose proof (cos_cos_bounds p q) as Hc. fold s in Hc.
  assert (Hs : 0 <= s * s <= 1).
  { pose proof (SIN_bound ((q - p) / 2)) as Hb. fold s in Hb. nra. }
  assert (Ht : 0 <= t * t <= 1).
  { pose proof (SIN_bound ((lon2 * (PI / 180) - lon1 * (PI / 180)) / 2)) as Hb.
    fold t in Hb. nra. }
  nra.
Qed.

Lemma sqrt_haversine_a_bounds (lat1 lon1 lat2 lon2 : R) :
  0 <= sqrt (haversine_a lat1 lon1 lat2 lon2) <= 1.
Proof.
  pose proof (haversine_a_bounds lat1 lon1 lat2 lon2) as [H0 H1].
  split; [apply sqrt_pos|].
  rewrite <- sqrt_1. apply sqrt_le_1_alt. exact H1.
Qed.

(** On finite coordinates the function returns a finite distance, the
    great-circle formula over the reals. *)
Lemma haversine_distance_Fin (lat1 lon1 lat2 lon2 : R) :
  haversine_distance (Fin lat1) (Fin lon1) (Fin lat2) (Fin lon2)
  = Fin (haversine_R lat1 lon1 lat2 lon2).
Proof.
  unfold haversine_distance, radians, square. simpl.
  rewrite !(@Reqb_false 2 0) by lra. simpl.
  fold (haversine_a lat1 lon1 lat2 lon2).
  pose proof (haversine_a_bounds lat1 lon1 lat2 lon2) as [H0 H1].
  pose proof (sqrt_haversine_a_bounds lat1 lon1 lat2 lon2) as [H2 H3].
  rewrite Rltb_false by exact H0. simpl.
  rewrite !Rleb_true by lra. simpl. reflexivity.
Qed.

(** Along a meridian, northwards: the distance is the arc of the latitude
    difference. *)
Lemma haversine_R_meridian (lat1 lat2 lon : R) :
  0 <= lat2 - lat1 <= 180 ->
  haversine_R lat1 lon lat2 lon = 6371 * ((lat2 - lat1) * (PI / 180)).
Proof.
  intros H. unfold haversine_R, haversine_a.
  replace ((lon * (PI / 180) - lon * (PI / 180)) / 2) with 0 by lra.
  rewrite sin_0.
  set (h := (lat2 * (PI / 180) - lat1 * (PI / 180)) / 2).
  replace (sin h * sin h + cos (lat1 * (PI / 180)) * cos (lat2 * (PI / 180)) * (0 * 0))
    with (Rsqr (sin h)) by (unfold Rsqr; lra).
  assert (Hh : 0 <= h <= PI / 2).
  { unfold h. pose proof PI_RGT_0. split; nra. }
  rewrite sqrt_Rsqr.
  - rewrite asin_sin by (pose proof PI_RGT_0; lra). unfold h. lra.
  - apply sin_ge_0; pose proof PI_RGT_0; lra.
Qed.

End Haversine.

(** ** The steps of the cleaning run *)

Lemma clean_data_subsequence (df : DataFrame) (excluded_records : ledger) :
  subsequence (fst (clean_data df excluded_records)) (drop_duplicates df).
Proof.
  unfold clean_data, exclude. cbn [fst].
  repeat (eapply subsequence_trans; [apply subsequence_filter|]).
  apply subsequence_refl.
Qed.

Lemma cut_length (x : list float64) (nbins : nat) (labels : list (option nat)) :
  cut x nbins = Some labels -> List.length labels = List.length x.
Proof.
  unfold cut. destruct (nbins_to_bins x nbins); [|discriminate].
  intros H; injection H as <-. apply length_map.
Qed.

Lemma create_zones_length (latitudes longitudes : list float64)
    (names : list string) :
  List.length latitudes = List.length longitudes ->
  create_zones latitudes longitudes = Some names ->
  List.length names = List.length latitudes.
Proof.
  intros Hlen. unfold create_zones.
  destruct (cut latitudes 20) as [la|] eqn:Ela; [|discriminate].
  destruct (cut longitudes 20) as [lo|] eqn:Elo; [|discriminate].
  intros H; injection H as <-.
  apply cut_length in Ela, Elo.
  rewrite length_map, length_combine. lia.
Qed.

Lemma map_fst_combine (A B : Type) (l : list A) (l' : list B) :
  List.length l' = List.length l -> map fst (combine l l') = l.
Proof.
  revert l'; induction l as [|a l IH]; intros [|b l']; simpl; try discriminate;
    auto.
  intros H. f_equal. apply IH. lia.
Qed.

(** What [calculate_derived_features] returns when it returns a frame: the
    rows that pass the speed check, each with its six added columns, and the
    ledger extended by the ids of the other rows. *)
Lemma calculate_derived_features_Some (df : DataFrame)
    (excluded_records : ledger) (out : CleanedFrame) (ledger' : ledger) :
  calculate_derived_features df excluded_records = (Some out, ledger') ->
  map raw out = filter (fun r => negb (invalid_speed r)) df
  /\ ledger' = excluded_records ++ map id (filter invalid_speed df)
  /\ Forall (fun c => trip_distance_km c = distance_km (raw c)
                      /\ trip_speed_kmh c = speed_kmh (raw c)
                      /\ fare_amount c = fare (raw c)
                      /\ fare_per_km c = fare_per_distance (raw c)) out.
Proof.
  unfold calculate_derived_features, exclude.
  set (kept := filter (fun r => negb (invalid_speed r)) df).
  destruct (create_zones (map pickup_latitude kept) (map pickup_longitude kept))
    as [pz|] eqn:Ep; [|discriminate].
  destruct (create_zones (map dropoff_latitude kept) (map dropoff_longitude kept))
    as [dz|] eqn:Ed; [|discriminate].
  intros H; injection H as <- <-.
  apply create_zones_length in Ep, Ed; rewrite ?length_map in *; try reflexivity.
  repeat split.
  - rewrite map_map. simpl. rewrite <- (map_map fst (fun r => r)), map_id.
    apply map_fst_combine. rewrite length_combine. lia.
  - apply Forall_forall. intros c Hc. apply in_map_iff in Hc.
    destruct Hc as (rz & <- & _). simpl. auto.
Qed.

Lemma calculate_derived_features_ledger (df : DataFrame)
    (excluded_records : ledger) :
  snd (calculate_derived_features df excluded_records)
  = excluded_records ++ map id (filter invalid_speed df).
Proof.
  unfold calculate_derived_features, exclude.
  destruct (create_zones _ _); [|reflexivity].
  destruct (create_zones _ _); reflexivity.
Qed.

(** On a frame that the speed check leaves empty, [pd.cut] raises ("Cannot
    cut empty array") and the function returns no frame. *)
Lemma calculate_derived_features_empty (df : DataFrame)
    (excluded_records : ledger) :
  filter (fun r => negb (invalid_speed r)) df = [] ->
  fst (calculate_derived_features df excluded_records) = None.
Proof.
  intros H. unfold calculate_derived_features, exclude. rewrite H. reflexivity.
Qed.

Lemma rows_of_derived_features (df : DataFrame) (excluded_records : ledger) :
  subsequence (rows_of (fst (calculate_derived_features df excluded_records))) df.
Proof.
  destruct (calculate_derived_features df excluded_records) as [[out|] l] eqn:E;
    unfold rows_of; simpl; [|apply subsequence_nil_l].
  apply calculate_derived_features_Some in E. destruct E as (-> & _).
  apply subsequence_filter.
Qed.

Lemma clean_pipeline_unfold (df : DataFrame) (excluded_records : ledger) :
  clean_pipeline df excluded_records
  = calculate_derived_features (fst (clean_data df excluded_records))
                               (snd (clean_data df excluded_records)).
Proof.
  unfold clean_pipeline. destruct (clean_data df excluded_records); reflexivity.
Qed.

(** ** [pd.cut]: the edges and the label of an entry *)

Section Cut.

Local Open Scope R_scope.

Lemma nanmin_from_Fin (xs : list R) (m : R) :
  nanmin_from (Fin m) (map Fin xs) = Fin (fold_left Rmin xs m).
Proof.
  revert m; induction xs as [|y xs IH]; intros m; simpl; [reflexivity|].
  unfold Rltb, Rmin.
  destruct (Rlt_dec y m), (Rle_dec m y); try lra; apply IH.
Qed.

Lemma nanmax_from_Fin (xs : list R) (m : R) :
  nanmax_from (Fin m) (map Fin xs) = Fin (fold_left Rmax xs m).
Proof.
  revert m; induction xs as [|y xs IH]; intros m; simpl; [reflexivity|].
  unfold gt. simpl. unfold Rltb, Rmax.
  destruct (Rlt_dec m y), (Rle_dec m y); try lra; try apply IH.
  replace y with m by lra. apply IH.
Qed.

Lemma fold_Rmin_least (xs : list R) (m mn : R) :
  In mn (m :: xs) -> (forall y, In y (m :: xs) -> mn <= y) ->
  fold_left Rmin xs m = mn.
Proof.
  revert m; induction xs as [|y xs IH]; intros m Hin Hle; simpl.
  - destruct Hin as [->|[]]. reflexivity.
  - apply IH.
    + assert (mn <= m) by (apply Hle; simpl; auto).
      assert (mn <= y) by (apply Hle; simpl; auto).
      unfold Rmin. destruct (Rle_dec m y); simpl in *.
      * destruct Hin as [->|[->|Hin]]; auto. left. lra.
      * destruct Hin as [->|[->|Hin]]; auto. left. lra.
    + intros z [<-|Hz].
      * assert (mn <= m) by (apply Hle; simpl; auto).
        assert (mn <= y) by (apply Hle; simpl; auto).
        unfold Rmin. destruct (Rle_dec m y); lra.
      * apply Hle. simpl. auto.
Qed.

Lemma fold_Rmax_greatest (xs : list R) (m mx : R) :
  In mx (m :: xs) -> (forall y, In y (m :: xs) -> y <= mx) ->
  fold_left Rmax xs m = mx.
Proof.
  revert m; induction xs as [|y xs IH]; intros m Hin Hle; simpl.
  - destruct Hin as [->|[]]. reflexivity.
  - apply IH.
    + assert (m <= mx) by (apply Hle; simpl; auto).
      assert (y <= mx) by (apply Hle; simpl; auto).
      unfold Rmax. destruct (Rle_dec m y); simpl in *.
      * destruct Hin as [->|[->|Hin]]; auto. left. lra.
      * destruct Hin as [->|[->|Hin]]; auto. left. lra.
    + intros z [<-|Hz].
      * assert (m <= mx) by (apply Hle; simpl; auto).
        assert (y <= mx) by (apply Hle; simpl; auto).
        unfold Rmax. destruct (Rle_dec m y); lra.
      * apply Hle. simpl. auto.
Qed.

(** The least and the greatest entry of a finite column. *)
Lemma nanmin_least (xs : list R) (mn : R) :
  In mn xs -> (forall y, In y xs -> mn <= y) -> nanmin (map Fin xs) = Fin mn.
Proof.
  destruct xs as [|x xs]; [intros []|]. intros Hin Hle.
  unfold nanmin. simpl. rewrite nanmin_from_Fin. f_equal.
  now apply fold_Rmin_least.
Qed.

Lemma nanmax_greatest (xs : list R) (mx : R) :
  In mx xs -> (forall y, In y xs -> y <= mx) -> nanmax (map Fin xs) = Fin mx.
Proof.
  destruct xs as [|x xs]; [intros []|]. intros Hin Hle.
  unfold nanmax. simpl. rewrite nanmax_from_Fin. f_equal.
  now apply fold_Rmax_greatest.
Qed.

Lemma linspace_Fin (a b : R) (n : nat) :
  linspace (Fin a) (Fin b) (S (S n))
  = map (fun i => Fin (IZR (Z.of_nat i) * ((b - a) / IZR (Z.of_nat (S n))) + a))
        (seq 0 (S n)) ++ [Fin b].
Proof.
  unfold linspace. f_equal.
  replace (S (S n) - 1)%nat with (S n) by lia.
  apply map_ext. intros i. cbn [sub div].
  rewrite Reqb_false; [reflexivity|].
  apply not_0_IZR. lia.
Qed.

(** The edges of a column with distinct least and greatest entries. *)
Lemma nbins_to_bins_range (xs : list R) (mn mx : R) :
  In mn xs -> (forall y, In y xs -> mn <= y) ->
  In mx xs -> (forall y, In y xs -> y <= mx) ->
  mn < mx ->
  nbins_to_bins (map Fin xs) 20 = Some (bin_edges mn mx).
Proof.
  intros Hmn Hle Hmx Hge Hlt.
  unfold nbins_to_bins.
  rewrite (nanmin_least xs Hmn Hle), (nanmax_greatest xs Hmx Hge).
  destruct xs as [|x xs]; [destruct Hmn|]. cbn [map isinf isna orb eq].
  rewrite Reqb_false by lra.
  change (20 + 1)%nat with 21%nat. rewrite linspace_Fin.
  change (seq 0 20) with (0%nat :: seq 1 19).
  change (Z.of_nat 20) with 20%Z.
  cbn [map app sub mul add]. change (Z.of_nat 0) with 0%Z. unfold bin_edges.
  replace (0 * ((mx - mn) / 20) + mn - (mx - mn) * 0.001)
    with (mn - (mx - mn) * 0.001) by lra.
  reflexivity.
Qed.

Lemma filter_seq_threshold (f : nat -> bool) (k start n : nat) :
  (forall i, (start <= i)%nat -> f i = true <-> (i <= k)%nat) ->
  List.length (filter f (seq start n)) = (Nat.min (start + n) (k + 1) - start)%nat.
Proof.
  revert start; induction n as [|n IH]; intros start Hf; simpl.
  - lia.
  - destruct (f start) eqn:E.
    + pose proof (proj1 (Hf start (le_n _)) E) as Hk.
      simpl. rewrite IH by (intros; apply Hf; lia). lia.
    + assert (~ (start <= k)%nat).
      { intros H. pose proof (proj2 (Hf start (le_n _)) H). congruence. }
      rewrite IH by (intros; apply Hf; lia). lia.
Qed.

Lemma length_filter_map (A B : Type) (f : B -> bool) (g : A -> B) (l : list A) :
  List.length (filter f (map g l)) = List.length (filter (fun a => f (g a)) l).
Proof.
  induction l as [|a l IH]; simpl; [reflexivity|].
  destruct (f (g a)); simpl; congruence.
Qed.

Lemma length_filter_cons (A : Type) (f : A -> bool) (a : A) (l : list A) :
  List.length (filter f (a :: l))
  = ((if f a then 1 else 0) + List.length (filter f l))%nat.
Proof. simpl. destruct (f a); reflexivity. Qed.

Lemma searchsorted_left_Fin (bins : list float64) (x : R) :
  searchsorted_left bins (Fin x)
  = List.length (filter (fun e => lt e (Fin x)) bins).
Proof. reflexivity. Qed.

Lemma length_bin_edges (mn mx : R) : List.length (bin_edges mn mx) = 21%nat.
Proof.
  unfold bin_edges. rewrite length_cons, length_app, length_map, length_seq.
  reflexivity.
Qed.

(** Edges below an entry of the [k]-th bin: the lowest edge and the [k] inner
    edges that follow it. *)
Lemma searchsorted_left_in_bin (mn mx x : R) (k : nat) :
  mn < mx -> x <= mx -> in_bin mn mx k x ->
  searchsorted_left (bin_edges mn mx) (Fin x) = S k.
Proof.
  intros Hlt Hx (Hk & H0 & Hlo & Hhi).
  assert (Hmn : mn <= x).
  { destruct (Nat.eq_dec k 0) as [E|E]; [auto|].
    apply Hlo in E. assert (0 <= INR k) by apply pos_INR. nra. }
  rewrite searchsorted_left_Fin. unfold bin_edges.
  rewrite length_filter_cons, filter_app, length_app, length_filter_cons,
    length_filter_map.
  change (lt (Fin (mn - (mx - mn) * 0.001)) (Fin x))
    with (Rltb (mn - (mx - mn) * 0.001) x).
  change (lt (Fin mx) (Fin x)) with (Rltb mx x).
  rewrite (@Rltb_true (mn - (mx - mn) * 0.001) x) by lra.
  rewrite (@Rltb_false mx x) by lra.
  rewrite (@filter_seq_threshold _ k); [cbn [filter List.length]; lia|].
  intros i Hi. unfold lt. rewrite Rltb_spec, <- INR_IZR_INZ.
  rewrite plus_INR in Hhi. change (INR 1) with 1 in Hhi.
  split.
  - intros Hi'. destruct (le_lt_dec i k) as [L|L]; [exact L|exfalso].
    assert (INR (k + 1) <= INR i) by (apply le_INR; lia).
    rewrite plus_INR in H. change (INR 1) with 1 in H. nra.
  - intros Hi'. assert (k <> 0%nat) as E by lia. apply Hlo in E.
    assert (INR i <= INR k) by (apply le_INR; lia). nra.
Qed.

(** The label [pd.cut] gives an entry between the least and the greatest one
    is the index of the equal-width bin the entry lies in. *)
Lemma bin_label_in_bin (mn mx x : R) (k : nat) :
  mn < mx -> x <= mx -> in_bin mn mx k x ->
  bin_label (bin_edges mn mx) (Fin x) = Some k.
Proof.
  intros Hlt Hx Hbin.
  unfold bin_label.
  rewrite (searchsorted_left_in_bin Hlt Hx Hbin), length_bin_edges.
  destruct Hbin as (Hk & _).
  replace (S k =? 21)%nat with false by (symmetry; apply Nat.eqb_neq; lia).
  replace (S k - 1)%nat with k by lia.
  reflexivity.
Qed.

Lemma exists_bin (w y : R) (n : nat) :
  0 < w -> 0 < y <= INR n * w ->
  exists k, (k < n)%nat /\ INR k * w < y <= INR (k + 1) * w.
Proof.
  intros Hw. induction n as [|n IH]; intros [Hy Hle].
  - simpl in Hle. lra.
  - destruct (Rle_dec y (INR n * w)) as [L|L].
    + destruct IH as (k & Hk & Hb); [lra|]. exists k. split; [lia|exact Hb].
    + exists n. split; [lia|]. replace (n + 1)%nat with (S n) by lia. lra.
Qed.

Lemma exists_in_bin (mn mx x : R) :
  mn < mx -> mn <= x <= mx -> exists k, in_bin mn mx k x.
Proof.
  intros Hlt [Hlo Hhi].
  destruct (Req_dec_T x mn) as [->|Hne].
  - exists 0%nat. unfold in_bin. simpl. repeat split; try lia; try lra.
  - destruct (@exists_bin ((mx - mn) / 20) (x - mn) 20) as (k & Hk & Hb).
    + lra.
    + rewrite INR_IZR_INZ. change (IZR (Z.of_nat 20)) with 20. lra.
    + exists k. unfold in_bin. repeat split; try lia; try lra.
Qed.

Lemma bin_index_in_bin (mn mx x : R) :
  mn < mx -> mn <= x <= mx ->
  in_bin mn mx (bin_index mn mx x) x
  /\ bin_label (bin_edges mn mx) (Fin x) = Some (bin_index mn mx x).
Proof.
  intros Hlt Hx. destruct (exists_in_bin Hlt Hx) as (k & Hk).
  assert (E : bin_index mn mx x = k).
  { unfold bin_index. rewrite (searchsorted_left_in_bin Hlt (proj2 Hx) Hk). lia. }
  rewrite E. split; [exact Hk|]. apply bin_label_in_bin; tauto.
Qed.

Lemma bin_index_unique (mn mx x : R) (k : nat) :
  mn < mx -> x <= mx -> in_bin mn mx k x -> bin_index mn mx x = k.
Proof.
  intros Hlt Hx Hk. unfold bin_index.
  rewrite (searchsorted_left_in_bin Hlt Hx Hk). lia.
Qed.

(** [pd.cut] on a finite column with distinct least and greatest entries. *)
Lemma cut_range (xs : list R) (mn mx : R) :
  column_range xs mn mx -> mn < mx ->
  cut (map Fin xs) 20 = Some (map (fun x => Some (bin_index mn mx x)) xs).
Proof.
  intros (Hmn & Hle & Hmx & Hge) Hlt. unfold cut.
  rewrite (nbins_to_bins_range xs Hmn Hle Hmx Hge Hlt). f_equal.
  rewrite map_map. apply map_ext_in. intros x Hx.
  apply bin_index_in_bin; auto.
Qed.

Lemma in_bin_least (mn mx : R) : mn < mx -> in_bin mn mx 0 mn.
Proof.
  intros H. unfold in_bin. simpl. repeat split; try lia; try lra.
Qed.

Lemma in_bin_greatest (mn mx : R) : mn < mx -> in_bin mn mx 19 mx.
Proof.
  intros H. unfold in_bin. rewrite !INR_IZR_INZ.
  change (IZR (Z.of_nat 19)) with 19. change (IZR (Z.of_nat (19 + 1))) with 20.
  repeat split; try lia; try lra.
Qed.

End Cut.

(** ** Two trips, as a frame to run the code on *)

Section Examples.

Local Open Scope R_scope.

Lemma filter_mask_false (A : Type) (mask : A -> bool) (l : list A) :
  Forall (fun r => mask r = false) l ->
  filter mask l = [] /\ filter (fun r => negb (mask r)) l = l.
Proof.
  induction 1 as [|r l Hr _ [IH1 IH2]]; simpl; [auto|].
  rewrite Hr. simpl. rewrite IH1, IH2. auto.
Qed.

Lemma exclude_none (A : Type) (ident : A -> string) (mask : A -> bool)
    (df : list A) (excluded_records : ledger) :
  Forall (fun r => mask r = false) df ->
  exclude ident mask (df, excluded_records) = (df, excluded_records).
Proof.
  intros H. destruct (@filter_mask_false A mask df H) as [E1 E2].
  unfold exclude. rewrite E1, E2. simpl. now rewrite app_nil_r.
Qed.

(** A frame without repeated ids, missing required cells or invalid rows
    passes [clean_data] unchanged. *)
Lemma clean_data_valid (df : DataFrame) (excluded_records : ledger) :
  drop_duplicates df = df ->
  Forall (fun r => has_na r = false) df ->
  Forall (fun r => invalid_datetime r = false) df ->
  Forall (fun r => invalid_coords r = false) df ->
  Forall (fun r => invalid_duration r = false) df ->
  Forall (fun r => invalid_passengers r = false) df ->
  clean_data df excluded_records = (df, excluded_records).
Proof.
  intros Hd Hna Hdt Hc Hdur Hp. unfold clean_data. rewrite Hd.
  unfold dropna. rewrite (proj2 (@filter_mask_false _ has_na df Hna)).
  now rewrite !exclude_none.
Qed.

Lemma pi_bounds : 3 < PI <= 4.
Proof. pose proof PI2_3_2. pose proof PI_4. lra. Qed.

Lemma distance_km_trip_a :
  distance_km trip_a = Fin (6371 * ((40.80 - 40.70) * (PI / 180))).
Proof.
  unfold distance_km, trip_a; cbn [pickup_latitude pickup_longitude
    dropoff_latitude dropoff_longitude].
  rewrite haversine_distance_Fin, haversine_R_meridian by lra. reflexivity.
Qed.

Lemma distance_km_trip_b :
  distance_km trip_b = Fin (6371 * ((40.75 - 40.72) * (PI / 180))).
Proof.
  unfold distance_km, trip_b; cbn [pickup_latitude pickup_longitude
    dropoff_latitude dropoff_longitude].
  rewrite haversine_distance_Fin, haversine_R_meridian by lra. reflexivity.
Qed.

Lemma speed_kmh_trip_a :
  speed_kmh trip_a
  = Fin (6371 * ((40.80 - 40.70) * (PI / 180)) / (1200 / 3600)).
Proof.
  unfold speed_kmh. rewrite distance_km_trip_a.
  unfold trip_a; cbn [trip_duration div].
  rewrite (@Reqb_false 3600 0) by lra.
  rewrite (@Reqb_false (1200 / 3600) 0) by lra. reflexivity.
Qed.

Lemma speed_kmh_trip_b :
  speed_kmh trip_b
  = Fin (6371 * ((40.75 - 40.72) * (PI / 180)) / (600 / 3600)).
Proof.
  unfold speed_kmh. rewrite distance_km_trip_b.
  unfold trip_b; cbn [trip_duration div].
  rewrite (@Reqb_false 3600 0) by lra.
  rewrite (@Reqb_false (600 / 3600) 0) by lra. reflexivity.
Qed.

Lemma invalid_speed_trip_a : invalid_speed trip_a = false.
Proof.
  unfold invalid_speed. rewrite speed_kmh_trip_a. unfold gt, lt.
  pose proof pi_bounds. rewrite !Rltb_false by lra. reflexivity.
Qed.

Lemma invalid_speed_trip_b : invalid_speed trip_b = false.
Proof.
  unfold invalid_speed. rewrite speed_kmh_trip_b. unfold gt, lt.
  pose proof pi_bounds. rewrite !Rltb_false by lra. reflexivity.
Qed.

Lemma invalid_coords_trip_a : invalid_coords trip_a = false.
Proof.
  unfold invalid_coords, lat_min, lat_max, lon_min, lon_max, gt, lt, trip_a;
    cbn [pickup_latitude pickup_longitude dropoff_latitude dropoff_longitude].
  rewrite !Rltb_false by lra. reflexivity.
Qed.

Lemma invalid_coords_trip_b : invalid_coords trip_b = false.
Proof.
  unfold invalid_coords, lat_min, lat_max, lon_min, lon_max, gt, lt, trip_b;
    cbn [pickup_latitude pickup_longitude dropoff_latitude dropoff_longitude].
  rewrite !Rltb_false by lra. reflexivity.
Qed.

Lemma invalid_duration_trip_a : invalid_duration trip_a = false.
Proof.
  unfold invalid_duration, gt, lt, trip_a; cbn [trip_duration].
  rewrite !Rltb_false by lra. reflexivity.
Qed.

Lemma invalid_duration_trip_b : invalid_duration trip_b = false.
Proof.
  unfold invalid_duration, gt, lt, trip_b; cbn [trip_duration].
  rewrite !Rltb_false by lra. reflexivity.
Qed.

Lemma invalid_passengers_trip_a : invalid_passengers trip_a = false.
Proof.
  unfold invalid_passengers, gt, lt, trip_a; cbn [passenger_count].
  rewrite !Rltb_false by lra. reflexivity.
Qed.

Lemma invalid_passengers_trip_b : invalid_passengers trip_b = false.
Proof.
  unfold invalid_passengers, gt, lt, trip_b; cbn [passenger_count].
  rewrite !Rltb_false by lra. reflexivity.
Qed.

Lemma cut_pair_increasing (u v : R) :
  u < v -> cut [Fin u; Fin v] 20 = Some [Some 0%nat; Some 19%nat].
Proof.
  intros H.
  assert (Hr : column_range [u; v] u v).
  { unfold column_range. simpl. repeat split; auto; intros y [<-|[<-|[]]]; lra. }
  change [Fin u; Fin v] with (map Fin [u; v]).
  rewrite (cut_range Hr H). cbn [map].
  rewrite (bin_index_unique H (Rlt_le _ _ H) (in_bin_least H)).
  rewrite (bin_index_unique H (Rle_refl _) (in_bin_greatest H)).
  reflexivity.
Qed.

Lemma cut_pair_decreasing (u v : R) :
  u < v -> cut [Fin v; Fin u] 20 = Some [Some 19%nat; Some 0%nat].
Proof.
  intros H.
  assert (Hr : column_range [v; u] u v).
  { unfold column_range. simpl. repeat split; auto; intros y [<-|[<-|[]]]; lra. }
  change [Fin v; Fin u] with (map Fin [v; u]).
  rewrite (cut_range Hr H). cbn [map].
  rewrite (bin_index_unique H (Rlt_le _ _ H) (in_bin_least H)).
  rewrite (bin_index_unique H (Rle_refl _) (in_bin_greatest H)).
  reflexivity.
Qed.

Lemma pickup_zones_a_b :
  create_zones (map pickup_latitude [trip_a; trip_b])
               (map pickup_longitude [trip_a; trip_b])
  = Some ["Zone_0_0"; "Zone_19_19"]%string.
Proof.
  change (map pickup_latitude [trip_a; trip_b]) with [Fin 40.70; Fin 40.72].
  change (map pickup_longitude [trip_a; trip_b]) with [Fin (-74.00); Fin (-73.95)].
  unfold create_zones. rewrite !cut_pair_increasing by lra. reflexivity.
Qed.

Lemma dropoff_zones_a_b :
  create_zones (map dropoff_latitude [trip_a; trip_b])
               (map dropoff_longitude [trip_a; trip_b])
  = Some ["Zone_19_0"; "Zone_0_19"]%string.
Proof.
  change (map dropoff_latitude [trip_a; trip_b]) with [Fin 40.80; Fin 40.75].
  change (map dropoff_longitude [trip_a; trip_b]) with [Fin (-74.00); Fin (-73.95)].
  unfold create_zones.
  rewrite cut_pair_decreasing, cut_pair_increasing by lra. reflexivity.
Qed.

Lemma clean_data_a_b (excluded_records : ledger) :
  clean_data [trip_a; trip_b] excluded_records
  = ([trip_a; trip_b], excluded_records).
Proof.
  apply clean_data_valid; repeat constructor;
    auto using invalid_coords_trip_a, invalid_coords_trip_b,
      invalid_duration_trip_a, invalid_duration_trip_b,
      invalid_passengers_trip_a, invalid_passengers_trip_b.
Qed.

Lemma calculate_derived_features_a_b (excluded_records : ledger) :
  calculate_derived_features [trip_a; trip_b] excluded_records
  = (Some [cleaned_a; cleaned_b], excluded_records).
Proof.
  unfold calculate_derived_features.
  rewrite exclude_none
    by (repeat constructor; auto using invalid_speed_trip_a, invalid_speed_trip_b).
  rewrite pickup_zones_a_b, dropoff_zones_a_b. reflexivity.
Qed.

Lemma clean_pipeline_a_b (excluded_records : ledger) :
  clean_pipeline [trip_a; trip_b] excluded_records
  = (Some [cleaned_a; cleaned_b], excluded_records).
Proof.
  unfold clean_pipeline. rewrite clean_data_a_b.
  apply calculate_derived_features_a_b.
Qed.

End Examples.

(** ** The Haversine distance *)

Section HaversineSymmetry.

Local Open Scope R_scope.

Lemma haversine_term_sym (a b : float64) :
  square (sin (div (sub a b) (Fin 2))) = square (sin (div (sub b a) (Fin 2))).
Proof.
  destruct a as [|na|x], b as [|nb|y]; cbn [sub]; try reflexivity.
  - destruct na, nb; reflexivity.
  - cbn [div sin square mul]. rewrite !(@Reqb_false 2 0) by lra.
    cbn [sin square mul]. f_equal.
    replace ((y - x) / 2) with (- ((x - y) / 2)) by lra.
    rewrite sin_neg. ring.
Qed.

(** C9: the distance from a point (a pair of finite coordinates, in degrees)
    to itself is 0, and the distance does not depend on which of the two
    points is given first; the latter also on NaN and infinite cells. *)
Theorem haversine_distance_zero_and_symmetric :
  (forall lat lon : R,
      haversine_distance (Fin lat) (Fin lon) (Fin lat) (Fin lon) = Fin 0)
  /\ (forall lat1 lon1 lat2 lon2 : float64,
         haversine_distance lat1 lon1 lat2 lon2
         = haversine_distance lat2 lon2 lat1 lon1).
Proof.
  split.
  - intros lat lon. rewrite haversine_distance_Fin, haversine_R_meridian by lra.
    f_equal. lra.
  - intros lat1 lon1 lat2 lon2. unfold haversine_distance.
    rewrite (haversine_term_sym (radians lat2) (radians lat1)).
    rewrite (haversine_term_sym (radians lon2) (radians lon1)).
    rewrite (mul_comm (cos (radians lat1)) (cos (radians lat2))).
    reflexivity.
Qed.

End HaversineSymmetry.

(** ** The validity bounds of the cleaned output *)

Section Bounds.

Local Open Scope R_scope.

Lemma between_range (lo hi : R) (x : float64) :
  isna x = false -> lt x (Fin lo) = false -> gt x (Fin hi) = false ->
  between (Fin lo) (Fin hi) x = true.
Proof.
  intros Hna Hlo Hhi. unfold between.
  now rewrite (@not_lt_le _ _ Hna Hlo), (@not_gt_le _ _ Hna Hhi).
Qed.

Lemma between_Fin (lo hi : R) (x : float64) :
  between (Fin lo) (Fin hi) x = true -> exists v, x = Fin v /\ lo <= v <= hi.
Proof.
  unfold between. destruct x as [|n|v]; cbn [le].
  - discriminate.
  - destruct n; discriminate.
  - rewrite andb_true_iff, !Rleb_spec. eauto.
Qed.

Lemma invalid_coords_false (r : trip) :
  has_na r = false -> invalid_coords r = false ->
  between lat_min lat_max (pickup_latitude r) = true
  /\ between lon_min lon_max (pickup_longitude r) = true
  /\ between lat_min lat_max (dropoff_latitude r) = true
  /\ between lon_min lon_max (dropoff_longitude r) = true.
Proof.
  unfold has_na, invalid_coords. rewrite !orb_false_iff.
  intros (((((_ & _) & H1) & H2) & H3) & H4).
  intros (((((((G1 & G2) & G3) & G4) & G5) & G6) & G7) & G8).
  unfold lat_min, lat_max, lon_min, lon_max in *.
  repeat split; apply between_range; assumption.
Qed.


(** The rows [clean_data] returns passed every check of the function. *)
Lemma clean_data_In (df : DataFrame) (excluded_records : ledger) (r : trip) :
  In r (fst (clean_data df excluded_records)) ->
  has_na r = false /\ invalid_datetime r = false /\ invalid_coords r = false
  /\ invalid_duration r = false /\ invalid_passengers r = false.
Proof.
  unfold clean_data, exclude, dropna. cbn [fst].
  rewrite !filter_In, !negb_true_iff. tauto.
Qed.


Lemma create_zones_no_duration_pickup :
  create_zones (map pickup_latitude [trip_a; trip_no_duration])
               (map pickup_longitude [trip_a; trip_no_duration])
  = Some ["Zone_0_0"; "Zone_19_19"]%string.
Proof. exact pickup_zones_a_b. Qed.

Lemma create_zones_no_duration_dropoff :
  create_zones (map dropoff_latitude [trip_a; trip_no_duration])
               (map dropoff_longitude [trip_a; trip_no_duration])
  = Some ["Zone_19_0"; "Zone_0_19"]%string.
Proof. exact dropoff_zones_a_b. Qed.

Lemma speed_kmh_no_duration : speed_kmh trip_no_duration = NaN.
Proof.
  unfold speed_kmh. change (distance_km trip_no_duration) with (distance_km trip_b).
  rewrite distance_km_trip_b. reflexivity.
Qed.

(** C1, on a frame the code can be given.  A row whose [trip_duration] cell
    is missing passes [clean_data] and [calculate_derived_features]: both
    comparisons of the duration check and both of the speed check are false
    on NaN.  The row is in the cleaned output, its duration is not in
    [60, 21600] and its speed is not in [1, 200]. *)
Theorem missing_duration_survives_cleaning :
  clean_pipeline [trip_a; trip_no_duration] []
  = (Some [cleaned_a; cleaned_no_duration], [])
  /\ trip_duration (raw cleaned_no_duration) = NaN
  /\ between (Fin 60) (Fin 21600) (trip_duration (raw cleaned_no_duration)) = false
  /\ between (Fin 1) (Fin 200) (trip_speed_kmh cleaned_no_duration) = false
  /\ within_bounds cleaned_no_duration = false.
Proof.
  assert (Hs : invalid_speed trip_no_duration = false).
  { unfold invalid_speed. rewrite speed_kmh_no_duration. reflexivity. }
  assert (Hspeed : trip_speed_kmh cleaned_no_duration = NaN)
    by exact speed_kmh_no_duration.
  split; [|split; [reflexivity|split; [reflexivity|split]]].
  - unfold clean_pipeline.
    rewrite clean_data_valid; try (repeat constructor;
      auto using invalid_coords_trip_a, invalid_duration_trip_a,
        invalid_passengers_trip_a).
    + unfold calculate_derived_features.
      rewrite exclude_none
        by (repeat constructor; auto using invalid_speed_trip_a).
      rewrite create_zones_no_duration_pickup, create_zones_no_duration_dropoff.
      reflexivity.
    + exact invalid_coords_trip_b.
    + exact invalid_passengers_trip_b.
  - rewrite Hspeed. reflexivity.
  - unfold within_bounds. rewrite Hspeed. cbn [between le andb].
    now rewrite !andb_false_r.
Qed.


End Bounds.

(** ** The exclusion ledger *)

Section Ledger.

Lemma NoDup_map_inj (A B : Type) (f : A -> B) (l : list A) (x y : A) :
  NoDup (map f l) -> In x l -> In y l -> f x = f y -> x = y.
Proof.
  induction l as [|a l IH]; simpl; [tauto|].
  intros Hnd Hx Hy E. inversion Hnd as [|? ? Hn Hnd']; subst.
  destruct Hx as [->|Hx], Hy as [->|Hy]; auto.
  - exfalso. apply Hn. rewrite E. now apply in_map.
  - exfalso. apply Hn. rewrite <- E. now apply in_map.
Qed.

Lemma filter_ids_disjoint (mask : trip -> bool) (kept : DataFrame) (i : string) :
  NoDup (map id kept) ->
  In i (map id (filter mask kept)) ->
  ~ In i (map id (filter (fun r => negb (mask r)) kept)).
Proof.
  intros Hnd H1 H2. apply in_map_iff in H1, H2.
  destruct H1 as (r1 & E1 & H1), H2 as (r2 & E2 & H2).
  apply filter_In in H1, H2. destruct H1 as [H1 M1], H2 as [H2 M2].
  assert (r1 = r2) by (eapply NoDup_map_inj; eauto; congruence).
  subst. rewrite M1 in M2. discriminate.
Qed.

Lemma filter_ids_cover (mask : trip -> bool) (kept : DataFrame) (i : string) :
  In i (map id kept) ->
  In i (map id (filter mask kept))
  \/ In i (map id (filter (fun r => negb (mask r)) kept)).
Proof.
  intros H. apply in_map_iff in H. destruct H as (r & E & H).
  destruct (mask r) eqn:M; [left|right]; apply in_map_iff; exists r;
    (split; [exact E|]); apply filter_In; rewrite ?M; auto.
Qed.

Lemma accounted_start (l : DataFrame) : accounted l l [].
Proof.
  repeat split; try apply subsequence_refl; try constructor; simpl; tauto.
Qed.

Lemma accounted_step (l kept : DataFrame) (app : ledger) (mask : trip -> bool) :
  NoDup (map id l) -> accounted l kept app ->
  accounted l (filter (fun r => negb (mask r)) kept)
              (app ++ map id (filter mask kept)).
Proof.
  intros Hnd (Hsub & Happ & Hiff).
  assert (Hk : NoDup (map id kept)).
  { eapply subsequence_NoDup; [apply subsequence_map; exact Hsub|exact Hnd]. }
  assert (Hin : forall i, In i (map id kept) -> In i (map id l)).
  { intros i. apply subsequence_In. apply subsequence_map. exact Hsub. }
  assert (Hf : forall i, In i (map id (filter (fun r => negb (mask r)) kept)) ->
                         In i (map id kept)).
  { intros i. apply subsequence_In. apply subsequence_map, subsequence_filter. }
  assert (Hm : forall i, In i (map id (filter mask kept)) -> In i (map id kept)).
  { intros i. apply subsequence_In. apply subsequence_map, subsequence_filter. }
  split; [|split].
  - eapply subsequence_trans; [apply subsequence_filter|exact Hsub].
  - apply NoDup_app; [exact Happ| |].
    + eapply subsequence_NoDup;
        [apply subsequence_map, subsequence_filter|exact Hk].
    + intros i Hi Hi'. apply Hiff in Hi. destruct Hi as [_ Hi]. auto.
  - intros i. rewrite in_app_iff, Hiff. split.
    + intros [[H1 H2]|H]; [split; auto|].
      split; [auto|]. now apply filter_ids_disjoint.
    + intros [H1 H2].
      destruct (in_dec string_dec i (map id kept)) as [K|K]; [right|left; auto].
      destruct (filter_ids_cover mask kept i K); [assumption|contradiction].
Qed.

Lemma exclude_accounted (l kept : DataFrame) (app excluded_records : ledger)
    (mask : trip -> bool) :
  NoDup (map id l) -> accounted l kept app ->
  exists kept' app',
    exclude id mask (kept, excluded_records ++ app)
    = (kept', excluded_records ++ app')
    /\ accounted l kept' app'.
Proof.
  intros Hnd Hacc.
  exists (filter (fun r => negb (mask r)) kept), (app ++ map id (filter mask kept)).
  split; [|now apply accounted_step].
  unfold exclude. now rewrite app_assoc.
Qed.

Lemma clean_data_accounted (df : DataFrame) (excluded_records : ledger) :
  exists kept app,
    clean_data df excluded_records = (kept, excluded_records ++ app)
    /\ accounted (dropna (drop_duplicates df)) kept app.
Proof.
  unfold clean_data. cbv zeta.
  set (l := dropna (drop_duplicates df)).
  assert (Hnd : NoDup (map id l)).
  { eapply subsequence_NoDup;
      [apply subsequence_map, subsequence_filter
      |apply drop_duplicates_seen_NoDup]. }
  assert (E0 : (l, excluded_records) = (l, excluded_records ++ []))
    by now rewrite app_nil_r.
  rewrite E0.
  destruct (exclude_accounted excluded_records invalid_datetime Hnd (accounted_start l))
    as (k1 & a1 & E1 & H1). rewrite E1.
  destruct (exclude_accounted excluded_records invalid_coords Hnd H1)
    as (k2 & a2 & E2 & H2). rewrite E2.
  destruct (exclude_accounted excluded_records invalid_duration Hnd H2)
    as (k3 & a3 & E3 & H3). rewrite E3.
  destruct (exclude_accounted excluded_records invalid_passengers Hnd H3)
    as (k4 & a4 & E4 & H4). rewrite E4.
  eauto.
Qed.

(** C2, amended: the ids a cleaning run appends to the ledger are the ids of
    the rows that the five range checks (timestamps, coordinates, duration,
    passengers, speed) remove; each is appended once.  They are the ids of
    the frame left by [drop_duplicates] and [dropna] that are absent from the
    cleaned output. *)
Theorem ledger_records_range_checks (df : DataFrame)
    (excluded_records : ledger) (out : CleanedFrame) (ledger' : ledger) :
  clean_pipeline df excluded_records = (Some out, ledger') ->
  exists appended,
    ledger' = excluded_records ++ appended
    /\ NoDup appended
    /\ (forall i, In i appended <->
                  dropped_id (dropna (drop_duplicates df)) out i).
Proof.
  intros E. rewrite clean_pipeline_unfold in E.
  destruct (clean_data_accounted df excluded_records) as (k4 & a4 & E4 & H4).
  rewrite E4 in E. cbn [fst snd] in E.
  assert (Hnd : NoDup (map id (dropna (drop_duplicates df)))).
  { eapply subsequence_NoDup;
      [apply subsequence_map, subsequence_filter
      |apply drop_duplicates_seen_NoDup]. }
  apply calculate_derived_features_Some in E. destruct E as (Hraw & Hled & _).
  pose proof (accounted_step invalid_speed Hnd H4) as (_ & H5 & H6).
  exists (a4 ++ map id (filter invalid_speed k4)).
  split; [now rewrite Hled, app_assoc|]. split; [exact H5|].
  intros i. unfold dropped_id. rewrite Hraw. apply H6.
Qed.

Lemma clean_data_raw_batch :
  clean_data raw_batch [] = ([trip_a; trip_b], ["id0000004"]%string).
Proof.
  unfold clean_data.
  change (dropna (drop_duplicates raw_batch)) with [trip_a; trip_b; trip_short].
  rewrite exclude_none by (repeat constructor).
  rewrite exclude_none
    by (repeat constructor;
        auto using invalid_coords_trip_a, invalid_coords_trip_b;
        exact invalid_coords_trip_b).
  unfold exclude at 2. cbn [filter].
  rewrite invalid_duration_trip_a, invalid_duration_trip_b.
  assert (Hs : invalid_duration trip_short = true).
  { unfold invalid_duration, gt, lt, trip_short; cbn [trip_duration].
    rewrite (@Rltb_true 30 60) by lra. apply orb_true_r. }
  rewrite Hs. cbn [negb map app].
  rewrite exclude_none
    by (repeat constructor;
        auto using invalid_passengers_trip_a, invalid_passengers_trip_b).
  reflexivity.
Qed.

Lemma clean_pipeline_raw_batch :
  clean_pipeline raw_batch []
  = (Some [cleaned_a; cleaned_b], ["id0000004"]%string).
Proof.
  unfold clean_pipeline. rewrite clean_data_raw_batch.
  apply calculate_derived_features_a_b.
Qed.

(** C2 fails as worded: on [raw_batch] the run drops the row "id0000003" (its
    pickup latitude is missing) and the second row "id0000001" (a duplicate),
    and the ledger receives "id0000004" only. *)
Lemma ledger_misses_dropped_rows : ~ ledger_records_every_drop raw_batch.
Proof.
  intros H. destruct (H [] _ _ clean_pipeline_raw_batch) as (app & Happ & Hids & _).
  simpl in Happ. subst app.
  assert (Hd : dropped_id raw_batch [cleaned_a; cleaned_b] "id0000003").
  { split; [simpl; tauto|]. simpl. intros [H1|[H1|[]]]; discriminate. }
  apply Hids in Hd. destruct Hd as [Hd|[]]. discriminate.
Qed.

Lemma ledger_records_range_checks_witness :
  exists appended,
    ["id0000004"]%string = [] ++ appended
    /\ NoDup appended
    /\ (forall i, In i appended <->
                  dropped_id (dropna (drop_duplicates raw_batch))
                             [cleaned_a; cleaned_b] i).
Proof.
  exact (@ledger_records_range_checks raw_batch [] _ _ clean_pipeline_raw_batch).
Defined.

End Ledger.

(** ** Identifiers in the cleaned output *)

Section Identifiers.

Local Open Scope R_scope.

Lemma clean_data_In_iff (df : DataFrame) (excluded_records : ledger) (r : trip) :
  In r (fst (clean_data df excluded_records))
  <-> first_occurrence df r /\ passes_clean_data r.
Proof.
  unfold clean_data, exclude, dropna, passes_clean_data. cbn [fst].
  rewrite !filter_In, !negb_true_iff, drop_duplicates_first. tauto.
Qed.

Lemma passes_clean_data_trip_a : passes_clean_data trip_a.
Proof.
  repeat split;
    auto using invalid_coords_trip_a, invalid_duration_trip_a,
      invalid_passengers_trip_a.
Qed.

(** C8, amended: the frame [clean_data] returns, and so the cleaned output,
    never holds two rows with one id.  The rows [clean_data] returns are
    the first occurrences of their ids in the input that have no missing
    required cell and pass the four range checks, and the rows of the
    cleaned output are those of them that pass the speed check: a later row
    with the id is never kept, and the first one is kept only when it is
    valid. *)
Theorem cleaned_rows_are_valid_first_occurrences (df : DataFrame)
    (excluded_records : ledger) :
  NoDup (map id (fst (clean_data df excluded_records)))
  /\ (forall r,
         In r (fst (clean_data df excluded_records))
         <-> first_occurrence df r /\ passes_clean_data r)
  /\ forall out ledger',
      clean_pipeline df excluded_records = (Some out, ledger') ->
      NoDup (map id (map raw out))
      /\ forall r,
          In r (map raw out)
          <-> first_occurrence df r /\ passes_clean_data r
              /\ invalid_speed r = false.
Proof.
  pose proof (clean_data_subsequence df excluded_records) as Hc.
  assert (Hnd : NoDup (map id (fst (clean_data df excluded_records)))).
  { eapply subsequence_NoDup; [apply subsequence_map; exact Hc|].
    apply drop_duplicates_seen_NoDup. }
  split; [exact Hnd|]. split; [apply clean_data_In_iff|].
  intros out ledger' E. rewrite clean_pipeline_unfold in E.
  apply calculate_derived_features_Some in E. destruct E as (-> & _).
  split.
  - eapply subsequence_NoDup;
      [apply subsequence_map, subsequence_filter|exact Hnd].
  - intros r. rewrite filter_In, negb_true_iff, clean_data_In_iff. tauto.
Qed.

Lemma cleaned_rows_are_valid_first_occurrences_witness :
  In trip_a (fst (clean_data [trip_a; trip_a_again] []))
  /\ ~ In trip_a_again (fst (clean_data [trip_a; trip_a_again] [])).
Proof.
  destruct (cleaned_rows_are_valid_first_occurrences [trip_a; trip_a_again] [])
    as (_ & H & _).
  split.
  - apply H. split; [reflexivity|exact passes_clean_data_trip_a].
  - intros Hin. apply H in Hin. destruct Hin as [Hin _]. discriminate Hin.
Defined.

Lemma clean_data_a_b_short (df : DataFrame) :
  dropna (drop_duplicates df) = [trip_a; trip_b; trip_short] ->
  clean_data df [] = ([trip_a; trip_b], ["id0000004"]%string).
Proof.
  intros E. unfold clean_data. rewrite E.
  rewrite exclude_none by (repeat constructor).
  rewrite exclude_none
    by (repeat constructor;
        auto using invalid_coords_trip_a, invalid_coords_trip_b;
        exact invalid_coords_trip_b).
  unfold exclude at 2. cbn [filter].
  rewrite invalid_duration_trip_a, invalid_duration_trip_b.
  assert (Hs : invalid_duration trip_short = true).
  { unfold invalid_duration, gt, lt, trip_short; cbn [trip_duration].
    rewrite (@Rltb_true 30 60) by lra. apply orb_true_r. }
  rewrite Hs. cbn [negb map app].
  rewrite exclude_none
    by (repeat constructor;
        auto using invalid_passengers_trip_a, invalid_passengers_trip_b).
  reflexivity.
Qed.

(** C8 fails as worded.  In [trip_a; trip_b; trip_short; trip_short_again]
    two rows have the id "id0000004".  The first of them lasts 30 seconds:
    [drop_duplicates] keeps it and drops the second, and the duration check
    then drops the first.  The cleaned output holds no row with the id. *)
Lemma first_occurrence_not_kept :
  ~ first_of_several_kept [trip_a; trip_b; trip_short; trip_short_again].
Proof.
  intros H.
  assert (E : clean_pipeline [trip_a; trip_b; trip_short; trip_short_again] []
              = (Some [cleaned_a; cleaned_b], ["id0000004"]%string)).
  { unfold clean_pipeline. rewrite clean_data_a_b_short by reflexivity.
    apply calculate_derived_features_a_b. }
  destruct (H _ _ _ E) as [_ Hkept].
  assert (Hin : In trip_short (map raw [cleaned_a; cleaned_b])).
  { apply Hkept; [reflexivity|]. cbn. lia. }
  destruct Hin as [Hin|[Hin|[]]]; discriminate Hin.
Qed.

End Identifiers.

(** ** Rows are only ever removed *)

Section Rows.

Lemma csv_drop_duplicates_seen_subsequence (seen : list string)
    (df : list csv_trip) :
  subsequence (csv_drop_duplicates_seen seen df) df.
Proof.
  revert seen; induction df as [|r df IH]; intros seen; simpl; [constructor|].
  destruct (in_dec string_dec (csv_id r) seen); constructor; apply IH.
Qed.

Lemma filter_map_commute (A B : Type) (g : A -> B) (f : B -> bool) (l : list A) :
  filter f (map g l) = map g (filter (fun a => f (g a)) l).
Proof.
  induction l as [|a l IH]; simpl; [reflexivity|].
  destruct (f (g a)); simpl; now rewrite IH.
Qed.

Lemma with_timestamps_same_other_cells (r : csv_trip) (stamps : option Z * option Z) :
  same_other_cells r (with_timestamps r stamps).
Proof. repeat split. Qed.

(** C10, amended.  [clean_data], on the frame [load_data] returns, returns
    rows of its input in the order of the input, nothing else; each holds
    what it held in nine of its columns, and in [pickup_datetime] and
    [dropoff_datetime] not the text it held but the datetime that
    [pd.to_datetime] returned for the cell.  [calculate_derived_features]
    returns rows of its input in the order of the input, each with the
    values it had, and adds its six columns to them ([raw] is the row
    without the added columns). *)
Theorem cleaning_keeps_rows_reads_timestamps
    (to_datetime : list (option string) -> option (list (option Z)))
    (df : list csv_trip) (excluded_records : ledger) :
  (forall out ledger',
      clean_data_text to_datetime df excluded_records = Some (out, ledger') ->
      let read := filter (fun r => negb (csv_has_na r))
                         (csv_drop_duplicates_seen [] df) in
      exists pickup_datetime dropoff_datetime kept,
        to_datetime (map csv_pickup_datetime read) = Some pickup_datetime
        /\ to_datetime (map csv_dropoff_datetime read) = Some dropoff_datetime
        /\ subsequence kept
             (combine read (combine pickup_datetime dropoff_datetime))
        /\ subsequence (map fst kept) df
        /\ out = map (fun rs => with_timestamps (fst rs) (snd rs)) kept
        /\ Forall2 same_other_cells (map fst kept) out)
  /\ forall (frame : DataFrame) (l : ledger),
      subsequence (rows_of (fst (calculate_derived_features frame l))) frame.
Proof.
  split; [|intros frame l; apply rows_of_derived_features].
  intros out ledger'. unfold clean_data_text. cbv zeta.
  set (read := filter (fun r => negb (csv_has_na r))
                      (csv_drop_duplicates_seen [] df)).
  destruct (to_datetime (map csv_pickup_datetime read)) as [p|]; [|discriminate].
  destruct (to_datetime (map csv_dropoff_datetime read)) as [d|]; [|discriminate].
  unfold exclude. cbn [fst snd]. intros E.
  injection E as Eout _. symmetry in Eout.
  rewrite !filter_map_commute in Eout.
  set (g := fun rs : csv_trip * (option Z * option Z) =>
              with_timestamps (fst rs) (snd rs)) in *.
  match type of Eout with
  | out = map g ?k => set (kept := k) in *
  end.
  assert (Hk : subsequence kept (combine read (combine p d))).
  { unfold kept.
    repeat (eapply subsequence_trans; [apply subsequence_filter|]).
    apply subsequence_refl. }
  exists p, d, kept. repeat split; auto.
  - eapply subsequence_trans; [apply subsequence_map; exact Hk|].
    eapply subsequence_trans; [apply subsequence_combine_fst|].
    eapply subsequence_trans; [apply subsequence_filter|].
    apply csv_drop_duplicates_seen_subsequence.
  - rewrite Eout. clear. induction kept as [|rs kept IH]; simpl; constructor.
    + apply with_timestamps_same_other_cells.
    + exact IH.
Qed.

Lemma clean_data_text_a_b :
  clean_data_text to_datetime_example [csv_a; csv_b] []
  = Some ([trip_a; trip_b], []).
Proof.
  change (clean_data_text to_datetime_example [csv_a; csv_b] [])
    with (Some (clean_data [trip_a; trip_b] [])).
  now rewrite clean_data_a_b.
Qed.

Lemma cleaning_keeps_rows_reads_timestamps_witness :
  exists kept,
    subsequence (map fst kept) [csv_a; csv_b]
    /\ [trip_a; trip_b] = map (fun rs => with_timestamps (fst rs) (snd rs)) kept.
Proof.
  destruct (cleaning_keeps_rows_reads_timestamps to_datetime_example
              [csv_a; csv_b] []) as [H _].
  destruct (H _ _ clean_data_text_a_b) as (p & d & kept & _ & _ & _ & H1 & H2 & _).
  exists kept. auto.
Defined.

(** C10 fails as worded.  [csv_a; csv_b] is a frame as [load_data] returns
    it, with the two timestamps of each row as text.  [clean_data] returns
    both rows, and neither holds in [pickup_datetime] the value it held: the
    cell held the text "2016-01-01 00:00:00" and holds a datetime. *)
Lemma timestamps_do_not_keep_their_values :
  clean_data_text to_datetime_example [csv_a; csv_b] []
  = Some ([trip_a; trip_b], [])
  /\ ~ keeps_field_values to_datetime_example [csv_a; csv_b].
Proof.
  split; [exact clean_data_text_a_b|]. intros H.
  destruct (H _ _ _ clean_data_text_a_b) as (kept & Hsub & HF).
  inversion HF as [|r t kept' out' (_ & Hp & _) _]; subst.
  revert Hp. cbn [pickup_datetime trip_a cell_held].
  destruct (csv_pickup_datetime r); discriminate.
Qed.

End Rows.

(** ** Zones are relative to the batch *)

Section Zones.

Local Open Scope R_scope.

(** X20: the zone of a point depends on the batch it is zoned with.  The
    point (40.72, -73.95) is the second row of one batch of two rows and the
    first row of another; [create_zones] names it "Zone_19_19" in the first
    batch, where both its coordinates are the greatest of their columns, and
    "Zone_0_0" in the second, where they are the least. *)
Theorem zoning_is_batch_relative :
  create_zones [Fin 40.70; Fin 40.72] [Fin (-74.00); Fin (-73.95)]
  = Some ["Zone_0_0"; "Zone_19_19"]%string
  /\ create_zones [Fin 40.72; Fin 40.75] [Fin (-73.95); Fin (-73.90)]
     = Some ["Zone_0_0"; "Zone_19_19"]%string.
Proof.
  unfold create_zones. rewrite !cut_pair_increasing by lra. split; reflexivity.
Qed.

End Zones.

(** ** Loading into the store *)

Section Store.

Lemma fold_left_preserves (A S F : Type) (step : S -> A -> S) (proj : S -> F) :
  (forall s a, proj (step s a) = proj s) ->
  forall l s, proj (fold_left step l s) = proj s.
Proof.
  intros H l. induction l as [|a l IH]; intros s; simpl; [reflexivity|].
  now rewrite IH, H.
Qed.

Lemma fold_left_reaches (A S : Type) (step : S -> A -> S) (P : A -> S -> Prop) :
  (forall a b s, P a s -> P a (step s b)) ->
  (forall a s, P a (step s a)) ->
  forall l a s, P a s \/ In a l -> P a (fold_left step l s).
Proof.
  intros Hkeep Hset l. induction l as [|b l IH]; intros a s H; simpl.
  - destruct H as [H|[]]. exact H.
  - apply IH. destruct H as [H|[->|H]]; auto.
Qed.

Lemma zone_is_Some (name z : string) : zone_is name (Some z) = true <-> z = name.
Proof. unfold zone_is. destruct (string_dec z name); split; congruence. Qed.

(** *** Zones *)

Lemma upsert_zone_written (df : CleanedFrame) (z : string) (db : database) :
  zone_written df z
    (zones (execute_upsert_zone z (avg_lat df z) (avg_lon df z)
              (List.length (zone_trips df z)) db)).
Proof.
  unfold execute_upsert_zone. cbn [zones].
  destruct (existsb _ (zones db)) eqn:E.
  - apply existsb_exists in E. destruct E as (row0 & Hin & Hz).
    split.
    + eexists. split; [apply in_map, Hin|]. rewrite Hz. cbn [zone_name].
      now apply zone_is_Some.
    + intros row Hrow Hname. apply in_map_iff in Hrow.
      destruct Hrow as (row' & <- & Hin').
      destruct (zone_is z (Some (zone_name row'))) eqn:Z.
      * apply zone_is_Some in Z. unfold zone_row_current. cbn. rewrite Z. auto.
      * apply zone_is_Some in Hname. congruence.
  - split.
    + eexists. split; [apply in_or_app; right; left; reflexivity|reflexivity].
    + intros row Hrow Hname. apply in_app_or in Hrow. destruct Hrow as [Hrow|[<-|[]]].
      * exfalso. assert (existsb (fun z0 => zone_is z (Some (zone_name z0))) (zones db) = true); [|congruence].
        apply existsb_exists. exists row. split; [exact Hrow|]. now apply zone_is_Some.
      * unfold zone_row_current. cbn. auto.
Qed.

Lemma upsert_zone_keeps (df : CleanedFrame) (z z' : string)
    (lat lon : float64) (count : nat) (db : database) :
  zone_written df z (zones db) ->
  zone_written df z (zones (execute_upsert_zone z' lat lon count db))
  \/ z' = z.
Proof.
  intros (Hex & Hall). destruct (string_dec z' z) as [->|Hne]; [right; reflexivity|left].
  assert (Hother : forall row, zone_name row = z ->
                               zone_is z' (Some (zone_name row)) = false).
  { intros row Hrow. destruct (zone_is z' (Some (zone_name row))) eqn:Z; [|reflexivity].
    apply zone_is_Some in Z. congruence. }
  unfold execute_upsert_zone. cbn [zones].
  destruct (existsb _ (zones db)) eqn:E.
  - split.
    + destruct Hex as (row0 & Hin & Hz). exists row0. split; [|exact Hz].
      apply in_map_iff. exists row0. split; [|exact Hin]. now rewrite Hother.
    + intros row Hrow Hname. apply in_map_iff in Hrow.
      destruct Hrow as (row' & <- & Hin').
      destruct (zone_is z' (Some (zone_name row'))) eqn:Z.
      * apply zone_is_Some in Z. cbn in Hname. congruence.
      * auto.
  - split.
    + destruct Hex as (row0 & Hin & Hz). exists row0. split; [|exact Hz].
      apply in_or_app. auto.
    + intros row Hrow Hname. apply in_app_or in Hrow.
      destruct Hrow as [Hrow|[<-|[]]]; [auto|]. cbn in Hname. congruence.
Qed.

Lemma insert_zones_written (iteration : list string) (df : CleanedFrame)
    (db : database) (z : string) :
  zone_written df z (zones db) \/ In z iteration ->
  zone_written df z (zones (insert_zones iteration df db)).
Proof.
  unfold insert_zones.
  apply (@fold_left_reaches string database _
           (fun z db => zone_written df z (zones db))).
  - intros a b s H.
    destruct (upsert_zone_keeps b (avg_lat df b) (avg_lon df b)
                (List.length (zone_trips df b)) s H) as [H' | ->]; [exact H'|].
    apply upsert_zone_written.
  - intros a s. apply upsert_zone_written.
Qed.

Lemma upsert_zone_noop (df : CleanedFrame) (z : string) (db : database) :
  zone_written df z (zones db) ->
  zones (execute_upsert_zone z (avg_lat df z) (avg_lon df z)
           (List.length (zone_trips df z)) db) = zones db.
Proof.
  intros ((row0 & Hin & Hz) & Hall).
  unfold execute_upsert_zone. cbn [zones].
  replace (existsb _ (zones db)) with true.
  - rewrite <- (map_id (zones db)) at 2. apply map_ext_in. intros row Hrow.
    destruct (zone_is z (Some (zone_name row))) eqn:Z; [|reflexivity].
    apply zone_is_Some in Z. destruct (Hall row Hrow Z) as (H1 & H2 & H3).
    rewrite Z in H1, H2, H3. destruct row; cbn in *. congruence.
  - symmetry. apply existsb_exists. exists row0. split; [exact Hin|].
    now apply zone_is_Some.
Qed.

Lemma insert_zones_noop (iteration : list string) (df : CleanedFrame)
    (db : database) :
  (forall z, In z iteration -> zone_written df z (zones db)) ->
  zones (insert_zones iteration df db) = zones db.
Proof.
  unfold insert_zones. revert db.
  induction iteration as [|z l IH]; intros db H; simpl; [reflexivity|].
  assert (E : zones (execute_upsert_zone z (avg_lat df z) (avg_lon df z)
                       (List.length (zone_trips df z)) db) = zones db)
    by (apply upsert_zone_noop, H; simpl; auto).
  rewrite IH; [exact E|]. intros z' Hz'. rewrite E. apply H. simpl. auto.
Qed.

End Store.

Section Loader.

(** *** Vendors *)

Lemma insert_vendor_keeps (v v' : Z) (name : string) (db : database) :
  vendor_present v db -> vendor_present v (execute_insert_vendor v' name db).
Proof.
  unfold vendor_present, execute_insert_vendor.
  destruct (existsb (fun row => (vendors_vendor_id row =? v')%Z) (vendors db))
    eqn:E; cbn [vendors]; [auto|].
  intros H. rewrite existsb_app, H. reflexivity.
Qed.

Lemma insert_vendor_present (v : Z) (name : string) (db : database) :
  vendor_present v (execute_insert_vendor v name db).
Proof.
  unfold vendor_present, execute_insert_vendor.
  destruct (existsb _ (vendors db)) eqn:E; cbn [vendors]; [exact E|].
  rewrite existsb_app. cbn. rewrite Z.eqb_refl. apply orb_true_r.
Qed.

Lemma insert_vendor_noop (v : Z) (name : string) (db : database) :
  vendor_present v db -> vendors (execute_insert_vendor v name db) = vendors db.
Proof.
  unfold vendor_present, execute_insert_vendor. intros ->. reflexivity.
Qed.

Lemma insert_vendor_zones (v : Z) (name : string) (db : database) :
  zones (execute_insert_vendor v name db) = zones db.
Proof. unfold execute_insert_vendor. now destruct (existsb _ _). Qed.

Lemma insert_vendor_trips (v : Z) (name : string) (db : database) :
  trips (execute_insert_vendor v name db) = trips db.
Proof. unfold execute_insert_vendor. now destruct (existsb _ _). Qed.

Lemma fold_vendors_present (name : Z -> string) (l : list Z) (v : Z)
    (db : database) :
  vendor_present v db \/ In v l ->
  vendor_present v
    (fold_left (fun db v => execute_insert_vendor v (name v) db) l db).
Proof.
  apply (@fold_left_reaches Z database _ vendor_present).
  - intros a b s. apply insert_vendor_keeps.
  - intros a s. apply insert_vendor_present.
Qed.

Lemma fold_vendors_noop (name : Z -> string) (l : list Z) (db : database) :
  (forall v, In v l -> vendor_present v db) ->
  vendors (fold_left (fun db v => execute_insert_vendor v (name v) db) l db)
  = vendors db.
Proof.
  revert db. induction l as [|v l IH]; intros db H; simpl; [reflexivity|].
  rewrite IH.
  - apply insert_vendor_noop, H. simpl. auto.
  - intros v' Hv'. apply insert_vendor_keeps, H. simpl. auto.
Qed.

Lemma insert_vendor_rows_zones (float_column : bool) (df : CleanedFrame)
    (db : database) :
  zones (insert_vendor_rows float_column df db) = zones db.
Proof.
  unfold insert_vendor_rows. apply fold_left_preserves.
  intros; apply insert_vendor_zones.
Qed.

Lemma insert_vendor_rows_trips (float_column : bool) (df : CleanedFrame)
    (db : database) :
  trips (insert_vendor_rows float_column df db) = trips db.
Proof.
  unfold insert_vendor_rows. apply fold_left_preserves.
  intros; apply insert_vendor_trips.
Qed.

Lemma insert_zones_vendors (iteration : list string) (df : CleanedFrame)
    (db : database) :
  vendors (insert_zones iteration df db) = vendors db.
Proof. unfold insert_zones. now apply fold_left_preserves. Qed.

Lemma insert_zones_trips (iteration : list string) (df : CleanedFrame)
    (db : database) :
  trips (insert_zones iteration df db) = trips db.
Proof. unfold insert_zones. now apply fold_left_preserves. Qed.

(** *** Trips *)

Lemma insert_trip_keeps (i : string) (row : trips_row) (db : database) :
  trip_present i db -> trip_present i (execute_insert_trip row db).
Proof.
  unfold trip_present, execute_insert_trip.
  destruct (existsb (fun t => if string_dec (trips_id t) (trips_id row)
                              then true else false) (trips db))
    eqn:E; cbn [trips]; [auto|].
  intros H. rewrite existsb_app, H. reflexivity.
Qed.

Lemma insert_trip_present (row : trips_row) (db : database) :
  trip_present (trips_id row) (execute_insert_trip row db).
Proof.
  unfold trip_present, execute_insert_trip.
  destruct (existsb _ (trips db)) eqn:E; cbn [trips]; [exact E|].
  rewrite existsb_app. cbn.
  destruct (string_dec (trips_id row) (trips_id row)); [|congruence].
  apply orb_true_r.
Qed.

Lemma insert_trip_noop (row : trips_row) (db : database) :
  trip_present (trips_id row) db -> execute_insert_trip row db = db.
Proof. unfold trip_present, execute_insert_trip. intros ->. reflexivity. Qed.

Lemma insert_trip_vendors (row : trips_row) (db : database) :
  vendors (execute_insert_trip row db) = vendors db.
Proof. unfold execute_insert_trip. now destruct (existsb _ _). Qed.

Lemma insert_trip_zones (row : trips_row) (db : database) :
  zones (execute_insert_trip row db) = zones db.
Proof. unfold execute_insert_trip. now destruct (existsb _ _). Qed.

Lemma insert_trip_rows_vendors (df : CleanedFrame) (db : database) :
  vendors (insert_trip_rows df db) = vendors db.
Proof.
  unfold insert_trip_rows. apply fold_left_preserves. intros; apply insert_trip_vendors.
Qed.

Lemma insert_trip_rows_zones (df : CleanedFrame) (db : database) :
  zones (insert_trip_rows df db) = zones db.
Proof.
  unfold insert_trip_rows. apply fold_left_preserves. intros; apply insert_trip_zones.
Qed.

Lemma insert_trip_rows_present (df : CleanedFrame) (db : database) (r : cleaned_trip) :
  trip_present (id (raw r)) db \/ In r df ->
  trip_present (id (raw r)) (insert_trip_rows df db).
Proof.
  unfold insert_trip_rows.
  apply (@fold_left_reaches cleaned_trip database _
           (fun r db => trip_present (id (raw r)) db)).
  - intros a b s. apply insert_trip_keeps.
  - intros a s.
    exact (insert_trip_present (trips_row_of a (select_zone_id s (pickup_zone a))
                                  (select_zone_id s (dropoff_zone a))) s).
Qed.

Lemma insert_trip_rows_noop (df : CleanedFrame) (db : database) :
  (forall r, In r df -> trip_present (id (raw r)) db) ->
  insert_trip_rows df db = db.
Proof.
  unfold insert_trip_rows. revert db.
  induction df as [|r df IH]; intros db H; simpl; [reflexivity|].
  rewrite insert_trip_noop by (apply H; simpl; auto).
  apply IH. intros r' Hr'. apply H. simpl. auto.
Qed.

Lemma In_unique (A : Type) (eq_dec : forall a b : A, {a = b} + {a <> b})
    (seen l : list A) (a : A) :
  In a (unique eq_dec seen l) <-> In a l /\ ~ In a seen.
Proof.
  revert seen; induction l as [|b l IH]; intros seen; simpl; [tauto|].
  destruct (in_dec eq_dec b seen) as [Hb|Hb]; simpl; rewrite IH; simpl.
  - split; [tauto|]. intros [[->|H] Hs]; tauto.
  - split.
    + intros [->|[H Hs]]; [tauto|]. split; [tauto|]. intros Hn. apply Hs. auto.
    + intros [[->|H] Hs]; [tauto|].
      destruct (eq_dec b a) as [->|Hne]; [tauto|]. right. split; [exact H|].
      intros [E|Hn]; [exact (Hne E)|exact (Hs Hn)].
Qed.

Lemma In_dropna_cells (A : Type) (l : list (option A)) (a : A) :
  In a (dropna_cells l) <-> In (Some a) l.
Proof.
  induction l as [|[b|] l IH]; simpl; [tauto| |].
  - rewrite IH. split; intros [H|H]; auto; left; congruence.
  - rewrite IH. split; [auto|]. intros [H|H]; [discriminate|exact H].
Qed.

(** The set [all_zones] holds the labels that some trip of the batch carries
    as pickup or as dropoff zone. *)
Lemma all_zones_spec (df : CleanedFrame) (z : string) :
  In z (all_zones df) <->
  exists r, In r df /\ (pickup_zone r = Some z \/ dropoff_zone r = Some z).
Proof.
  unfold all_zones. rewrite In_unique, in_app_iff, !In_dropna_cells, !in_map_iff.
  simpl. split.
  - intros [[(r & E & H)|(r & E & H)] _]; exists r; auto.
  - intros (r & H & [E|E]); (split; [|tauto]); [left|right]; exists r; auto.
Qed.

(** *** The representative coordinates of a zone *)

(** C3, amended: after [insert_zones] has loaded a batch, the row of every
    zone of the batch holds, as latitude and as longitude, the mean over both
    end points (pickup and dropoff) of every trip of the batch that refers to
    the zone by its pickup or by its dropoff label, and as count the number
    of those trips.  [iteration] is the order in which Python walks the set
    of zone labels. *)
Theorem zone_row_is_mean_over_referencing_trips (iteration : list string)
    (df : CleanedFrame) (db : database) (z : string) :
  Permutation iteration (all_zones df) ->
  In z (all_zones df) ->
  let referencing :=
    filter (fun r => zone_is z (pickup_zone r) || zone_is z (dropoff_zone r)) df in
  (exists row,
      In row (zones (insert_zones iteration df db)) /\ zone_name row = z)
  /\ forall row,
      In row (zones (insert_zones iteration df db)) ->
      zone_name row = z ->
      latitude row
      = mean (flat_map (fun r => [pickup_latitude (raw r);
                                  dropoff_latitude (raw r)]) referencing)
      /\ longitude row
         = mean (flat_map (fun r => [pickup_longitude (raw r);
                                     dropoff_longitude (raw r)]) referencing)
      /\ trip_count row = List.length referencing.
Proof.
  intros Hperm Hz referencing.
  assert (Hin : In z iteration)
    by (eapply Permutation_in; [apply Permutation_sym, Hperm|exact Hz]).
  destruct (@insert_zones_written iteration df db z (or_intror Hin)) as (Hex & Hall).
  split; [exact Hex|].
  intros row Hrow Hname. destruct (Hall row Hrow Hname) as (H1 & H2 & H3).
  rewrite Hname in H1, H2, H3. auto.
Qed.

Lemma all_zones_a_b :
  all_zones [cleaned_a; cleaned_b]
  = ["Zone_0_0"; "Zone_19_19"; "Zone_19_0"; "Zone_0_19"]%string.
Proof. reflexivity. Qed.

Lemma zone_row_is_mean_over_referencing_trips_witness :
  exists row,
    In row (zones (insert_zones (all_zones [cleaned_a; cleaned_b])
                     [cleaned_a; cleaned_b] empty_database))
    /\ zone_name row = "Zone_0_0"%string.
Proof.
  apply (@zone_row_is_mean_over_referencing_trips
           (all_zones [cleaned_a; cleaned_b]) [cleaned_a; cleaned_b]
           empty_database "Zone_0_0"%string (Permutation_refl _)).
  rewrite all_zones_a_b. simpl. auto.
Defined.

(** C3 fails as worded.  The batch [cleaned_a; cleaned_b] is the cleaned
    output of the two trips; zone "Zone_0_0" is the pickup zone of the first
    trip and of no other end point.  The latitude written for it is the mean
    of 40.70 and 40.80, pickup and dropoff of that trip, and not 40.70, the
    mean of the one coordinate labelled "Zone_0_0". *)
Lemma zone_mean_includes_other_end_points :
  clean_pipeline [trip_a; trip_b] [] = (Some [cleaned_a; cleaned_b], [])
  /\ ~ zone_mean_of_own_coordinates (all_zones [cleaned_a; cleaned_b])
         [cleaned_a; cleaned_b] empty_database.
Proof.
  split; [apply clean_pipeline_a_b|]. intros H.
  set (df := [cleaned_a; cleaned_b]) in *.
  assert (Hz : In "Zone_0_0"%string (all_zones df)) by (simpl; auto).
  destruct (@insert_zones_written (all_zones df) df empty_database
              "Zone_0_0"%string (or_intror Hz))
    as ((row & Hrow & Hname) & Hall).
  destruct (Hall row Hrow Hname) as (Hcode & _).
  destruct (H _ row Hz Hrow Hname) as (Hclaim & _).
  rewrite Hcode, Hname in Hclaim. revert Hclaim.
  change (avg_lat df "Zone_0_0") with (mean [Fin 40.70; Fin 40.80]).
  change (own_latitudes df "Zone_0_0") with [Fin 40.70].
  unfold mean, sum. cbn [fold_left add List.length Z.of_nat Pos.of_succ_nat Pos.succ div].
  rewrite (@Reqb_false 2 0), (@Reqb_false 1 0) by lra.
  intros E. injection E as E. lra.
Qed.

End Loader.

(** ** The outcome of a load *)

Section Outcome.

Lemma rollback_same (db : database) : rollback db db = db.
Proof. now destruct db. Qed.

Lemma insert_vendor_seqs (v : Z) (name : string) (db : database) :
  vendors_id_seq (execute_insert_vendor v name db) = S (vendors_id_seq db)
  /\ zones_id_seq (execute_insert_vendor v name db) = zones_id_seq db.
Proof. unfold execute_insert_vendor. destruct (existsb _ _); auto. Qed.

Lemma execute_vendors_returned (float_column : bool) (l : list Z)
    (db db' : database) :
  execute_vendors float_column l db = (returned, db') ->
  db' = fold_left (fun db v =>
                     execute_insert_vendor v (vendor_name float_column v) db)
                  l db.
Proof.
  revert db; induction l as [|v l IH]; intros db; cbn [execute_vendors fold_left].
  - intros H. now injection H as <-.
  - destruct (negb float_column || int4_rejects v); [discriminate|]. apply IH.
Qed.

Lemma execute_vendors_outcome (float_column : bool) (l : list Z) (db : database) :
  fst (execute_vendors float_column l db)
  = if forallb (fun v => float_column && negb (int4_rejects v)) l
    then returned else raised.
Proof.
  revert db; induction l as [|v l IH]; intros db;
    cbn [execute_vendors forallb]; [reflexivity|].
  destruct float_column, (int4_rejects v); cbn [negb orb andb]; auto.
Qed.

Lemma execute_vendors_seqs (float_column : bool) (l : list Z) (db : database) :
  zones_id_seq (snd (execute_vendors float_column l db)) = zones_id_seq db
  /\ (vendors_id_seq db
      <= vendors_id_seq (snd (execute_vendors float_column l db)))%nat.
Proof.
  revert db; induction l as [|v l IH]; intros db; cbn [execute_vendors];
    [auto|].
  destruct (negb float_column || int4_rejects v); [auto|].
  destruct (IH (execute_insert_vendor v (vendor_name float_column v) db))
    as [H1 H2].
  destruct (insert_vendor_seqs v (vendor_name float_column v) db) as [E1 E2].
  rewrite H1, E2. split; [reflexivity|lia].
Qed.

Lemma insert_vendor_rows_zones_id_seq (float_column : bool)
    (df : CleanedFrame) (db : database) :
  zones_id_seq (insert_vendor_rows float_column df db) = zones_id_seq db.
Proof.
  unfold insert_vendor_rows. apply fold_left_preserves.
  intros; apply insert_vendor_seqs.
Qed.

Lemma insert_vendors_returned (float_column : bool) (df : CleanedFrame)
    (db db' : database) :
  insert_vendors float_column df db = (returned, db') ->
  db' = insert_vendor_rows float_column df db.
Proof.
  unfold insert_vendors, insert_vendor_rows.
  destruct (execute_vendors _ _ db) as [[|] d] eqn:E; [|discriminate].
  intros H. injection H as <-. now apply execute_vendors_returned.
Qed.

Lemma insert_vendors_raised (float_column : bool) (df : CleanedFrame)
    (db db' : database) :
  insert_vendors float_column df db = (raised, db') ->
  vendors db' = vendors db /\ zones db' = zones db /\ trips db' = trips db
  /\ zones_id_seq db' = zones_id_seq db
  /\ (vendors_id_seq db <= vendors_id_seq db')%nat.
Proof.
  unfold insert_vendors.
  pose proof (execute_vendors_seqs float_column
                (unique Z.eq_dec [] (dropna_cells (map (fun r => vendor_id (raw r)) df)))
                db) as [H1 H2].
  destruct (execute_vendors _ _ db) as [[|] d]; [discriminate|].
  intros H. injection H as <-. cbn [snd] in *. cbn. auto.
Qed.

Lemma insert_vendors_outcome (float_column : bool) (df : CleanedFrame)
    (db : database) :
  fst (insert_vendors float_column df db)
  = if forallb (fun v => float_column && negb (int4_rejects v))
               (unique Z.eq_dec []
                  (dropna_cells (map (fun r => vendor_id (raw r)) df)))
    then returned else raised.
Proof.
  rewrite <- (execute_vendors_outcome float_column _ db).
  unfold insert_vendors. now destruct (execute_vendors _ _ db) as [[|] d].
Qed.

(** Sent from an int64 column, the first vendor id makes the call raise
    before a statement is sent. *)
Lemma insert_vendors_int64 (df : CleanedFrame) (db : database) :
  unique Z.eq_dec [] (dropna_cells (map (fun r => vendor_id (raw r)) df)) <> [] ->
  insert_vendors false df db = (raised, db).
Proof.
  unfold insert_vendors. destruct (unique _ _ _) as [|v l]; [congruence|].
  intros _. cbn. now rewrite rollback_same.
Qed.

Lemma insert_zones_seqs (iteration : list string) (df : CleanedFrame)
    (db : database) :
  vendors_id_seq (insert_zones iteration df db) = vendors_id_seq db
  /\ (zones_id_seq db <= zones_id_seq (insert_zones iteration df db))%nat.
Proof.
  unfold insert_zones. revert db.
  induction iteration as [|z l IH]; intros db; cbn [fold_left]; [auto|].
  destruct (IH (execute_upsert_zone z (avg_lat df z) (avg_lon df z)
                  (List.length (zone_trips df z)) db)) as [H1 H2].
  rewrite H1. cbn [execute_upsert_zone vendors_id_seq zones_id_seq] in *.
  split; [reflexivity|lia].
Qed.

Lemma try_insert_zones_returned (iteration : list string) (df : CleanedFrame)
    (db db' : database) :
  try_insert_zones iteration df db = (returned, db') ->
  db' = insert_zones iteration df db
  /\ existsb (zone_rejected df) iteration = false.
Proof.
  unfold try_insert_zones. destruct (existsb _ _); [discriminate|].
  intros H. injection H as <-. auto.
Qed.

Lemma try_insert_zones_raised (iteration : list string) (df : CleanedFrame)
    (db db' : database) :
  try_insert_zones iteration df db = (raised, db') ->
  vendors db' = vendors db /\ zones db' = zones db /\ trips db' = trips db
  /\ vendors_id_seq db' = vendors_id_seq db
  /\ (zones_id_seq db <= zones_id_seq db')%nat.
Proof.
  unfold try_insert_zones. destruct (existsb _ _); [|discriminate].
  intros H. injection H as <-.
  destruct (insert_zones_seqs (firstn_until (zone_rejected df) iteration) df db)
    as [H1 H2].
  cbn [rollback vendors zones trips vendors_id_seq zones_id_seq]. auto.
Qed.

Lemma insert_trip_rows_app (a b : CleanedFrame) (db : database) :
  insert_trip_rows (a ++ b) db = insert_trip_rows b (insert_trip_rows a db).
Proof. unfold insert_trip_rows. apply fold_left_app. Qed.

Lemma existsb_concat (A : Type) (f : A -> bool) (ls : list (list A)) :
  existsb (existsb f) ls = existsb f (List.concat ls).
Proof.
  induction ls as [|l ls IH]; cbn [existsb List.concat]; [reflexivity|].
  now rewrite existsb_app, IH.
Qed.

Lemma insert_slices_spec (batches : list CleanedFrame) (db : database) :
  insert_slices batches db
  = (if existsb (existsb rejected) batches then raised else returned,
     insert_trip_rows
       (List.concat (firstn_until (existsb rejected) batches)) db).
Proof.
  revert db; induction batches as [|b bs IH]; intros db;
    cbn [insert_slices existsb firstn_until List.concat]; [reflexivity|].
  destruct (existsb rejected b); cbn [orb List.concat]; [reflexivity|].
  now rewrite IH, insert_trip_rows_app.
Qed.

Lemma concat_slices (A : Type) (batch_size fuel : nat) (l : list A) :
  (0 < batch_size)%nat -> (List.length l <= fuel)%nat ->
  List.concat (slices fuel batch_size l) = l.
Proof.
  intros Hn. revert l; induction fuel as [|fuel IH]; intros l Hl.
  - destruct l; [reflexivity|simpl in Hl; lia].
  - destruct l as [|a l]; [reflexivity|].
    cbn [slices List.concat]. rewrite IH; [apply firstn_skipn|].
    rewrite length_skipn. cbn [List.length] in Hl |- *. lia.
Qed.

Lemma firstn_until_prefix (A : Type) (f : list A -> bool) (ls : list (list A)) :
  prefix (List.concat (firstn_until f ls)) (List.concat ls).
Proof.
  induction ls as [|l ls [rest IH]]; cbn [firstn_until List.concat].
  - now exists [].
  - destruct (f l); cbn [List.concat].
    + now exists (l ++ List.concat ls).
    + exists rest. now rewrite IH at 1; rewrite app_assoc.
Qed.

Lemma firstn_until_all (A : Type) (f : A -> bool) (l : list A) :
  existsb f l = false -> firstn_until f l = l.
Proof.
  induction l as [|a l IH]; cbn [existsb firstn_until]; [reflexivity|].
  destruct (f a); [discriminate|]. cbn [orb]. intros H. now rewrite IH.
Qed.

Lemma committed_rows_prefix (df : CleanedFrame) : prefix (committed_rows df) df.
Proof.
  unfold committed_rows.
  pose proof (firstn_until_prefix (existsb rejected)
                (slices (List.length df) 100 df)) as H.
  rewrite concat_slices in H by lia. exact H.
Qed.

Lemma committed_rows_all (df : CleanedFrame) :
  existsb rejected df = false -> committed_rows df = df.
Proof.
  intros H. unfold committed_rows. rewrite firstn_until_all.
  - apply concat_slices; lia.
  - rewrite existsb_concat, concat_slices by lia. exact H.
Qed.

Lemma insert_trips_spec (df : CleanedFrame) (db : database) :
  insert_trips df db
  = (if existsb rejected df then raised else returned,
     insert_trip_rows (committed_rows df) db).
Proof.
  unfold insert_trips. rewrite insert_slices_spec.
  now rewrite existsb_concat, concat_slices by lia.
Qed.

(** Where [save_to_database] can leave the store: as it was when
    [insert_vendors] raises, with the vendors when [insert_zones] raises,
    and else with the vendors, the zones and the trips of the slices
    committed. *)
Lemma save_to_database_cases (float_column : bool) (iteration : list string)
    (df : CleanedFrame) (db : database) (result : outcome) (db' : database) :
  save_to_database float_column iteration df db = (result, db') ->
  (result = raised
   /\ vendors db' = vendors db /\ zones db' = zones db /\ trips db' = trips db
   /\ (vendors_id_seq db <= vendors_id_seq db')%nat
   /\ zones_id_seq db' = zones_id_seq db)
  \/ (result = raised
      /\ vendors db' = vendors (insert_vendor_rows float_column df db)
      /\ zones db' = zones db /\ trips db' = trips db
      /\ vendors_id_seq db'
         = vendors_id_seq (insert_vendor_rows float_column df db)
      /\ (zones_id_seq db <= zones_id_seq db')%nat)
  \/ (result = (if existsb rejected df then raised else returned)
      /\ db' = insert_trip_rows (committed_rows df)
                 (insert_zones iteration df
                    (insert_vendor_rows float_column df db))).
Proof.
  unfold save_to_database.
  destruct (insert_vendors float_column df db) as [[|] dv] eqn:Ev.
  - apply insert_vendors_returned in Ev. subst dv.
    destruct (try_insert_zones iteration df _) as [[|] dz] eqn:Ez.
    + apply try_insert_zones_returned in Ez. destruct Ez as [-> _].
      rewrite insert_trips_spec. intros H. injection H as <- <-. auto.
    + apply try_insert_zones_raised in Ez.
      destruct Ez as (Z1 & Z2 & Z3 & Z4 & Z5).
      intros H. injection H as <- <-. right; left.
      rewrite insert_vendor_rows_zones_id_seq in Z5.
      rewrite Z1, Z2, Z3, Z4, insert_vendor_rows_zones, insert_vendor_rows_trips.
      repeat split; auto.
  - apply insert_vendors_raised in Ev. intros H. injection H as <- <-.
    left. tauto.
Qed.

Lemma save_to_database_outcome (float_column : bool) (iteration : list string)
    (df : CleanedFrame) (db : database) :
  fst (save_to_database float_column iteration df db)
  = if load_accepted float_column iteration df then returned else raised.
Proof.
  unfold save_to_database, load_accepted.
  pose proof (insert_vendors_outcome float_column df db) as Hv.
  destruct (insert_vendors float_column df db) as [[|] dv]; cbn [fst] in Hv;
    destruct (forallb _ _); try discriminate; cbn [andb]; [|reflexivity].
  unfold try_insert_zones.
  destruct (existsb (zone_rejected df) iteration); cbn [negb andb fst];
    [reflexivity|].
  rewrite insert_trips_spec. cbn [fst]. now destruct (existsb rejected df).
Qed.

Lemma save_to_database_returned (float_column : bool) (iteration : list string)
    (df : CleanedFrame) (db db' : database) :
  save_to_database float_column iteration df db = (returned, db') ->
  db' = load_rows float_column iteration df db
  /\ load_accepted float_column iteration df = true.
Proof.
  intros E.
  pose proof (save_to_database_outcome float_column iteration df db) as Ho.
  rewrite E in Ho. cbn [fst] in Ho.
  destruct (load_accepted float_column iteration df) eqn:A; [|discriminate].
  split; [|reflexivity].
  unfold load_accepted in A. rewrite !andb_true_iff, !negb_true_iff in A.
  destruct A as [_ Hr].
  destruct (save_to_database_cases _ _ _ _ E)
    as [(H & _)|[(H & _)|(_ & ->)]]; try discriminate.
  unfold load_rows. now rewrite committed_rows_all.
Qed.

Lemma save_to_database_accepted (float_column : bool) (iteration : list string)
    (df : CleanedFrame) (db : database) :
  load_accepted float_column iteration df = true ->
  save_to_database float_column iteration df db
  = (returned, load_rows float_column iteration df db).
Proof.
  intros A.
  pose proof (save_to_database_outcome float_column iteration df db) as Ho.
  rewrite A in Ho.
  destruct (save_to_database float_column iteration df db) as [o d] eqn:E.
  cbn [fst] in Ho. subst o. now apply save_to_database_returned in E as [-> _].
Qed.

(** C5, on the frame the cleaning run makes of a [train.csv] of two trips.
    The vendor cells of the file are integers, so the vendor column of the
    frame is int64, and [save_to_database] raises in [insert_vendors], at
    the first vendor id, whatever the store holds: no trip of the batch is
    loaded, by a first run or by a second one, and the row of a zone of the
    batch is not overwritten with the values of the batch. *)
Theorem save_to_database_raises_on_integer_vendors (iteration : list string)
    (db : database) :
  load_data default_max_records world_raw = Some (false, [trip_a; trip_b])
  /\ clean_pipeline [trip_a; trip_b] [] = (Some [cleaned_a; cleaned_b], [])
  /\ save_to_database false iteration [cleaned_a; cleaned_b] db = (raised, db)
  /\ In "Zone_0_0"%string (all_zones [cleaned_a; cleaned_b])
  /\ ~ zone_written [cleaned_a; cleaned_b] "Zone_0_0"
        (zones (snd (save_to_database false iteration [cleaned_a; cleaned_b]
                       database_b))).
Proof.
  assert (H : forall d,
             save_to_database false iteration [cleaned_a; cleaned_b] d
             = (raised, d)).
  { intros d. unfold save_to_database.
    now rewrite insert_vendors_int64 by discriminate. }
  split; [reflexivity|]. split; [apply clean_pipeline_a_b|].
  split; [apply H|]. split; [left; reflexivity|].
  rewrite H. cbn [snd]. intros [_ Hrows].
  specialize (Hrows _ (or_introl eq_refl) eq_refl).
  destruct Hrows as (_ & _ & Hcount). discriminate Hcount.
Qed.

End Outcome.

(** * Further properties of the cleaning run *)

Section CleaningAgain.

Lemma drop_duplicates_seen_fixed (seen : list string) (l : DataFrame) :
  NoDup (map id l) -> (forall r, In r l -> ~ In (id r) seen) ->
  drop_duplicates_seen seen l = l.
Proof.
  revert seen; induction l as [|r l IH]; intros seen Hnd Hfresh; simpl;
    [reflexivity|].
  inversion Hnd as [|? ? Hr Hnd']; subst.
  destruct (in_dec string_dec (id r) seen) as [Hin|_].
  - exfalso. apply (Hfresh r); simpl; auto.
  - f_equal. apply IH; [exact Hnd'|].
    intros r' Hr' [E|Hs].
    + apply Hr. rewrite E. now apply in_map.
    + apply (Hfresh r'); simpl; auto.
Qed.








End CleaningAgain.

(** ** [clean_data] on text and on datetimes *)

Section Text.

Variable to_datetime : list (option string) -> option (list (option Z)).

(** [pd.to_datetime] returns one entry for each entry of the column, and a
    datetime for each text it reads. *)
Hypothesis to_datetime_entries :
  forall column stamps,
    to_datetime column = Some stamps ->
    Forall2 (fun (c : option string) (t : option Z) => c <> None -> t <> None)
            column stamps.

Lemma csv_drop_duplicates_seen_fresh (seen : list string) (df : list csv_trip)
    (r : csv_trip) :
  In r (csv_drop_duplicates_seen seen df) -> ~ In (csv_id r) seen.
Proof.
  revert seen; induction df as [|x df IH]; intros seen; simpl; [tauto|].
  destruct (in_dec string_dec (csv_id x) seen) as [Hx|Hx].
  - apply IH.
  - intros [<-|Hr]; [exact Hx|].
    intros Hs. apply (IH _ Hr). simpl. auto.
Qed.

Lemma csv_drop_duplicates_seen_NoDup (seen : list string) (df : list csv_trip) :
  NoDup (map csv_id (csv_drop_duplicates_seen seen df)).
Proof.
  revert seen; induction df as [|x df IH]; intros seen; simpl; [constructor|].
  destruct (in_dec string_dec (csv_id x) seen) as [Hx|Hx]; [apply IH|].
  simpl. constructor; [|apply IH].
  intros Hin. apply in_map_iff in Hin. destruct Hin as (r & E & Hr).
  apply csv_drop_duplicates_seen_fresh in Hr. apply Hr. simpl. auto.
Qed.

Lemma Forall2_map_l (A B C : Type) (f : A -> B) (P : B -> C -> Prop)
    (l : list A) (l' : list C) :
  Forall2 P (map f l) l' -> Forall2 (fun a c => P (f a) c) l l'.
Proof.
  revert l'; induction l as [|a l IH]; intros l' H; inversion H; subst;
    constructor; auto.
Qed.

(** The frame with its timestamps read: no cell of its six required columns
    is missing. *)
Lemma read_frame_complete (read : list csv_trip)
    (pickups dropoffs : list (option Z)) :
  Forall (fun r => csv_has_na r = false) read ->
  Forall2 (fun r t => csv_pickup_datetime r <> None -> t <> None) read pickups ->
  Forall2 (fun r t => csv_dropoff_datetime r <> None -> t <> None) read dropoffs ->
  map fst (combine read (combine pickups dropoffs)) = read
  /\ Forall (fun t => has_na t = false)
            (map (fun rs => with_timestamps (fst rs) (snd rs))
                 (combine read (combine pickups dropoffs))).
Proof.
  intros Hna Hp. revert dropoffs.
  induction Hp as [|r p read pickups Hr Hp IH]; intros dropoffs Hd;
    inversion Hd as [|r' d read' dropoffs' Hrd Hd']; subst; simpl.
  - split; constructor.
  - apply Forall_cons_iff in Hna. destruct Hna as [Hr0 Hna].
    destruct (IH Hna _ Hd') as [E F]. split; [now rewrite E|].
    constructor; [|exact F].
    unfold csv_has_na in Hr0. rewrite !orb_false_iff in Hr0.
    destruct Hr0 as (((((T1 & T2) & C1) & C2) & C3) & C4).
    unfold has_na, with_timestamps, isna_dt; cbn.
    rewrite C1, C2, C3, C4.
    destruct (csv_pickup_datetime r); [|discriminate].
    destruct (csv_dropoff_datetime r); [|discriminate].
    destruct p; [|exfalso; now apply Hr].
    destruct d; [|exfalso; now apply Hrd].
    reflexivity.
Qed.

(** [clean_data] on the frame [load_data] returns is [clean_data] above on
    that frame with its timestamps read: the rows left by [drop_duplicates]
    and [dropna], each with the datetimes [pd.to_datetime] returned for its
    two texts. *)
Lemma clean_data_text_clean_data (df : list csv_trip)
    (excluded_records ledger' : ledger) (out : DataFrame) :
  clean_data_text to_datetime df excluded_records = Some (out, ledger') ->
  exists frame,
    Forall2 same_other_cells
      (filter (fun r => negb (csv_has_na r)) (csv_drop_duplicates_seen [] df))
      frame
    /\ clean_data frame excluded_records = (out, ledger').
Proof.
  unfold clean_data_text. cbv zeta.
  set (read := filter (fun r => negb (csv_has_na r))
                      (csv_drop_duplicates_seen [] df)).
  destruct (to_datetime (map csv_pickup_datetime read)) as [p|] eqn:Ep;
    [|discriminate].
  destruct (to_datetime (map csv_dropoff_datetime read)) as [d|] eqn:Ed;
    [|discriminate].
  intros H.
  apply to_datetime_entries, Forall2_map_l in Ep, Ed.
  assert (Hna : Forall (fun r => csv_has_na r = false) read).
  { apply Forall_forall. intros r Hr. unfold read in Hr.
    apply filter_In in Hr. now apply negb_true_iff. }
  destruct (read_frame_complete Hna Ep Ed) as [Efst Hfull].
  set (frame := map (fun rs => with_timestamps (fst rs) (snd rs))
                    (combine read (combine p d))) in *.
  assert (Hids : map id frame = map csv_id read).
  { transitivity (map csv_id (map fst (combine read (combine p d))));
      [|now rewrite Efst].
    unfold frame. rewrite !map_map. reflexivity. }
  exists frame. split.
  - assert (Hl : forall l : list (csv_trip * (option Z * option Z)),
               Forall2 same_other_cells (map fst l)
                 (map (fun rs => with_timestamps (fst rs) (snd rs)) l)).
    { induction l as [|rs l IH]; simpl; constructor; auto.
      apply with_timestamps_same_other_cells. }
    specialize (Hl (combine read (combine p d))). now rewrite Efst in Hl.
  - unfold clean_data. cbv zeta.
    assert (E1 : drop_duplicates frame = frame).
    { apply drop_duplicates_seen_fixed; [|intros r _ []].
      rewrite Hids. unfold read.
      eapply subsequence_NoDup;
        [apply subsequence_map, subsequence_filter
        |apply csv_drop_duplicates_seen_NoDup]. }
    assert (E2 : dropna frame = frame).
    { unfold dropna. now apply filter_mask_false. }
    rewrite E1, E2. congruence.
Qed.

End Text.

(** ** Finite cells *)

Section FiniteCells.

Local Open Scope R_scope.

Lemma map_value (l : list float64) :
  Forall (fun x => isfinite x = true) l -> l = map Fin (map value l).
Proof.
  induction 1 as [|x l Hx _ IH]; simpl; [reflexivity|].
  destruct x; try discriminate. simpl. now rewrite <- IH.
Qed.

End FiniteCells.

(** ** When the cleaning run returns a frame *)

Section Survivors.

Local Open Scope R_scope.

Lemma between_isfinite (lo hi : R) (x : float64) :
  between (Fin lo) (Fin hi) x = true -> isfinite x = true.
Proof. intros H. apply between_Fin in H. destruct H as (v & -> & _). reflexivity. Qed.

(** The coordinates of a row [clean_data] returns are numbers. *)
Lemma clean_data_isfinite (df : DataFrame) (excluded_records : ledger) (r : trip) :
  In r (fst (clean_data df excluded_records)) ->
  isfinite (pickup_latitude r) = true /\ isfinite (pickup_longitude r) = true
  /\ isfinite (dropoff_latitude r) = true /\ isfinite (dropoff_longitude r) = true.
Proof.
  intros Hr. apply clean_data_In in Hr. destruct Hr as (Hna & _ & Hco & _).
  destruct (@invalid_coords_false _ Hna Hco) as (C1 & C2 & C3 & C4).
  unfold lat_min, lat_max, lon_min, lon_max in *.
  repeat split; eapply between_isfinite; eassumption.
Qed.

Lemma filter_nil_Forall (A : Type) (f : A -> bool) (l : list A) :
  filter (fun a => negb (f a)) l = [] <-> Forall (fun a => f a = true) l.
Proof.
  induction l as [|a l IH]; simpl.
  - split; auto.
  - destruct (f a) eqn:E; simpl.
    + rewrite IH. split; [auto|]. intros H. now inversion H.
    + split; [discriminate|]. intros H. inversion H. congruence.
Qed.

Lemma survivors_isfinite (df : DataFrame) (excluded_records : ledger) (r : trip) :
  In r (filter (fun r => negb (invalid_speed r))
               (fst (clean_data df excluded_records))) ->
  isfinite (pickup_latitude r) = true /\ isfinite (pickup_longitude r) = true
  /\ isfinite (dropoff_latitude r) = true /\ isfinite (dropoff_longitude r) = true.
Proof.
  intros Hr. apply filter_In in Hr. eapply clean_data_isfinite, Hr.
Qed.

(** X3: on a frame none of whose rows passes every check, the cleaning run
    raises ([pd.cut], in [create_zones], raises on an empty column); and a
    frame the cleaning run returns is never empty. *)
Theorem clean_pipeline_raises_without_survivor (df : DataFrame)
    (excluded_records : ledger) :
  (Forall (fun r => invalid_speed r = true)
          (fst (clean_data df excluded_records)) ->
   fst (clean_pipeline df excluded_records) = None)
  /\ fst (clean_pipeline df excluded_records) <> Some [].
Proof.
  rewrite clean_pipeline_unfold. split.
  - intros H. apply calculate_derived_features_empty.
    now apply filter_nil_Forall.
  - destruct (calculate_derived_features _ _) as [[out|] l'] eqn:E;
      [|discriminate].
    cbn [fst]. intros H. injection H as ->.
    pose proof (calculate_derived_features_Some _ _ E) as (Hraw & _).
    cbn [map] in Hraw. symmetry in Hraw.
    pose proof (calculate_derived_features_empty _ (snd (clean_data df excluded_records)) Hraw) as Hn.
    rewrite E in Hn. discriminate Hn.
Qed.

Lemma clean_pipeline_raises_without_survivor_witness :
  fst (clean_pipeline [trip_short] []) = None.
Proof.
  apply (clean_pipeline_raises_without_survivor [trip_short] []).
  apply Forall_forall. intros r Hr. exfalso.
  pose proof (clean_data_In _ _ _ Hr) as (_ & _ & _ & Hd & _).
  eapply subsequence_In in Hr; [|apply clean_data_subsequence].
  destruct Hr as [<-|[]].
  revert Hd. unfold invalid_duration, gt, lt, trip_short; cbn [trip_duration].
  rewrite (@Rltb_true 30 60) by lra. rewrite orb_true_r. discriminate.
Defined.

End Survivors.

(** ** The distance and the fare as numbers *)

Section Numbers.

Local Open Scope R_scope.
Local Abbreviation sin := Rtrigo_def.sin.
Local Abbreviation sqrt := R_sqrt.sqrt.

Lemma asin_nonneg (x : R) : 0 <= x <= 1 -> 0 <= asin x.
Proof.
  intros Hx. destruct (Rle_dec 0 (asin x)) as [L|L]; [exact L|exfalso].
  pose proof (asin_bound x) as [Hlo _]. pose proof PI_RGT_0 as Hpi.
  assert (Hs : sin (asin x) < 0) by (apply sin_lt_0_var; lra).
  rewrite sin_asin in Hs by lra. lra.
Qed.

Lemma haversine_R_bounds (lat1 lon1 lat2 lon2 : R) :
  0 <= haversine_R lat1 lon1 lat2 lon2 <= 6371 * PI.
Proof.
  unfold haversine_R.
  pose proof (sqrt_haversine_a_bounds lat1 lon1 lat2 lon2) as Hs.
  pose proof (asin_nonneg Hs) as H0.
  pose proof (asin_bound (sqrt (haversine_a lat1 lon1 lat2 lon2))) as [_ H1].
  lra.
Qed.

(** [np.rint] returns an integer at most one half away. *)
Lemma rint_R_spec (x : R) :
  exists z : Z, rint_R x = IZR z /\ - (1 / 2) <= IZR z - x <= 1 / 2.
Proof.
  unfold rint_R. destruct (base_Int_part x) as [Hlo Hhi].
  set (n := Int_part x) in *.
  destruct (Rltb (x - IZR n) (1 / 2)) eqn:E1.
  - apply Rltb_spec in E1. exists n. split; [reflexivity|lra].
  - assert (H1 : 1 / 2 <= x - IZR n).
    { destruct (Rle_dec (1 / 2) (x - IZR n)) as [L|L]; [exact L|].
      rewrite Rltb_true in E1 by lra. discriminate. }
    destruct (Rltb (1 / 2) (x - IZR n)) eqn:E2.
    + exists (n + 1)%Z. split; [reflexivity|]. rewrite plus_IZR. lra.
    + assert (H2 : x - IZR n <= 1 / 2).
      { destruct (Rle_dec (x - IZR n) (1 / 2)) as [L|L]; [exact L|].
        rewrite Rltb_true in E2 by lra. discriminate. }
      destruct (Z.even n).
      * exists n. split; [reflexivity|lra].
      * exists (n + 1)%Z. split; [reflexivity|]. rewrite plus_IZR. lra.
Qed.

(** Rounding to two decimals: a whole number of hundredths, at most half a
    hundredth away, and not below a bound that is itself a whole number of
    hundredths. *)
Lemma round2_spec (x : R) :
  exists z : Z,
    round2 (Fin x) = Fin (IZR z / 100)
    /\ - 0.005 <= IZR z / 100 - x <= 0.005
    /\ (forall b : Z, IZR b / 100 <= x -> (b <= z)%Z).
Proof.
  destruct (rint_R_spec (x * 100)) as (z & E & Hz).
  exists z. split; [simpl; now rewrite E|]. split; [lra|].
  intros b Hb. apply Z.lt_succ_r. apply lt_IZR. rewrite succ_IZR. lra.
Qed.

(** The fare of a row with finite coordinates and a duration of at least 60
    seconds. *)
Lemma fare_spec (r : trip) (lat1 lon1 lat2 lon2 x : R) :
  pickup_latitude r = Fin lat1 -> pickup_longitude r = Fin lon1 ->
  dropoff_latitude r = Fin lat2 -> dropoff_longitude r = Fin lon2 ->
  trip_duration r = Fin x -> 60 <= x ->
  exists cents : Z,
    fare r = Fin (IZR cents / 100)
    /\ (300 <= cents)%Z
    /\ - 0.005
       <= IZR cents / 100
          - (2.50 + 1.50 * haversine_R lat1 lon1 lat2 lon2 + 0.50 * (x / 60))
       <= 0.005.
Proof.
  intros E1 E2 E3 E4 E5 Hx.
  unfold fare, distance_km. rewrite E1, E2, E3, E4, E5, haversine_distance_Fin.
  unfold base_fare, per_km_rate, per_minute_rate. cbn [mul add div].
  rewrite (@Reqb_false 60 0) by lra. cbn [mul add].
  pose proof (haversine_R_bounds lat1 lon1 lat2 lon2) as [Hd _].
  destruct (round2_spec (2.50 + haversine_R lat1 lon1 lat2 lon2 * 1.50
                         + x / 60 * 0.50)) as (z & E & Hz & Hb).
  exists z. split; [exact E|]. split; [|lra].
  apply Hb. change (IZR 300) with 300. lra.
Qed.

(** X5: in every row of the frame the cleaning run returns, the distance is a
    number (never NaN or infinite) between 0 and half the circumference of a
    sphere of radius 6371 km, the value of the great-circle formula on the
    row's coordinates. *)
Theorem cleaned_distance_is_great_circle (df : DataFrame)
    (excluded_records : ledger) :
  Forall (fun c =>
            trip_distance_km c
            = Fin (haversine_R (value (pickup_latitude (raw c)))
                               (value (pickup_longitude (raw c)))
                               (value (dropoff_latitude (raw c)))
                               (value (dropoff_longitude (raw c))))
            /\ le (Fin 0) (trip_distance_km c) = true
            /\ le (trip_distance_km c) (Fin (6371 * PI)) = true)
         (frame_of (fst (clean_pipeline df excluded_records))).
Proof.
  rewrite clean_pipeline_unfold.
  destruct (calculate_derived_features _ _) as [[out|] l'] eqn:E; [|constructor].
  cbn [fst frame_of].
  apply calculate_derived_features_Some in E. destruct E as (Hraw & _ & HF).
  rewrite Forall_forall in HF. apply Forall_forall. intros c Hc.
  destruct (HF c Hc) as (-> & _).
  assert (Hr : In (raw c) (map raw out)) by now apply in_map.
  rewrite Hraw in Hr. apply survivors_isfinite in Hr.
  destruct Hr as (F1 & F2 & F3 & F4). unfold distance_km.
  destruct (pickup_latitude (raw c)) as [| |a1]; try discriminate.
  destruct (pickup_longitude (raw c)) as [| |a2]; try discriminate.
  destruct (dropoff_latitude (raw c)) as [| |a3]; try discriminate.
  destruct (dropoff_longitude (raw c)) as [| |a4]; try discriminate.
  rewrite haversine_distance_Fin. cbn [value le].
  pose proof (haversine_R_bounds a1 a2 a3 a4) as [H0 H1].
  rewrite !Rleb_true by assumption. auto.
Qed.

(** X6: in every row of the frame the cleaning run returns whose
    [trip_duration] cell is not missing, the fare is a whole number of cents,
    at least 3.00, and within half a cent of
    [2.50 + 1.50 * distance + 0.50 * minutes]. *)
Theorem cleaned_fare_in_cents (df : DataFrame) (excluded_records : ledger)
    (c : cleaned_trip) :
  In c (frame_of (fst (clean_pipeline df excluded_records))) ->
  isna (trip_duration (raw c)) = false ->
  exists cents : Z,
    fare_amount c = Fin (IZR cents / 100)
    /\ (300 <= cents)%Z
    /\ - 0.005
       <= IZR cents / 100
          - (2.50 + 1.50 * value (trip_distance_km c)
             + 0.50 * (value (trip_duration (raw c)) / 60))
       <= 0.005.
Proof.
  rewrite clean_pipeline_unfold.
  destruct (calculate_derived_features _ _) as [[out|] l'] eqn:E; [|intros []].
  cbn [fst frame_of]. intros Hc Hdur.
  apply calculate_derived_features_Some in E. destruct E as (Hraw & _ & HF).
  rewrite Forall_forall in HF. destruct (HF c Hc) as (Hd & _ & -> & _).
  assert (Hr : In (raw c) (map raw out)) by now apply in_map.
  rewrite Hraw in Hr. pose proof (survivors_isfinite _ _ _ Hr) as (F1 & F2 & F3 & F4).
  apply filter_In in Hr. destruct Hr as [Hr _].
  apply clean_data_In in Hr. destruct Hr as (_ & _ & _ & Hdr & _).
  unfold invalid_duration in Hdr. apply orb_false_iff in Hdr.
  destruct Hdr as [Hd1 Hd2].
  pose proof (@between_range _ _ _ Hdur Hd2 Hd1) as Bd.
  apply between_Fin in Bd. destruct Bd as (x & Ex & Hx).
  rewrite Hd. unfold distance_km.
  destruct (pickup_latitude (raw c)) as [| |a1] eqn:E1; try discriminate.
  destruct (pickup_longitude (raw c)) as [| |a2] eqn:E2; try discriminate.
  destruct (dropoff_latitude (raw c)) as [| |a3] eqn:E3; try discriminate.
  destruct (dropoff_longitude (raw c)) as [| |a4] eqn:E4; try discriminate.
  rewrite haversine_distance_Fin, Ex. cbn [value].
  apply (@fare_spec (raw c) a1 a2 a3 a4 x); auto. lra.
Qed.

Lemma cleaned_fare_in_cents_witness :
  exists cents : Z,
    fare_amount cleaned_a = Fin (IZR cents / 100) /\ (300 <= cents)%Z
    /\ - 0.005
       <= IZR cents / 100
          - (2.50 + 1.50 * value (trip_distance_km cleaned_a)
             + 0.50 * (value (trip_duration (raw cleaned_a)) / 60))
       <= 0.005.
Proof.
  apply (@cleaned_fare_in_cents [trip_a; trip_b] [] cleaned_a).
  - rewrite clean_pipeline_a_b. simpl. auto.
  - reflexivity.
Defined.

End Numbers.

(** ** A missing duration in the derived columns *)

Section MissingDuration.

Local Open Scope R_scope.

Lemma clean_pipeline_no_duration :
  clean_pipeline [trip_a; trip_no_duration] []
  = (Some [cleaned_a; cleaned_no_duration], []).
Proof.
  assert (Hs : invalid_speed trip_no_duration = false).
  { unfold invalid_speed. rewrite speed_kmh_no_duration. reflexivity. }
  unfold clean_pipeline.
  rewrite clean_data_valid; try (repeat constructor;
    auto using invalid_coords_trip_a, invalid_duration_trip_a,
      invalid_passengers_trip_a).
  - unfold calculate_derived_features.
    rewrite exclude_none
      by (repeat constructor; auto using invalid_speed_trip_a).
    rewrite create_zones_no_duration_pickup, create_zones_no_duration_dropoff.
    reflexivity.
  - exact invalid_coords_trip_b.
  - exact invalid_passengers_trip_b.
Qed.

Lemma fare_no_duration : fare trip_no_duration = NaN.
Proof.
  unfold fare. change (distance_km trip_no_duration) with (distance_km trip_b).
  rewrite distance_km_trip_b. reflexivity.
Qed.

(** C4, on a frame the code can be given.  The row whose [trip_duration]
    cell is missing is in the cleaned output (both comparisons of the
    duration check and both of the speed check are false on NaN).  Its
    [fare_amount] is NaN, and [==] between it and the value of the formula
    is false. *)
Theorem fare_amount_missing_duration :
  clean_pipeline [trip_a; trip_no_duration] []
  = (Some [cleaned_a; cleaned_no_duration], [])
  /\ trip_distance_km cleaned_no_duration
     = haversine_distance (pickup_latitude trip_no_duration)
         (pickup_longitude trip_no_duration)
         (dropoff_latitude trip_no_duration)
         (dropoff_longitude trip_no_duration)
  /\ fare_amount cleaned_no_duration = NaN
  /\ eq (fare_amount cleaned_no_duration)
        (round2
           (add (add (Fin 2.50)
                     (mul (Fin 1.50) (trip_distance_km cleaned_no_duration)))
                (mul (Fin 0.50)
                     (div (trip_duration (raw cleaned_no_duration)) (Fin 60)))))
     = false.
Proof.
  split; [exact clean_pipeline_no_duration|]. split; [reflexivity|].
  assert (H : fare_amount cleaned_no_duration = NaN) by exact fare_no_duration.
  split; [exact H|]. rewrite H. reflexivity.
Qed.

Lemma distance_km_trip_still : distance_km trip_still = Fin 0.
Proof.
  unfold distance_km, trip_still; cbn [pickup_latitude pickup_longitude
    dropoff_latitude dropoff_longitude].
  rewrite haversine_distance_Fin, haversine_R_meridian by lra. f_equal. lra.
Qed.

Lemma dropoff_zones_a_still :
  create_zones (map dropoff_latitude [trip_a; trip_still])
               (map dropoff_longitude [trip_a; trip_still])
  = Some ["Zone_19_0"; "Zone_0_19"]%string.
Proof.
  change (map dropoff_latitude [trip_a; trip_still]) with [Fin 40.80; Fin 40.72].
  change (map dropoff_longitude [trip_a; trip_still])
    with [Fin (-74.00); Fin (-73.95)].
  unfold create_zones.
  rewrite cut_pair_decreasing, cut_pair_increasing by lra. reflexivity.
Qed.

Lemma invalid_coords_trip_still : invalid_coords trip_still = false.
Proof.
  unfold invalid_coords, lat_min, lat_max, lon_min, lon_max, gt, lt, trip_still;
    cbn [pickup_latitude pickup_longitude dropoff_latitude dropoff_longitude].
  rewrite !Rltb_false by lra. reflexivity.
Qed.

Lemma clean_pipeline_still :
  clean_pipeline [trip_a; trip_still] []
  = (Some [cleaned_a; cleaned_still], []).
Proof.
  assert (Hs : invalid_speed trip_still = false).
  { unfold invalid_speed, speed_kmh. rewrite distance_km_trip_still.
    reflexivity. }
  unfold clean_pipeline.
  rewrite clean_data_valid; try (repeat constructor;
    auto using invalid_coords_trip_a, invalid_duration_trip_a,
      invalid_passengers_trip_a, invalid_coords_trip_still).
  - unfold calculate_derived_features.
    rewrite exclude_none
      by (repeat constructor; auto using invalid_speed_trip_a).
    change (map pickup_latitude [trip_a; trip_still])
      with (map pickup_latitude [trip_a; trip_b]).
    change (map pickup_longitude [trip_a; trip_still])
      with (map pickup_longitude [trip_a; trip_b]).
    rewrite pickup_zones_a_b, dropoff_zones_a_still.
    reflexivity.
  - exact invalid_passengers_trip_b.
Qed.

Lemma fare_trip_zero :
  exists cents : Z, fare trip_zero = Fin (IZR cents / 100) /\ (250 <= cents)%Z.
Proof.
  unfold fare. change (distance_km trip_zero) with (distance_km trip_still).
  rewrite distance_km_trip_still.
  unfold base_fare, per_km_rate, per_minute_rate, trip_zero;
    cbn [trip_duration mul add div].
  rewrite (@Reqb_false 60 0) by lra. cbn [mul add].
  destruct (round2_spec (2.50 + 0 * 1.50 + 0 / 60 * 0.50)) as (z & E & _ & Hb).
  exists z. split; [exact E|]. apply Hb. change (IZR 250) with 250. lra.
Qed.

Lemma calculate_derived_features_zero :
  calculate_derived_features [trip_a; trip_zero] []
  = (Some [cleaned_a; cleaned_zero], []).
Proof.
  assert (Hs : invalid_speed trip_zero = false).
  { unfold invalid_speed, speed_kmh.
    change (distance_km trip_zero) with (distance_km trip_still).
    rewrite distance_km_trip_still.
    unfold trip_zero; cbn [trip_duration div].
    rewrite (@Reqb_false 3600 0) by lra. cbn [div].
    rewrite (@Reqb_true (0 / 3600) 0), (@Reqb_true 0 0) by lra. reflexivity. }
  unfold calculate_derived_features.
  rewrite exclude_none
    by (repeat constructor; auto using invalid_speed_trip_a).
  change (map pickup_latitude [trip_a; trip_zero])
    with (map pickup_latitude [trip_a; trip_b]).
  change (map pickup_longitude [trip_a; trip_zero])
    with (map pickup_longitude [trip_a; trip_b]).
  change (map dropoff_latitude [trip_a; trip_zero])
    with (map dropoff_latitude [trip_a; trip_still]).
  change (map dropoff_longitude [trip_a; trip_zero])
    with (map dropoff_longitude [trip_a; trip_still]).
  rewrite pickup_zones_a_b, dropoff_zones_a_still.
  reflexivity.
Qed.

(** C7, on a frame the code can be given.  The second row starts and ends
    at one point and its [trip_duration] cell is missing: its distance is 0
    and its speed NaN, on which both comparisons of the speed check are
    false.  The row is in the cleaned output, and its [fare_per_km] is the
    quotient of its fare by 0.  The frame [calculate_derived_features]
    returns holds such a row also when the duration is 0 (the speed is 0 / 0,
    NaN again); its [fare_per_km] then is infinite. *)
Theorem fare_per_km_divides_by_zero :
  clean_pipeline [trip_a; trip_still] []
  = (Some [cleaned_a; cleaned_still], [])
  /\ trip_speed_kmh cleaned_still = NaN
  /\ trip_distance_km cleaned_still = Fin 0
  /\ fare_per_km cleaned_still
     = round2 (div (fare_amount cleaned_still) (Fin 0))
  /\ calculate_derived_features [trip_a; trip_zero] []
     = (Some [cleaned_a; cleaned_zero], [])
  /\ trip_distance_km cleaned_zero = Fin 0
  /\ fare_per_km cleaned_zero = Inf false.
Proof.
  assert (Hd : trip_distance_km cleaned_still = Fin 0)
    by exact distance_km_trip_still.
  assert (Hz : trip_distance_km cleaned_zero = Fin 0)
    by exact distance_km_trip_still.
  split; [exact clean_pipeline_still|]. split.
  { change (trip_speed_kmh cleaned_still) with (speed_kmh trip_still).
    unfold speed_kmh. rewrite distance_km_trip_still. reflexivity. }
  split; [exact Hd|]. split.
  { change (fare_per_km cleaned_still)
      with (round2 (div (fare_amount cleaned_still)
                        (trip_distance_km cleaned_still))).
    now rewrite Hd. }
  split; [exact calculate_derived_features_zero|]. split; [exact Hz|].
  change (fare_per_km cleaned_zero)
    with (round2 (div (fare trip_zero) (trip_distance_km cleaned_zero))).
  rewrite Hz. destruct fare_trip_zero as (cents & -> & Hc).
  assert (Hpos : 2.5 <= IZR cents / 100).
  { apply IZR_le in Hc. change (IZR 250) with 250 in Hc. lra. }
  cbn [div]. rewrite (@Reqb_true 0 0) by lra.
  rewrite Reqb_false, Rltb_false by lra. reflexivity.
Qed.

(** The speed of a row with finite coordinates and a duration that is a
    number other than 0. *)
Lemma speed_kmh_Fin (r : trip) (lat1 lon1 lat2 lon2 x : R) :
  pickup_latitude r = Fin lat1 -> pickup_longitude r = Fin lon1 ->
  dropoff_latitude r = Fin lat2 -> dropoff_longitude r = Fin lon2 ->
  trip_duration r = Fin x -> 0 < x ->
  distance_km r = Fin (haversine_R lat1 lon1 lat2 lon2)
  /\ speed_kmh r = Fin (haversine_R lat1 lon1 lat2 lon2 / (x / 3600)).
Proof.
  intros E1 E2 E3 E4 E5 Hx. unfold speed_kmh, distance_km.
  rewrite E1, E2, E3, E4, E5, haversine_distance_Fin. split; [reflexivity|].
  cbn [div]. rewrite (@Reqb_false 3600 0) by lra. cbn [div].
  rewrite (@Reqb_false (x / 3600) 0) by lra. reflexivity.
Qed.

(** What the checks leave of a row of the cleaned output whose duration is
    not missing: finite coordinates within the bounds, a duration between 60
    and 21600 seconds, and a distance of at least the duration in hours. *)
Lemma cleaned_row_numbers (df : DataFrame) (excluded_records : ledger)
    (c : cleaned_trip) :
  In c (frame_of (fst (clean_pipeline df excluded_records))) ->
  isna (trip_duration (raw c)) = false ->
  exists lat1 lon1 lat2 lon2 x,
    pickup_latitude (raw c) = Fin lat1 /\ pickup_longitude (raw c) = Fin lon1
    /\ dropoff_latitude (raw c) = Fin lat2
    /\ dropoff_longitude (raw c) = Fin lon2
    /\ trip_duration (raw c) = Fin x
    /\ 40.4774 <= lat1 <= 40.9176 /\ -74.2591 <= lon1 <= -73.7004
    /\ 40.4774 <= lat2 <= 40.9176 /\ -74.2591 <= lon2 <= -73.7004
    /\ 60 <= x <= 21600
    /\ x / 3600 <= haversine_R lat1 lon1 lat2 lon2
    /\ 1 <= haversine_R lat1 lon1 lat2 lon2 / (x / 3600) <= 200
    /\ trip_distance_km c = distance_km (raw c)
    /\ trip_speed_kmh c = speed_kmh (raw c)
    /\ fare_amount c = fare (raw c)
    /\ fare_per_km c = fare_per_distance (raw c)
    /\ has_na (raw c) = false
    /\ invalid_passengers (raw c) = false.
Proof.
  rewrite clean_pipeline_unfold.
  destruct (calculate_derived_features _ _) as [[out|] l'] eqn:E; [|intros []].
  cbn [fst frame_of]. intros Hc Hdur.
  apply calculate_derived_features_Some in E. destruct E as (Hraw & _ & HF).
  rewrite Forall_forall in HF. destruct (HF c Hc) as (Hd & Hsp & Hfa & Hfp).
  assert (Hr : In (raw c) (map raw out)) by now apply in_map.
  rewrite Hraw, filter_In, negb_true_iff in Hr. destruct Hr as [Hr Hs].
  apply clean_data_In in Hr. destruct Hr as (Hna & _ & Hco & Hdr & Hpass).
  destruct (@invalid_coords_false _ Hna Hco) as (C1 & C2 & C3 & C4).
  unfold invalid_duration in Hdr. apply orb_false_iff in Hdr.
  destruct Hdr as [Hd1 Hd2].
  pose proof (@between_range _ _ _ Hdur Hd2 Hd1) as Bd.
  unfold lat_min, lat_max, lon_min, lon_max in *.
  apply between_Fin in C1, C2, C3, C4, Bd.
  destruct C1 as (a1 & E1 & B1), C2 as (a2 & E2 & B2), C3 as (a3 & E3 & B3),
    C4 as (a4 & E4 & B4), Bd as (x & Ex & Hx).
  exists a1, a2, a3, a4, x.
  assert (Hx0 : 0 < x) by lra.
  destruct (speed_kmh_Fin _ E1 E2 E3 E4 Ex Hx0) as [_ Espeed].
  unfold invalid_speed in Hs. rewrite Espeed in Hs.
  apply orb_false_iff in Hs. destruct Hs as [Hs1 Hs2].
  unfold gt, lt in Hs1, Hs2.
  assert (Hlo : 1 <= haversine_R a1 a2 a3 a4 / (x / 3600)).
  { destruct (Rle_dec 1 (haversine_R a1 a2 a3 a4 / (x / 3600))) as [L|L];
      [exact L|].
    rewrite Rltb_true in Hs2 by lra. discriminate. }
  assert (Hhi : haversine_R a1 a2 a3 a4 / (x / 3600) <= 200).
  { destruct (Rle_dec (haversine_R a1 a2 a3 a4 / (x / 3600)) 200) as [L|L];
      [exact L|].
    rewrite Rltb_true in Hs1 by lra. discriminate. }
  assert (Hdist : x / 3600 <= haversine_R a1 a2 a3 a4).
  { assert (Ht : 0 < x / 3600) by lra.
    apply (Rmult_le_compat_r (x / 3600)) in Hlo; [|lra].
    unfold Rdiv at 2 in Hlo. rewrite Rmult_assoc, Rinv_l in Hlo by lra. lra. }
  repeat split; auto; lra.
Qed.

(** X21: in a row of the cleaned output whose [trip_duration] cell is not
    missing, the distance is at least 1/60 km.  Its [fare_per_km], the
    rounded quotient of the fare by the distance, divides by a number above
    0, and is a number. *)
Theorem present_duration_divisor_positive (df : DataFrame)
    (excluded_records : ledger) (c : cleaned_trip) :
  In c (frame_of (fst (clean_pipeline df excluded_records))) ->
  isna (trip_duration (raw c)) = false ->
  fare_per_km c = round2 (div (fare_amount c) (trip_distance_km c))
  /\ ge (trip_distance_km c) (Fin (1 / 60)) = true
  /\ gt (trip_distance_km c) (Fin 0) = true
  /\ eq (trip_distance_km c) (Fin 0) = false
  /\ isfinite (fare_per_km c) = true.
Proof.
  intros Hc Hdur.
  destruct (cleaned_row_numbers _ _ _ Hc Hdur)
    as (a1 & a2 & a3 & a4 & x & E1 & E2 & E3 & E4 & Ex & _ & _ & _ & _ & Hx
        & Hdist & _ & Hd & _ & Hfa & Hfp & _).
  assert (Hx0 : 0 < x) by lra.
  destruct (speed_kmh_Fin _ E1 E2 E3 E4 Ex Hx0) as [Edist _].
  destruct (@fare_spec (raw c) a1 a2 a3 a4 x E1 E2 E3 E4 Ex (proj1 Hx))
    as (cents & Efare & _).
  split; [rewrite Hfp, Hfa, Hd; reflexivity|].
  rewrite Hfp. unfold fare_per_distance. rewrite Hd, Edist, Efare.
  unfold ge, gt. cbn [le lt eq div].
  rewrite Rleb_true, Rltb_true, !Reqb_false by lra. auto.
Qed.

Lemma present_duration_divisor_positive_witness :
  ge (trip_distance_km cleaned_a) (Fin (1 / 60)) = true
  /\ eq (trip_distance_km cleaned_a) (Fin 0) = false.
Proof.
  assert (Hc : In cleaned_a
                 (frame_of (fst (clean_pipeline [trip_a; trip_b] []))))
    by (rewrite clean_pipeline_a_b; simpl; auto).
  pose proof (@present_duration_divisor_positive [trip_a; trip_b] [] cleaned_a
                Hc eq_refl) as H.
  tauto.
Defined.

End MissingDuration.

(** * The coordinates written for a zone *)

Section ZoneCoordinates.

Local Open Scope R_scope.

Lemma fold_add_Fin (xs : list R) (a : R) :
  fold_left add (map Fin xs) (Fin a) = Fin (fold_left Rplus xs a).
Proof.
  revert a; induction xs as [|x xs IH]; intros a; simpl; [reflexivity|].
  apply IH.
Qed.

Lemma fold_Rplus_bounds (lo hi : R) (xs : list R) (a : R) :
  (forall x, In x xs -> lo <= x <= hi) ->
  a + INR (List.length xs) * lo <= fold_left Rplus xs a
  <= a + INR (List.length xs) * hi.
Proof.
  revert a; induction xs as [|x xs IH]; intros a H.
  - simpl. lra.
  - cbn [fold_left]. rewrite length_cons, S_INR.
    assert (Hx : lo <= x <= hi) by (apply H; left; reflexivity).
    specialize (IH (a + x) (fun y Hy => H y (or_intror Hy))). lra.
Qed.

(** The mean of numbers between two bounds lies between the bounds. *)
Lemma mean_between (lo hi : R) (l : list float64) :
  l <> [] ->
  Forall (fun x => between (Fin lo) (Fin hi) x = true) l ->
  between (Fin lo) (Fin hi) (mean l) = true.
Proof.
  intros Hne Hall.
  assert (Hfin : Forall (fun x => isfinite x = true) l).
  { eapply Forall_impl; [|exact Hall]. intros x. apply between_isfinite. }
  assert (Hval : forall v, In v (map value l) -> lo <= v <= hi).
  { intros v Hv. apply in_map_iff in Hv. destruct Hv as (x & <- & Hx).
    rewrite Forall_forall in Hall. specialize (Hall x Hx).
    apply between_Fin in Hall. destruct Hall as (v & -> & Hv). exact Hv. }
  rewrite (map_value Hfin). unfold mean, sum. rewrite fold_add_Fin, length_map.
  assert (Hn : 0 < INR (List.length (map value l))).
  { apply lt_0_INR. rewrite length_map. destruct l; [congruence|simpl; lia]. }
  rewrite <- INR_IZR_INZ.
  pose proof (@fold_Rplus_bounds lo hi (map value l) 0 Hval) as [B1 B2].
  set (n := INR (List.length (map value l))) in *.
  set (s := fold_left Rplus (map value l) 0) in *.
  cbn [div]. rewrite Reqb_false by lra.
  unfold between. cbn [le]. rewrite !Rleb_true; [reflexivity| |].
  - apply (Rmult_le_reg_r n); [exact Hn|]. unfold Rdiv.
    rewrite Rmult_assoc, Rinv_l by lra. lra.
  - apply (Rmult_le_reg_r n); [exact Hn|]. unfold Rdiv.
    rewrite Rmult_assoc, Rinv_l by lra. lra.
Qed.

Lemma pipeline_row_coords (df : DataFrame) (excluded_records ledger' : ledger)
    (out : CleanedFrame) (c : cleaned_trip) :
  clean_pipeline df excluded_records = (Some out, ledger') ->
  In c out ->
  between lat_min lat_max (pickup_latitude (raw c)) = true
  /\ between lon_min lon_max (pickup_longitude (raw c)) = true
  /\ between lat_min lat_max (dropoff_latitude (raw c)) = true
  /\ between lon_min lon_max (dropoff_longitude (raw c)) = true.
Proof.
  rewrite clean_pipeline_unfold. intros E Hc.
  apply calculate_derived_features_Some in E. destruct E as (Hraw & _).
  assert (Hr : In (raw c) (map raw out)) by now apply in_map.
  rewrite Hraw in Hr. apply filter_In in Hr. destruct Hr as [Hr _].
  apply clean_data_In in Hr. destruct Hr as (Hna & _ & Hco & _).
  exact (@invalid_coords_false _ Hna Hco).
Qed.

(** X10: the coordinates [insert_zones] writes for a zone.  When the frame
    is one the cleaning run returned, the row of every zone of the frame
    holds, once [insert_zones] has run, a latitude and a longitude within the
    bounds of the coordinate check (a point of the New York area, never NaN),
    and a trip count between 1 and the number of rows of the frame. *)
Theorem zone_row_within_bounds (iteration : list string) (df : DataFrame)
    (excluded_records ledger' : ledger) (out : CleanedFrame) (db : database)
    (row : zones_row) :
  clean_pipeline df excluded_records = (Some out, ledger') ->
  Permutation iteration (all_zones out) ->
  In row (zones (insert_zones iteration out db)) ->
  In (zone_name row) (all_zones out) ->
  between lat_min lat_max (latitude row) = true
  /\ between lon_min lon_max (longitude row) = true
  /\ (1 <= trip_count row <= List.length out)%nat.
Proof.
  intros E Hperm Hrow Hz.
  assert (Hin : In (zone_name row) iteration)
    by (eapply Permutation_in; [apply Permutation_sym, Hperm|exact Hz]).
  destruct (@insert_zones_written iteration out db
              (zone_name row) (or_intror Hin)) as (_ & Hall).
  destruct (Hall row Hrow eq_refl) as (-> & -> & ->).
  apply all_zones_spec in Hz. destruct Hz as (r & Hr & Hzr).
  set (z := zone_name row) in *.
  assert (Hrz : In r (zone_trips out z)).
  { unfold zone_trips. apply filter_In. split; [exact Hr|].
    apply orb_true_iff.
    destruct Hzr as [-> | ->]; [left|right]; now apply zone_is_Some. }
  assert (Hsub : forall c, In c (zone_trips out z) -> In c out)
    by (intros c Hc; unfold zone_trips in Hc; apply filter_In in Hc; tauto).
  unfold lat_min, lat_max, lon_min, lon_max in *.
  split; [|split].
  - unfold avg_lat. apply mean_between.
    + unfold latitude_values. destruct (zone_trips out z); [destruct Hrz|discriminate].
    + apply Forall_forall. intros x Hx. unfold latitude_values in Hx.
      apply in_flat_map in Hx. destruct Hx as (c & Hc & Hx).
      destruct (@pipeline_row_coords _ _ _ _ _ E (Hsub c Hc)) as (C1 & _ & C3 & _).
      destruct Hx as [<-|[<-|[]]]; assumption.
  - unfold avg_lon. apply mean_between.
    + unfold longitude_values. destruct (zone_trips out z); [destruct Hrz|discriminate].
    + apply Forall_forall. intros x Hx. unfold longitude_values in Hx.
      apply in_flat_map in Hx. destruct Hx as (c & Hc & Hx).
      destruct (@pipeline_row_coords _ _ _ _ _ E (Hsub c Hc)) as (_ & C2 & _ & C4).
      destruct Hx as [<-|[<-|[]]]; assumption.
  - split.
    + destruct (zone_trips out z); [destruct Hrz|simpl; lia].
    + unfold zone_trips. apply filter_length_le.
Qed.

Lemma zone_row_within_bounds_witness :
  let row := {| zones_id := 1; zone_name := "Zone_0_0";
                latitude := avg_lat [cleaned_a; cleaned_b] "Zone_0_0";
                longitude := avg_lon [cleaned_a; cleaned_b] "Zone_0_0";
                trip_count := 1 |} in
  between lat_min lat_max (latitude row) = true
  /\ between lon_min lon_max (longitude row) = true
  /\ (1 <= trip_count row <= 2)%nat.
Proof.
  intros row.
  apply (@zone_row_within_bounds (all_zones [cleaned_a; cleaned_b])
           [trip_a; trip_b] [] [] [cleaned_a; cleaned_b] empty_database row
           (clean_pipeline_a_b []) (Permutation_refl _)).
  - left. reflexivity.
  - left. reflexivity.
Defined.

End ZoneCoordinates.

(** ** The rows the tables take *)

Section Accepted.

Local Open Scope R_scope.

Lemma decimal_accepts (precision scale : nat) (v : R) :
  Rabs v < 10 ^ (precision - scale) - / 2 * / 10 ^ scale ->
  decimal_rejects precision scale (Fin v) = false.
Proof. intros H. unfold decimal_rejects. now apply Rleb_false. Qed.

Lemma decimal_accepted_Fin (precision scale : nat) (x : float64) :
  isfinite x = true -> decimal_rejects precision scale x = false ->
  exists v, x = Fin v
            /\ - (10 ^ (precision - scale) - / 2 * / 10 ^ scale) < v
               < 10 ^ (precision - scale) - / 2 * / 10 ^ scale.
Proof.
  destruct x as [| |v]; try discriminate. intros _ H. exists v.
  split; [reflexivity|]. unfold decimal_rejects in H.
  set (B := 10 ^ (precision - scale) - / 2 * / 10 ^ scale) in *.
  assert (Hv : Rabs v < B).
  { destruct (Rlt_dec (Rabs v) B) as [L|L]; [exact L|].
    rewrite Rleb_true in H by lra. discriminate. }
  apply Rabs_def2 in Hv. lra.
Qed.

Lemma fold_Rplus_strict (lo hi : R) (xs : list R) :
  forall x a,
    (forall y, In y (x :: xs) -> lo < y < hi) ->
    a + INR (S (List.length xs)) * lo < fold_left Rplus xs (a + x)
    < a + INR (S (List.length xs)) * hi.
Proof.
  induction xs as [|y xs IH]; intros x a H.
  - cbn [fold_left List.length]. rewrite INR_1.
    assert (lo < x < hi) by (apply H; left; reflexivity). lra.
  - cbn [fold_left]. rewrite length_cons, S_INR.
    assert (Hx : lo < x < hi) by (apply H; left; reflexivity).
    specialize (IH y (a + x) (fun z Hz => H z (or_intror Hz))). lra.
Qed.

(** The mean of numbers a DECIMAL column takes is one it takes. *)
Lemma mean_decimal_accepted (precision scale : nat) (l : list float64) :
  Forall (fun x => isfinite x = true
                   /\ decimal_rejects precision scale x = false) l ->
  decimal_rejects precision scale (mean l) = false.
Proof.
  intros Hall.
  assert (Hfin : Forall (fun x => isfinite x = true) l)
    by (eapply Forall_impl; [|exact Hall]; intros x Hx; apply Hx).
  set (B := 10 ^ (precision - scale) - / 2 * / 10 ^ scale).
  assert (Hval : forall v, In v (map value l) -> - B < v < B).
  { intros v Hv. apply in_map_iff in Hv. destruct Hv as (x & <- & Hx).
    rewrite Forall_forall in Hall. destruct (Hall x Hx) as [F D].
    destruct (decimal_accepted_Fin _ _ _ F D) as (v & -> & Hv). exact Hv. }
  rewrite (map_value Hfin). unfold mean, sum. rewrite fold_add_Fin, length_map.
  destruct (map value l) as [|x xs] eqn:E.
  - cbn. now rewrite Reqb_true.
  - cbn [fold_left List.length]. rewrite <- INR_IZR_INZ.
    pose proof (@fold_Rplus_strict (- B) B xs x 0 Hval) as [B1 B2].
    pose proof (lt_0_INR (S (List.length xs)) ltac:(lia)) as Hn.
    set (n := INR (S (List.length xs))) in *.
    set (t := fold_left Rplus xs (0 + x)) in *.
    cbn [div]. rewrite Reqb_false by lra.
    apply decimal_accepts. fold B. apply Rabs_def1.
    + apply (Rmult_lt_reg_r n); [exact Hn|]. unfold Rdiv.
      rewrite Rmult_assoc, Rinv_l by lra. lra.
    + apply (Rmult_lt_reg_r n); [exact Hn|]. unfold Rdiv.
      rewrite Rmult_assoc, Rinv_l by lra. lra.
Qed.

Lemma loadable_spec (r : cleaned_trip) :
  loadable r = true ->
  rejected r = false
  /\ (forall v, vendor_id (raw r) = Some v -> int4_rejects v = false)
  /\ (isfinite (pickup_latitude (raw r)) = true
      /\ decimal_rejects 10 7 (pickup_latitude (raw r)) = false)
  /\ (isfinite (pickup_longitude (raw r)) = true
      /\ decimal_rejects 10 7 (pickup_longitude (raw r)) = false)
  /\ (isfinite (dropoff_latitude (raw r)) = true
      /\ decimal_rejects 10 7 (dropoff_latitude (raw r)) = false)
  /\ (isfinite (dropoff_longitude (raw r)) = true
      /\ decimal_rejects 10 7 (dropoff_longitude (raw r)) = false)
  /\ short_name (pickup_zone r) = true
  /\ short_name (dropoff_zone r) = true.
Proof.
  unfold loadable. rewrite !andb_true_iff, negb_true_iff.
  intros (((((((Hr & Hv) & F1) & F2) & F3) & F4) & S1) & S2).
  pose proof Hr as Hr'. unfold rejected in Hr'. rewrite !orb_false_iff in Hr'.
  destruct Hr' as ((((((((((((((_ & _) & _) & _) & _) & D1) & D2) & D3) & D4)
                          & _) & _) & _) & _) & _) & _).
  repeat split; auto.
  intros v Ev. rewrite Ev in Hv. now apply negb_true_iff.
Qed.

(** A frame of loadable rows is loaded, from a float64 vendor column,
    without an error. *)
Lemma load_accepted_loadable (iteration : list string) (df : CleanedFrame) :
  Forall (fun r => loadable r = true) df ->
  incl iteration (all_zones df) ->
  load_accepted true iteration df = true.
Proof.
  intros Hall Hincl. rewrite Forall_forall in Hall.
  unfold load_accepted. rewrite !andb_true_iff, !negb_true_iff.
  split; [split|].
  - apply forallb_forall. intros v Hv.
    apply In_unique in Hv. destruct Hv as [Hv _].
    apply In_dropna_cells, in_map_iff in Hv. destruct Hv as (r & Ev & Hr).
    destruct (loadable_spec _ (Hall r Hr)) as (_ & Hin & _).
    cbn [andb]. apply negb_true_iff. now apply Hin.
  - destruct (existsb (zone_rejected df) iteration) eqn:E; [exfalso|reflexivity].
    apply existsb_exists in E. destruct E as (z & Hz & Hrej).
    apply Hincl, all_zones_spec in Hz. destruct Hz as (r & Hr & Hzr).
    destruct (loadable_spec _ (Hall r Hr)) as (_ & _ & _ & _ & _ & _ & S1 & S2).
    assert (Hlen : (50 <? String.length z)%nat = false).
    { apply Nat.ltb_ge.
      destruct Hzr as [Ez|Ez]; [rewrite Ez in S1|rewrite Ez in S2];
        cbn [short_name] in *; now apply Nat.leb_le. }
    assert (Hlat : decimal_rejects 10 7 (avg_lat df z) = false).
    { apply mean_decimal_accepted. apply Forall_forall. intros x Hx.
      unfold latitude_values in Hx. apply in_flat_map in Hx.
      destruct Hx as (c & Hc & Hx). unfold zone_trips in Hc.
      apply filter_In in Hc. destruct Hc as [Hc _].
      destruct (loadable_spec _ (Hall c Hc)) as (_ & _ & A1 & _ & A3 & _).
      destruct Hx as [<-|[<-|[]]]; assumption. }
    assert (Hlon : decimal_rejects 10 7 (avg_lon df z) = false).
    { apply mean_decimal_accepted. apply Forall_forall. intros x Hx.
      unfold longitude_values in Hx. apply in_flat_map in Hx.
      destruct Hx as (c & Hc & Hx). unfold zone_trips in Hc.
      apply filter_In in Hc. destruct Hc as [Hc _].
      destruct (loadable_spec _ (Hall c Hc)) as (_ & _ & _ & A2 & _ & A4 & _).
      destruct Hx as [<-|[<-|[]]]; assumption. }
    unfold zone_rejected in Hrej. rewrite Hlen, Hlat, Hlon in Hrej.
    discriminate.
  - destruct (existsb rejected df) eqn:E; [exfalso|reflexivity].
    apply existsb_exists in E. destruct E as (r & Hr & Hrej).
    destruct (loadable_spec _ (Hall r Hr)) as (Hacc & _). congruence.
Qed.

Lemma loadable_firstn (n : nat) (df : CleanedFrame) :
  Forall (fun r => loadable r = true) df ->
  Forall (fun r => loadable r = true) (firstn n df).
Proof.
  rewrite !Forall_forall. intros H r Hr. apply H.
  rewrite <- (firstn_skipn n df). apply in_or_app. now left.
Qed.

Lemma loadable_skipn (n : nat) (df : CleanedFrame) :
  Forall (fun r => loadable r = true) df ->
  Forall (fun r => loadable r = true) (skipn n df).
Proof.
  rewrite !Forall_forall. intros H r Hr. apply H.
  rewrite <- (firstn_skipn n df). apply in_or_app. now right.
Qed.

(** The tables take every row of the cleaned output whose cells are filled
    in: the checks of the cleaning run keep the numbers within the widths of
    the DECIMAL columns. *)
Lemma pipeline_row_loadable (df : DataFrame) (excluded_records : ledger)
    (c : cleaned_trip) (v : Z) (flag : string) :
  In c (frame_of (fst (clean_pipeline df excluded_records))) ->
  isna (trip_duration (raw c)) = false ->
  isna (passenger_count (raw c)) = false ->
  vendor_id (raw c) = Some v -> int4_rejects v = false ->
  (String.length (id (raw c)) <= 50)%nat ->
  store_and_fwd_flag (raw c) = Some flag -> (String.length flag <= 1)%nat ->
  short_name (pickup_zone c) = true -> short_name (dropoff_zone c) = true ->
  loadable c = true.
Proof.
  intros Hc Hdur Hpc Ev Hv Hid Eflag Hflag S1 S2.
  destruct (cleaned_row_numbers _ _ _ Hc Hdur)
    as (a1 & a2 & a3 & a4 & x & E1 & E2 & E3 & E4 & Ex & B1 & B2 & B3 & B4 & Hx
        & Hdist & Hspeed & Hd & Hsp & Hfa & Hfp & Hna & Hp).
  assert (Hx0 : 0 < x) by lra.
  destruct (speed_kmh_Fin _ E1 E2 E3 E4 Ex Hx0) as [Edist Espeed].
  destruct (@fare_spec (raw c) a1 a2 a3 a4 x E1 E2 E3 E4 Ex (proj1 Hx))
    as (cents & Efare & Hcents & Hfare).
  pose proof (haversine_R_bounds a1 a2 a3 a4) as [D0 D1].
  pose proof pi_bounds as Hpi.
  set (d := haversine_R a1 a2 a3 a4) in *.
  set (f := IZR cents / 100) in *.
  assert (Hf0 : 3 <= f).
  { unfold f. apply IZR_le in Hcents. change (IZR 300) with 300 in Hcents. lra. }
  assert (Hd0 : 0 < d) by lra.
  assert (Hq : 0 <= f / d <= 181.8).
  { split.
    - apply Rmult_le_reg_r with d; [exact Hd0|]. unfold Rdiv.
      rewrite Rmult_assoc, Rinv_l by lra. lra.
    - apply Rmult_le_reg_r with d; [exact Hd0|]. unfold Rdiv.
      rewrite Rmult_assoc, Rinv_l by lra. lra. }
  destruct (round2_spec (f / d)) as (z & Ez & Hz & _).
  (* the passenger count is a number between 1 and 6 *)
  unfold invalid_passengers in Hp. apply orb_false_iff in Hp.
  destruct Hp as [Hp1 Hp2].
  pose proof (@between_range _ _ _ Hpc Hp1 Hp2) as Bp.
  apply between_Fin in Bp. destruct Bp as (p & Ep & Hp).
  (* the timestamps are there *)
  unfold has_na in Hna. rewrite !orb_false_iff in Hna.
  destruct Hna as (((((T1 & T2) & _) & _) & _) & _).
  assert (Hacc : rejected c = false).
  { unfold rejected.
    rewrite Ev, Eflag, E1, E2, E3, E4, Ex, Ep, Hd, Hsp, Hfa, Hfp.
    unfold fare_per_distance. rewrite Edist, Espeed, Efare. fold d f.
    cbn [div]. rewrite (@Reqb_false d 0) by lra. rewrite Ez.
    replace (50 <? String.length (id (raw c)))%nat with false
      by (symmetry; apply Nat.ltb_ge; exact Hid).
    replace (1 <? String.length flag)%nat with false
      by (symmetry; apply Nat.ltb_ge; exact Hflag).
    destruct (pickup_datetime (raw c)); [|discriminate].
    destruct (dropoff_datetime (raw c)); [|discriminate].
    cbn [missing orb integer_rejects].
    rewrite !Rltb_true by lra. cbn [andb negb orb].
    rewrite !decimal_accepts; [reflexivity| | | | | | | |];
      cbn [Nat.sub pow]; apply Rabs_def1; lra. }
  unfold loadable. rewrite Hacc, Ev, Hv, E1, E2, E3, E4, S1, S2. reflexivity.
Qed.

Lemma loadable_cleaned_a : loadable cleaned_a = true.
Proof.
  apply (@pipeline_row_loadable [trip_a; trip_b] [] cleaned_a 1%Z "N"%string);
    try reflexivity; try (cbn; lia).
  rewrite clean_pipeline_a_b. left. reflexivity.
Qed.

Lemma loadable_cleaned_b : loadable cleaned_b = true.
Proof.
  apply (@pipeline_row_loadable [trip_a; trip_b] [] cleaned_b 2%Z "N"%string);
    try reflexivity; try (cbn; lia).
  rewrite clean_pipeline_a_b. right; left. reflexivity.
Qed.

Lemma loadable_a_b : Forall (fun r => loadable r = true) [cleaned_a; cleaned_b].
Proof. repeat constructor; [exact loadable_cleaned_a|exact loadable_cleaned_b]. Qed.

(** A load of the two trips from a float64 vendor column returns. *)
Lemma save_to_database_a_b (db : database) :
  save_to_database true (all_zones [cleaned_a; cleaned_b])
    [cleaned_a; cleaned_b] db
  = (returned,
     load_rows true (all_zones [cleaned_a; cleaned_b]) [cleaned_a; cleaned_b] db).
Proof.
  apply save_to_database_accepted, load_accepted_loadable;
    [exact loadable_a_b|apply incl_refl].
Qed.

End Accepted.

(** ** What a load adds to the store *)

Section Growth.

Lemma unique_ext (A : Type) (eq_dec : forall a b : A, {a = b} + {a <> b})
    (l seen seen' : list A) :
  (forall a, In a seen <-> In a seen') ->
  unique eq_dec seen l = unique eq_dec seen' l.
Proof.
  revert seen seen'; induction l as [|b l IH]; intros seen seen' H; simpl;
    [reflexivity|].
  destruct (in_dec eq_dec b seen) as [Hb|Hb], (in_dec eq_dec b seen') as [Hb'|Hb'].
  - apply IH, H.
  - exfalso. apply Hb', H, Hb.
  - exfalso. apply Hb, H, Hb'.
  - f_equal. apply IH. intros a. simpl. rewrite H. tauto.
Qed.

Lemma NoDup_unique (A : Type) (eq_dec : forall a b : A, {a = b} + {a <> b})
    (l seen : list A) :
  NoDup (unique eq_dec seen l).
Proof.
  revert seen; induction l as [|b l IH]; intros seen; simpl; [constructor|].
  destruct (in_dec eq_dec b seen) as [Hb|Hb]; [apply IH|].
  constructor; [|apply IH]. rewrite In_unique. simpl. tauto.
Qed.

Lemma trip_present_In (i : string) (db : database) :
  trip_present i db <-> In i (map trips_id (trips db)).
Proof.
  unfold trip_present. rewrite existsb_exists, in_map_iff.
  split; intros (t & H1 & H2).
  - exists t. destruct (string_dec (trips_id t) i); [auto|discriminate].
  - exists t. split; [exact H2|]. destruct (string_dec (trips_id t) i); congruence.
Qed.

Lemma vendor_present_In (v : Z) (db : database) :
  vendor_present v db <-> In v (map vendors_vendor_id (vendors db)).
Proof.
  unfold vendor_present. rewrite existsb_exists, in_map_iff.
  split; intros (t & H1 & H2).
  - exists t. apply Z.eqb_eq in H2. auto.
  - exists t. split; [exact H2|]. now apply Z.eqb_eq.
Qed.

Lemma select_zone_id_zones (db db' : database) (cell : option string) :
  zones db' = zones db -> select_zone_id db' cell = select_zone_id db cell.
Proof. intros H. unfold select_zone_id. now rewrite H. Qed.

(** The loop of [insert_trips] appends, in the order of the frame, one row
    for each id of the frame that the table does not hold, made of the first
    row with that id and of the zone ids the table of zones gives for its
    two labels. *)
Lemma insert_trip_rows_appends (df : CleanedFrame) (db : database) :
  exists new,
    trips (insert_trip_rows df db) = trips db ++ new
    /\ map trips_id new
       = unique string_dec (map trips_id (trips db))
                (map (fun r => id (raw r)) df)
    /\ Forall (fun t => exists r,
                   In r df
                   /\ t = trips_row_of r (select_zone_id db (pickup_zone r))
                                       (select_zone_id db (dropoff_zone r))) new.
Proof.
  unfold insert_trip_rows. revert db.
  induction df as [|r df IH]; intros db; cbn [fold_left map unique].
  - exists []. rewrite app_nil_r. auto.
  - set (row := trips_row_of r (select_zone_id db (pickup_zone r))
                             (select_zone_id db (dropoff_zone r))).
    destruct (IH (execute_insert_trip row db)) as (new & Et & Eid & Hnew).
    assert (Hz : zones (execute_insert_trip row db) = zones db)
      by apply insert_trip_zones.
    assert (Hnew' : Forall (fun t => exists r0,
                       In r0 (r :: df)
                       /\ t = trips_row_of r0 (select_zone_id db (pickup_zone r0))
                                           (select_zone_id db (dropoff_zone r0))) new).
    { eapply Forall_impl; [|exact Hnew]. intros t (r0 & Hr0 & ->).
      exists r0. split; [right; exact Hr0|].
      now rewrite !(@select_zone_id_zones _ _ _ Hz). }
    destruct (in_dec string_dec (id (raw r)) (map trips_id (trips db))) as [Hin|Hin].
    + assert (E : execute_insert_trip row db = db)
        by (apply insert_trip_noop, trip_present_In; exact Hin).
      rewrite E in *. exists new. auto.
    + assert (E : trips (execute_insert_trip row db) = trips db ++ [row]).
      { unfold execute_insert_trip.
        destruct (existsb _ (trips db)) eqn:X; [|reflexivity].
        exfalso. apply Hin. apply trip_present_In. exact X. }
      rewrite E in Et, Eid. exists (row :: new). split; [|split].
      * rewrite Et, <- app_assoc. reflexivity.
      * cbn [map]. change (trips_id row) with (id (raw r)). f_equal.
        rewrite Eid. apply unique_ext. intros a.
        rewrite map_app, in_app_iff. simpl. tauto.
      * constructor; [|exact Hnew']. exists r. split; [left; reflexivity|reflexivity].
Qed.

Lemma insert_vendor_appends (v : Z) (name : string) (db : database) :
  exists new, vendors (execute_insert_vendor v name db) = vendors db ++ new.
Proof.
  unfold execute_insert_vendor. destruct (existsb _ _); cbn [vendors].
  - exists []. now rewrite app_nil_r.
  - eexists. reflexivity.
Qed.

Lemma insert_vendor_rows_appends (float_column : bool) (df : CleanedFrame)
    (db : database) :
  exists new, vendors (insert_vendor_rows float_column df db) = vendors db ++ new.
Proof.
  unfold insert_vendor_rows.
  generalize (unique Z.eq_dec [] (dropna_cells (map (fun r => vendor_id (raw r)) df))).
  intros l. revert db. induction l as [|v l IH]; intros db; simpl.
  - exists []. now rewrite app_nil_r.
  - destruct (IH (execute_insert_vendor v (vendor_name float_column v) db))
      as (new & ->).
    destruct (insert_vendor_appends v (vendor_name float_column v) db)
      as (new' & ->).
    exists (new' ++ new). now rewrite app_assoc.
Qed.

Lemma insert_vendor_rows_present (float_column : bool) (df : CleanedFrame)
    (db : database) (v : Z) :
  In v (unique Z.eq_dec [] (dropna_cells (map (fun r => vendor_id (raw r)) df))) ->
  vendor_present v (insert_vendor_rows float_column df db).
Proof.
  intros H. unfold insert_vendor_rows.
  apply (fold_vendors_present (vendor_name float_column)). right. exact H.
Qed.

Lemma insert_vendor_rows_noop (float_column : bool) (df : CleanedFrame)
    (db : database) :
  (forall v,
      In v (unique Z.eq_dec [] (dropna_cells (map (fun r => vendor_id (raw r)) df))) ->
      vendor_present v db) ->
  vendors (insert_vendor_rows float_column df db) = vendors db.
Proof.
  intros H. unfold insert_vendor_rows.
  apply (fold_vendors_noop (vendor_name float_column)). exact H.
Qed.

(** An upsert leaves every row its id and its name, in place. *)
Lemma upsert_zone_keys (name : string) (lat lon : float64) (count : nat)
    (db : database) :
  exists new,
    map (fun z => (zones_id z, zone_name z))
        (zones (execute_upsert_zone name lat lon count db))
    = map (fun z => (zones_id z, zone_name z)) (zones db) ++ new.
Proof.
  unfold execute_upsert_zone. cbn [zones]. destruct (existsb _ _).
  - exists []. rewrite app_nil_r, map_map. apply map_ext. intros z.
    destruct (zone_is name (Some (zone_name z))); reflexivity.
  - eexists. rewrite map_app. reflexivity.
Qed.

Lemma insert_zones_keys (iteration : list string) (df : CleanedFrame)
    (db : database) :
  exists new,
    map (fun z => (zones_id z, zone_name z)) (zones (insert_zones iteration df db))
    = map (fun z => (zones_id z, zone_name z)) (zones db) ++ new.
Proof.
  unfold insert_zones. revert db.
  induction iteration as [|z l IH]; intros db; simpl.
  - exists []. now rewrite app_nil_r.
  - destruct (IH (execute_upsert_zone z (avg_lat df z) (avg_lon df z)
                    (List.length (zone_trips df z)) db)) as (new & ->).
    destruct (upsert_zone_keys z (avg_lat df z) (avg_lon df z)
                (List.length (zone_trips df z)) db) as (new' & ->).
    exists (new' ++ new). now rewrite app_assoc.
Qed.

(** What a load adds, whether it returns or raises. *)
Lemma save_to_database_adds (float_column : bool)
    (iteration : list string) (df : CleanedFrame) (db : database)
    (result : outcome) (db' : database) :
  save_to_database float_column iteration df db = (result, db') ->
  exists loaded new_trips new_vendors new_zones,
    prefix loaded df
    /\ (result = returned -> loaded = df)
    /\ trips db' = trips db ++ new_trips
    /\ map trips_id new_trips
       = unique string_dec (map trips_id (trips db))
                (map (fun r => id (raw r)) loaded)
    /\ vendors db' = vendors db ++ new_vendors
    /\ map (fun z => (zones_id z, zone_name z)) (zones db')
       = map (fun z => (zones_id z, zone_name z)) (zones db) ++ new_zones.
Proof.
  intros E.
  destruct (save_to_database_cases _ _ _ _ E)
    as [(-> & V & Z & T & _)|[(-> & V & Z & T & _)|(-> & ->)]].
  - exists [], [], [], []. rewrite V, Z, T, !app_nil_r.
    repeat split; auto; [now exists df|discriminate].
  - destruct (insert_vendor_rows_appends float_column df db) as (nv & Ev).
    exists [], [], nv, []. rewrite V, Z, T, Ev, !app_nil_r.
    repeat split; auto; [now exists df|discriminate].
  - set (dbz := insert_zones iteration df (insert_vendor_rows float_column df db)).
    destruct (insert_trip_rows_appends (committed_rows df) dbz)
      as (nt & Et & Eid & _).
    destruct (insert_vendor_rows_appends float_column df db) as (nv & Ev).
    destruct (insert_zones_keys iteration df (insert_vendor_rows float_column df db))
      as (nz & Ez).
    subst dbz.
    rewrite insert_zones_trips, insert_vendor_rows_trips in Et, Eid.
    rewrite insert_vendor_rows_zones in Ez.
    exists (committed_rows df), nt, nv, nz.
    rewrite insert_trip_rows_vendors, insert_zones_vendors, insert_trip_rows_zones.
    repeat split; auto; [apply committed_rows_prefix|].
    destruct (existsb rejected df) eqn:R; [discriminate|].
    intros _. now apply committed_rows_all.
Qed.



Lemma find_zone_name (name : string) (rows : list zones_row) :
  (exists row, In row rows /\ zone_name row = name) ->
  exists row,
    find (fun z => zone_is name (Some (zone_name z))) rows = Some row
    /\ In row rows /\ zone_name row = name.
Proof.
  intros (row0 & Hin & Hname).
  destruct (find (fun z => zone_is name (Some (zone_name z))) rows) as [row|] eqn:F.
  - exists row. split; [reflexivity|]. apply find_some in F.
    destruct F as [H1 H2]. split; [exact H1|]. now apply zone_is_Some.
  - exfalso. pose proof (find_none _ _ F row0 Hin) as H. cbn beta in H.
    assert (zone_is name (Some (zone_name row0)) = true)
      by now apply zone_is_Some.
    congruence.
Qed.

Lemma prefix_In (A : Type) (l l' : list A) (a : A) :
  prefix l l' -> In a l -> In a l'.
Proof. intros [rest ->] H. apply in_or_app. now left. Qed.

(** X8: the foreign keys of the trips a load adds, whether it returns or
    raises after some slices.  Every trip row the load adds to the table
    holds, as pickup and as dropoff zone id, the id of a row of the zones
    table whose name is the zone label of the trip (never NULL for a trip
    that has a label), and its vendor, when it has one, has a row in the
    vendors table. *)
Theorem new_trips_reference_rows (float_column : bool)
    (iteration : list string) (df : CleanedFrame) (db : database)
    (result : outcome) (db' : database) (t : trips_row) :
  Permutation iteration (all_zones df) ->
  save_to_database float_column iteration df db = (result, db') ->
  In t (trips db') -> ~ In t (trips db) ->
  exists r,
    In r df /\ trips_id t = id (raw r)
    /\ (forall z, pickup_zone r = Some z ->
          exists row, In row (zones db') /\ zone_name row = z
                      /\ pickup_zone_id t = Some (zones_id row))
    /\ (forall z, dropoff_zone r = Some z ->
          exists row, In row (zones db') /\ zone_name row = z
                      /\ dropoff_zone_id t = Some (zones_id row))
    /\ (forall v, trips_vendor_id t = Some v -> vendor_present v db').
Proof.
  intros Hperm E Ht Hold.
  destruct (save_to_database_cases _ _ _ _ E)
    as [(_ & _ & _ & T & _)|[(_ & _ & _ & T & _)|(_ & ->)]];
    try (rewrite T in Ht; contradiction).
  set (dbz := insert_zones iteration df (insert_vendor_rows float_column df db))
    in *.
  destruct (insert_trip_rows_appends (committed_rows df) dbz)
    as (new & Et & _ & Hnew).
  rewrite Et in Ht. unfold dbz in Ht at 1.
  rewrite insert_zones_trips, insert_vendor_rows_trips in Ht.
  apply in_app_or in Ht. destruct Ht as [Ht|Ht]; [contradiction|].
  rewrite Forall_forall in Hnew. destruct (Hnew t Ht) as (r & Hr & ->).
  apply (@prefix_In _ _ _ r (committed_rows_prefix df)) in Hr.
  rewrite insert_trip_rows_zones.
  assert (Hzone : forall z, pickup_zone r = Some z \/ dropoff_zone r = Some z ->
                    exists row,
                      find (fun z0 => zone_is z (Some (zone_name z0))) (zones dbz)
                      = Some row
                      /\ In row (zones dbz) /\ zone_name row = z).
  { intros z Hz. apply find_zone_name.
    assert (Hin : In z iteration).
    { eapply Permutation_in; [apply Permutation_sym, Hperm|].
      apply all_zones_spec. exists r. auto. }
    destruct (@insert_zones_written iteration df
                (insert_vendor_rows float_column df db) z
                (or_intror Hin)) as (Hex & _).
    exact Hex. }
  exists r. split; [exact Hr|]. split; [reflexivity|]. split; [|split].
  - intros z Ez. destruct (Hzone z (or_introl Ez)) as (row & F & Hin & Hname).
    exists row. split; [exact Hin|]. split; [exact Hname|].
    cbn [trips_row_of pickup_zone_id]. rewrite Ez. unfold select_zone_id.
    now rewrite F.
  - intros z Ez. destruct (Hzone z (or_intror Ez)) as (row & F & Hin & Hname).
    exists row. split; [exact Hin|]. split; [exact Hname|].
    cbn [trips_row_of dropoff_zone_id]. rewrite Ez. unfold select_zone_id.
    now rewrite F.
  - intros v Ev. cbn [trips_row_of trips_vendor_id] in Ev.
    unfold vendor_present. rewrite insert_trip_rows_vendors. unfold dbz.
    rewrite insert_zones_vendors. apply insert_vendor_rows_present.
    apply In_unique. split; [|intros []]. apply In_dropna_cells.
    rewrite <- Ev. apply in_map_iff. exists r. auto.
Qed.

Lemma new_trips_reference_rows_witness :
  exists db' r,
    save_to_database true (all_zones [cleaned_a; cleaned_b])
      [cleaned_a; cleaned_b] database_b = (returned, db')
    /\ In r [cleaned_a; cleaned_b]
    /\ (forall z, pickup_zone r = Some z ->
          exists row, In row (zones db') /\ zone_name row = z
                      /\ Some 1%nat = Some (zones_id row)).
Proof.
  destruct (@new_trips_reference_rows true (all_zones [cleaned_a; cleaned_b])
              [cleaned_a; cleaned_b] database_b _ _
              (trips_row_of cleaned_a (Some 1%nat) (Some 4%nat))
              (Permutation_refl _) (save_to_database_a_b database_b))
    as (r & Hr & _ & Hp & _).
  - right. left. reflexivity.
  - intros [H|[]]. discriminate H.
  - eexists _, r. split; [apply save_to_database_a_b|]. split; [exact Hr|exact Hp].
Defined.

End Growth.

(** ** Loading a batch twice *)

Section Idempotence.

Lemma existsb_false_incl (A : Type) (f : A -> bool) (l l' : list A) :
  incl l' l -> existsb f l = false -> existsb f l' = false.
Proof.
  intros Hincl H. destruct (existsb f l') eqn:E; [|reflexivity].
  apply existsb_exists in E. destruct E as (a & Ha & Hf).
  assert (existsb f l = true) by (apply existsb_exists; exists a; auto).
  congruence.
Qed.

(** Whether a load returns does not depend on the order in which the set
    of zone names is walked. *)
Lemma load_accepted_order (float_column : bool) (iteration1 iteration2 : list string)
    (df : CleanedFrame) :
  Permutation iteration1 (all_zones df) ->
  Permutation iteration2 (all_zones df) ->
  load_accepted float_column iteration1 df = true ->
  load_accepted float_column iteration2 df = true.
Proof.
  intros H1 H2. unfold load_accepted. rewrite !andb_true_iff, !negb_true_iff.
  intros [[Hv Hz] Hr]. repeat split; auto.
  apply (@existsb_false_incl _ _ iteration1); [|exact Hz].
  intros z Hin. eapply Permutation_in; [apply Permutation_sym, H1|].
  eapply Permutation_in; [exact H2|exact Hin].
Qed.

Lemma load_rows_twice (float_column : bool) (iteration1 iteration2 : list string)
    (df : CleanedFrame) (db : database) :
  Permutation iteration1 (all_zones df) ->
  Permutation iteration2 (all_zones df) ->
  let once := load_rows float_column iteration1 df db in
  let twice := load_rows float_column iteration2 df once in
  trips twice = trips once
  /\ vendors twice = vendors once
  /\ zones twice = zones once.
Proof.
  intros Hp1 Hp2 once twice.
  assert (Htrips : insert_trip_rows df
                     (insert_zones iteration2 df
                        (insert_vendor_rows float_column df once))
                   = insert_zones iteration2 df
                       (insert_vendor_rows float_column df once)).
  { apply insert_trip_rows_noop. intros r Hr. unfold trip_present.
    rewrite insert_zones_trips, insert_vendor_rows_trips.
    apply insert_trip_rows_present. right. exact Hr. }
  assert (Hvendors : vendors (insert_vendor_rows float_column df once)
                     = vendors once).
  { apply insert_vendor_rows_noop. intros v Hv.
    unfold vendor_present, once, load_rows.
    rewrite insert_trip_rows_vendors, insert_zones_vendors.
    now apply insert_vendor_rows_present. }
  assert (Hzones : zones (insert_zones iteration2 df
                            (insert_vendor_rows float_column df once))
                   = zones once).
  { rewrite insert_zones_noop; [apply insert_vendor_rows_zones|].
    intros z Hz. rewrite insert_vendor_rows_zones.
    unfold once, load_rows. rewrite insert_trip_rows_zones.
    apply insert_zones_written. right.
    eapply Permutation_in; [apply Permutation_sym, Hp1|].
    eapply Permutation_in; [exact Hp2|exact Hz]. }
  unfold twice, load_rows at 1 2 3. rewrite Htrips.
  split; [|split].
  - now rewrite insert_zones_trips, insert_vendor_rows_trips.
  - now rewrite insert_zones_vendors.
  - exact Hzones.
Qed.

(** X19: loading a batch a second time.  When a load of the batch has
    returned, a second load of it returns too, and leaves the trips table,
    the vendors table and the zones table as the first load left them: the
    inserts skip the ids that are there, and each zone row of the batch is
    overwritten with the values computed from the batch being loaded.
    Whatever an earlier load wrote, after a load that returned the rows of
    the zones of the batch hold the mean coordinates and the count of that
    batch alone; nothing is added up.  [iteration1] and [iteration2] are the
    orders in which the two runs walk the set of zone labels. *)
Theorem save_to_database_twice (float_column : bool)
    (iteration1 iteration2 : list string) (df : CleanedFrame)
    (db once : database) :
  Permutation iteration1 (all_zones df) ->
  Permutation iteration2 (all_zones df) ->
  save_to_database float_column iteration1 df db = (returned, once) ->
  (exists twice,
      save_to_database float_column iteration2 df once = (returned, twice)
      /\ trips twice = trips once
      /\ vendors twice = vendors once
      /\ zones twice = zones once)
  /\ forall z row,
      In z (all_zones df) ->
      In row (zones once) ->
      zone_name row = z ->
      latitude row = avg_lat df z
      /\ longitude row = avg_lon df z
      /\ trip_count row = List.length (zone_trips df z).
Proof.
  intros Hp1 Hp2 E.
  apply save_to_database_returned in E. destruct E as [-> Hacc].
  split.
  - exists (load_rows float_column iteration2 df
              (load_rows float_column iteration1 df db)).
    split; [|now apply load_rows_twice].
    apply save_to_database_accepted.
    now apply (@load_accepted_order float_column iteration1 iteration2 df).
  - intros z row Hz Hrow Hname.
    unfold load_rows in Hrow. rewrite insert_trip_rows_zones in Hrow.
    assert (Hin : In z iteration1)
      by (eapply Permutation_in; [apply Permutation_sym, Hp1|exact Hz]).
    destruct (@insert_zones_written iteration1 df
                (insert_vendor_rows float_column df db) z
                (or_intror Hin)) as (_ & Hall).
    destruct (Hall row Hrow Hname) as (H1 & H2 & H3).
    rewrite Hname in H1, H2, H3. auto.
Qed.

Lemma save_to_database_twice_witness :
  let df := [cleaned_a; cleaned_b] in
  exists once twice,
    save_to_database true (all_zones df) df database_b = (returned, once)
    /\ save_to_database true (all_zones df) df once = (returned, twice)
    /\ trips twice = trips once /\ vendors twice = vendors once
    /\ zones twice = zones once.
Proof.
  intros df.
  destruct (@save_to_database_twice true (all_zones df) (all_zones df) df
              database_b _ (Permutation_refl _) (Permutation_refl _)
              (save_to_database_a_b database_b)) as [(twice & H) _].
  eexists _, twice. split; [apply save_to_database_a_b|exact H].
Defined.

End Idempotence.

(** * The constraints of the schema are kept *)

Section Schema.

Lemma NoDup_snoc (A : Type) (l : list A) (a : A) :
  NoDup l -> ~ In a l -> NoDup (l ++ [a]).
Proof.
  intros Hl Ha. apply NoDup_app; [exact Hl|repeat constructor; intros []|].
  intros b Hb [<-|[]]. exact (Ha Hb).
Qed.

Lemma serial_fresh (A : Type) (ident : A -> nat) (rows : list A) (seq : nat) :
  Forall (fun r => (ident r <= seq)%nat) rows -> ~ In (S seq) (map ident rows).
Proof.
  intros H Hin. apply in_map_iff in Hin. destruct Hin as (r & E & Hr).
  rewrite Forall_forall in H. specialize (H r Hr). lia.
Qed.

Lemma insert_vendor_holds (v : Z) (name : string) (db : database) :
  vendors_hold db -> vendors_hold (execute_insert_vendor v name db).
Proof.
  intros (H1 & H2 & H3). unfold vendors_hold, execute_insert_vendor.
  destruct (existsb (fun row => (vendors_vendor_id row =? v)%Z) (vendors db))
    eqn:E; cbn [vendors vendors_id_seq].
  - split; [exact H1|]. split; [exact H2|].
    eapply Forall_impl; [|exact H3]. intros; cbv beta in *. lia.
  - rewrite !map_app. cbn [map vendors_vendor_id vendors_id].
    split; [|split].
    + apply NoDup_snoc; [exact H1|]. intros Hin.
      assert (vendor_present v db) by (apply vendor_present_In; exact Hin).
      unfold vendor_present in H. congruence.
    + apply NoDup_snoc; [exact H2|]. now apply serial_fresh.
    + apply Forall_app. split.
      * eapply Forall_impl; [|exact H3]. intros; cbv beta in *. lia.
      * repeat constructor.
Qed.

Lemma upsert_zone_holds (name : string) (lat lon : float64) (count : nat)
    (db : database) :
  zones_hold db -> zones_hold (execute_upsert_zone name lat lon count db).
Proof.
  intros (H1 & H2 & H3). unfold zones_hold, execute_upsert_zone.
  cbn [zones zones_id_seq].
  destruct (existsb (fun z => zone_is name (Some (zone_name z))) (zones db)) eqn:E.
  - assert (Hn : forall g : zones_row -> zones_row,
               (forall z, zone_name (g z) = zone_name z) ->
               map zone_name (map g (zones db)) = map zone_name (zones db))
      by (intros g Hg; rewrite map_map; apply map_ext; exact Hg).
    assert (Hi : forall g : zones_row -> zones_row,
               (forall z, zones_id (g z) = zones_id z) ->
               map zones_id (map g (zones db)) = map zones_id (zones db))
      by (intros g Hg; rewrite map_map; apply map_ext; exact Hg).
    rewrite Hn, Hi;
      try (intros z; destruct (zone_is name (Some (zone_name z))); reflexivity).
    split; [exact H1|]. split; [exact H2|].
    apply Forall_forall. intros z Hz. apply in_map_iff in Hz.
    destruct Hz as (z0 & <- & Hz0). rewrite Forall_forall in H3.
    specialize (H3 z0 Hz0).
    destruct (zone_is name (Some (zone_name z0))); cbn [zones_id]; lia.
  - rewrite !map_app. cbn [map zone_name zones_id].
    split; [|split].
    + apply NoDup_snoc; [exact H1|]. intros Hin. apply in_map_iff in Hin.
      destruct Hin as (z & Hz & Hin).
      assert (existsb (fun z => zone_is name (Some (zone_name z))) (zones db) = true);
        [|congruence].
      apply existsb_exists. exists z. split; [exact Hin|]. now apply zone_is_Some.
    + apply NoDup_snoc; [exact H2|]. now apply serial_fresh.
    + apply Forall_app. split.
      * eapply Forall_impl; [|exact H3]. intros; cbv beta in *. lia.
      * repeat constructor.
Qed.

Lemma fold_left_invariant (A S : Type) (step : S -> A -> S) (P : S -> Prop) :
  (forall s a, P s -> P (step s a)) ->
  forall l s, P s -> P (fold_left step l s).
Proof.
  intros H l. induction l as [|a l IH]; intros s Hs; simpl; auto.
Qed.

Lemma insert_trip_seqs (row : trips_row) (db : database) :
  vendors_id_seq (execute_insert_trip row db) = vendors_id_seq db
  /\ zones_id_seq (execute_insert_trip row db) = zones_id_seq db.
Proof. unfold execute_insert_trip. destruct (existsb _ _); auto. Qed.

Lemma insert_trip_holds (row : trips_row) (db : database) :
  vendors_hold db /\ zones_hold db ->
  vendors_hold (execute_insert_trip row db)
  /\ zones_hold (execute_insert_trip row db).
Proof.
  unfold vendors_hold, zones_hold.
  destruct (insert_trip_seqs row db) as [-> ->].
  now rewrite insert_trip_vendors, insert_trip_zones.
Qed.

Lemma upsert_zone_vendors_hold (name : string) (lat lon : float64)
    (count : nat) (db : database) :
  vendors_hold db -> vendors_hold (execute_upsert_zone name lat lon count db).
Proof. exact (fun H => H). Qed.

Lemma insert_vendor_zones_hold (v : Z) (name : string) (db : database) :
  zones_hold db -> zones_hold (execute_insert_vendor v name db).
Proof.
  unfold zones_hold. rewrite insert_vendor_zones.
  unfold execute_insert_vendor. destruct (existsb _ _); auto.
Qed.

Lemma NoDup_app_unique (A : Type) (eq_dec : forall a b : A, {a = b} + {a <> b})
    (seen l : list A) :
  NoDup seen -> NoDup (seen ++ unique eq_dec seen l).
Proof.
  intros H. apply NoDup_app; [exact H|apply NoDup_unique|].
  intros a Ha Hu. apply In_unique in Hu. tauto.
Qed.

Lemma insert_vendor_rows_hold (float_column : bool) (df : CleanedFrame)
    (db : database) :
  vendors_hold db /\ zones_hold db ->
  vendors_hold (insert_vendor_rows float_column df db)
  /\ zones_hold (insert_vendor_rows float_column df db).
Proof.
  unfold insert_vendor_rows.
  apply (@fold_left_invariant Z database _
           (fun db => vendors_hold db /\ zones_hold db)).
  intros s a [Hs1 Hs2]. split;
    [apply insert_vendor_holds|apply insert_vendor_zones_hold]; assumption.
Qed.

Lemma insert_zones_hold (iteration : list string) (df : CleanedFrame)
    (db : database) :
  vendors_hold db /\ zones_hold db ->
  vendors_hold (insert_zones iteration df db)
  /\ zones_hold (insert_zones iteration df db).
Proof.
  unfold insert_zones.
  apply (@fold_left_invariant string database _
           (fun db => vendors_hold db /\ zones_hold db)).
  intros s a [Hs1 Hs2]. split;
    [apply upsert_zone_vendors_hold|apply upsert_zone_holds]; assumption.
Qed.

Lemma insert_trip_rows_hold (df : CleanedFrame) (db : database) :
  vendors_hold db /\ zones_hold db ->
  vendors_hold (insert_trip_rows df db) /\ zones_hold (insert_trip_rows df db).
Proof.
  unfold insert_trip_rows.
  apply (@fold_left_invariant cleaned_trip database _
           (fun db => vendors_hold db /\ zones_hold db)).
  intros s a Hs. apply insert_trip_holds, Hs.
Qed.

(** X9: a load keeps the constraints of the schema, whether it returns or
    raises.  On a store on which they hold, [save_to_database] leaves a
    store on which they hold: no two trips with one id, no two vendors with
    one vendor id, no two zones with one name, and no id of a vendor or of a
    zone given twice. *)
Theorem save_to_database_keeps_schema (float_column : bool)
    (iteration : list string) (df : CleanedFrame) (db : database)
    (result : outcome) (db' : database) :
  schema_holds db ->
  save_to_database float_column iteration df db = (result, db') ->
  schema_holds db'.
Proof.
  intros (T & V & Hzones) E.
  pose proof (insert_vendor_rows_hold float_column df (conj V Hzones)) as Hv.
  destruct (save_to_database_cases _ _ _ _ E)
    as [(_ & V1 & Z1 & T1 & S1 & S2)|[(_ & V1 & Z1 & T1 & S1 & S2)|(_ & ->)]].
  - unfold schema_holds, vendors_hold, zones_hold in *.
    rewrite V1, Z1, T1, S2.
    destruct V as (A1 & A2 & A3), Hzones as (C1 & C2 & C3).
    repeat split; auto.
    eapply Forall_impl; [|exact A3]. intros; cbv beta in *. lia.
  - destruct Hv as [(A1 & A2 & A3) _].
    unfold schema_holds, vendors_hold, zones_hold in *.
    rewrite V1, Z1, T1, S1.
    destruct Hzones as (C1 & C2 & C3).
    repeat split; auto.
    eapply Forall_impl; [|exact C3]. intros; cbv beta in *. lia.
  - pose proof (insert_zones_hold iteration df Hv) as Hz.
    pose proof (insert_trip_rows_hold (committed_rows df) Hz) as Ht.
    unfold schema_holds. split; [|exact Ht].
    destruct (insert_trip_rows_appends (committed_rows df)
                (insert_zones iteration df
                   (insert_vendor_rows float_column df db)))
      as (new & -> & Eid & _).
    rewrite insert_zones_trips, insert_vendor_rows_trips in *.
    rewrite map_app, Eid. now apply NoDup_app_unique.
Qed.

Lemma schema_holds_database_b : schema_holds database_b.
Proof.
  unfold schema_holds, vendors_hold, zones_hold. cbn.
  repeat split; repeat constructor; simpl; tauto.
Qed.

Lemma save_to_database_keeps_schema_witness :
  exists db',
    save_to_database true (all_zones [cleaned_a; cleaned_b])
      [cleaned_a; cleaned_b] database_b = (returned, db')
    /\ schema_holds db'.
Proof.
  eexists. split; [apply save_to_database_a_b|].
  apply (@save_to_database_keeps_schema true _ _ database_b returned _
           schema_holds_database_b (save_to_database_a_b database_b)).
Defined.

End Schema.

(** * The files: [clean_all_data_and_save] and [process_data_if_needed] *)

Section Files.

Lemma calculate_derived_features_nonempty (df : DataFrame)
    (excluded_records ledger' : ledger) (out : CleanedFrame) :
  calculate_derived_features df excluded_records = (Some out, ledger') ->
  out <> [].
Proof.
  intros H Hout. pose proof (calculate_derived_features_Some _ _ H) as (Hraw & _).
  rewrite Hout in Hraw. symmetry in Hraw.
  pose proof (calculate_derived_features_empty df excluded_records Hraw) as Hn.
  rewrite H in Hn. discriminate.
Qed.

Lemma subsequence_length (A : Type) (s l : list A) :
  subsequence s l -> (List.length s <= List.length l)%nat.
Proof. induction 1; simpl; lia. Qed.

Lemma clean_pipeline_length (df : DataFrame) (excluded_records ledger' : ledger)
    (out : CleanedFrame) :
  clean_pipeline df excluded_records = (Some out, ledger') ->
  (1 <= List.length out <= List.length df)%nat
  /\ subsequence (map raw out) df.
Proof.
  rewrite clean_pipeline_unfold. intros H.
  pose proof (calculate_derived_features_nonempty _ _ H) as Hne.
  pose proof (calculate_derived_features_Some _ _ H) as (Hraw & _).
  assert (Hs : subsequence (map raw out) df).
  { rewrite Hraw.
    eapply subsequence_trans; [apply subsequence_filter|].
    eapply subsequence_trans; [apply clean_data_subsequence|].
    apply drop_duplicates_seen_subsequence. }
  split; [|exact Hs]. apply subsequence_length in Hs. rewrite length_map in Hs.
  destruct out; [congruence|]. simpl in *. lia.
Qed.

Lemma clean_all_data_and_save_unfold (max_records : nat) (w : world) :
  clean_all_data_and_save max_records w
  = match train_csv w with
    | None => (None, w)
    | Some rows =>
        let df := firstn max_records rows in
        let run := clean_pipeline df (self_excluded_records w) in
        match fst run with
        | None => (None, with_excluded_records (snd run) w)
        | Some out =>
            (Some (List.length out),
             save_excluded_records
               (with_cleaned_dataset_csv
                  {| vendor_id_float :=
                       existsb (fun r => missing (vendor_id r)) df;
                     cleaned_rows := out |}
                  (with_excluded_records (snd run) w)))
        end
    end.
Proof.
  unfold clean_all_data_and_save, load_data, clean_pipeline.
  destruct (train_csv w) as [rows|]; [|reflexivity]. cbv zeta.
  destruct (clean_data _ _) as [df led].
  destruct (calculate_derived_features df led) as [[out|] led']; reflexivity.
Qed.

Lemma save_excluded_records_keeps (w : world) :
  self_excluded_records (save_excluded_records w) = self_excluded_records w
  /\ train_csv (save_excluded_records w) = train_csv w
  /\ cleaned_dataset_csv (save_excluded_records w) = cleaned_dataset_csv w
  /\ store (save_excluded_records w) = store w.
Proof.
  unfold save_excluded_records.
  destruct (self_excluded_records w) eqn:E; cbn; auto.
Qed.

(** X11: what [clean_all_data_and_save] leaves behind.  It never touches
    [train.csv] or the store.  When it returns, [cleaned_dataset.csv] holds
    the cleaned output of the first [max_records] rows of [train.csv], the
    number returned is the number of rows of that file and lies between 1 and
    [max_records], and [excluded_records.txt] holds the ledger, one id a
    line; it is left as it was when the ledger is empty. *)
Theorem clean_all_data_and_save_files (max_records : nat) (w : world) :
  let result := fst (clean_all_data_and_save max_records w) in
  let w' := snd (clean_all_data_and_save max_records w) in
  train_csv w' = train_csv w /\ store w' = store w
  /\ forall final_count,
      result = Some final_count ->
      exists rows out,
        train_csv w = Some rows
        /\ fst (clean_pipeline (firstn max_records rows)
                  (self_excluded_records w)) = Some out
        /\ option_map cleaned_rows (cleaned_dataset_csv w') = Some out
        /\ final_count = List.length out
        /\ (1 <= final_count <= max_records)%nat
        /\ excluded_records_txt w'
           = match self_excluded_records w' with
             | [] => excluded_records_txt w
             | _ :: _ => Some (join_lines (self_excluded_records w'))
             end.
Proof.
  cbv zeta. rewrite clean_all_data_and_save_unfold.
  destruct (train_csv w) as [rows|] eqn:T;
    [|cbn [fst snd]; repeat split; auto; discriminate].
  cbv zeta.
  destruct (clean_pipeline (firstn max_records rows) (self_excluded_records w))
    as [[out|] led'] eqn:E; cbn [fst snd].
  - destruct (save_excluded_records_keeps
                (with_cleaned_dataset_csv
                   {| vendor_id_float :=
                        existsb (fun r => missing (vendor_id r))
                                (firstn max_records rows);
                      cleaned_rows := out |}
                   (with_excluded_records led' w))) as (H1 & H2 & H3 & H4).
    rewrite H2, H3, H4, H1. cbn [with_cleaned_dataset_csv with_excluded_records
      train_csv store cleaned_dataset_csv self_excluded_records option_map
      cleaned_rows].
    split; [exact T|]. split; [reflexivity|].
    intros final_count Hn. injection Hn as <-.
    exists rows, out. split; [reflexivity|]. split; [now rewrite E|].
    split; [reflexivity|]. split; [reflexivity|]. split.
    + destruct (clean_pipeline_length _ _ E) as [Hlen _].
      pose proof (firstn_le_length max_records rows).
      rewrite length_firstn in Hlen. lia.
    + unfold save_excluded_records.
      cbn [with_cleaned_dataset_csv with_excluded_records self_excluded_records].
      destruct led'; reflexivity.
  - cbn [with_excluded_records train_csv store]. repeat split; auto.
    discriminate.
Qed.

Lemma clean_pipeline_raw_float :
  clean_pipeline [trip_a; trip_b; trip_unknown_vendor] []
  = (Some [cleaned_a; cleaned_b], ["id0000005"]%string).
Proof.
  unfold clean_pipeline.
  assert (E : clean_data [trip_a; trip_b; trip_unknown_vendor] []
              = ([trip_a; trip_b], ["id0000005"]%string)).
  { unfold clean_data.
    change (dropna (drop_duplicates [trip_a; trip_b; trip_unknown_vendor]))
      with [trip_a; trip_b; trip_unknown_vendor].
    rewrite exclude_none by (repeat constructor).
    rewrite exclude_none
      by (repeat constructor;
          auto using invalid_coords_trip_a, invalid_coords_trip_b;
          exact invalid_coords_trip_b).
    unfold exclude at 2. cbn [filter].
    rewrite invalid_duration_trip_a, invalid_duration_trip_b.
    assert (Hs : invalid_duration trip_unknown_vendor = true).
    { unfold invalid_duration, gt, lt, trip_unknown_vendor; cbn [trip_duration].
      rewrite (@Rltb_true 30 60) by lra. apply orb_true_r. }
    rewrite Hs. cbn [negb map app].
    rewrite exclude_none
      by (repeat constructor;
          auto using invalid_passengers_trip_a, invalid_passengers_trip_b).
    reflexivity. }
  rewrite E. apply calculate_derived_features_a_b.
Qed.

Lemma clean_all_data_and_save_raw_float :
  clean_all_data_and_save default_max_records world_raw_float
  = (Some 2%nat, world_cleaned_float).
Proof.
  rewrite clean_all_data_and_save_unfold.
  change (train_csv world_raw_float)
    with (Some [trip_a; trip_b; trip_unknown_vendor]).
  cbv zeta iota beta.
  change (firstn default_max_records [trip_a; trip_b; trip_unknown_vendor])
    with [trip_a; trip_b; trip_unknown_vendor].
  change (self_excluded_records world_raw_float) with (@nil string).
  rewrite clean_pipeline_raw_float. reflexivity.
Qed.

Lemma clean_all_data_and_save_files_witness :
  exists out,
    option_map cleaned_rows (cleaned_dataset_csv world_cleaned_float) = Some out
    /\ 2%nat = List.length out
    /\ excluded_records_txt world_cleaned_float
       = Some (join_lines (self_excluded_records world_cleaned_float)).
Proof.
  pose proof (clean_all_data_and_save_files default_max_records world_raw_float)
    as H.
  cbv zeta in H. rewrite clean_all_data_and_save_raw_float in H.
  cbn [fst snd] in H. destruct H as (_ & _ & H).
  destruct (H 2%nat eq_refl) as (rows & out & _ & _ & Hout & Hn & _ & Htxt).
  exists out. split; [exact Hout|]. split; [exact Hn|exact Htxt].
Defined.

(** The run appends to the ledger, and by the same ids whatever the ledger
    held; the frame it returns does not depend on the ledger. *)
Lemma clean_pipeline_appends (df : DataFrame) (excluded_records : ledger) :
  fst (clean_pipeline df excluded_records) = fst (clean_pipeline df [])
  /\ snd (clean_pipeline df excluded_records)
     = excluded_records ++ snd (clean_pipeline df []).
Proof.
  assert (Hc : forall l, fst (clean_data df l) = fst (clean_data df [])
                         /\ snd (clean_data df l) = l ++ snd (clean_data df [])).
  { intros l. unfold clean_data, exclude. cbn [fst snd].
    split; [reflexivity|]. rewrite <- !app_assoc. reflexivity. }
  assert (Hf : forall d l, fst (calculate_derived_features d l)
                           = fst (calculate_derived_features d [])).
  { intros d l. unfold calculate_derived_features, exclude.
    destruct (create_zones _ _); [|reflexivity].
    destruct (create_zones _ _); reflexivity. }
  rewrite !clean_pipeline_unfold, !calculate_derived_features_ledger.
  destruct (Hc excluded_records) as [-> ->]. split.
  - rewrite Hf. symmetry. apply Hf.
  - rewrite <- !app_assoc. reflexivity.
Qed.

(** X12: the ledger is never reset.  A second [clean_all_data_and_save] on
    the same processor writes the same [cleaned_dataset.csv] and returns the
    same count, and leaves every id the first run logged twice in the
    ledger, and so twice in [excluded_records.txt], which holds the ledger,
    one id a line. *)
Theorem clean_all_data_and_save_again (max_records : nat) (w w1 : world)
    (final_count : nat) :
  clean_all_data_and_save max_records w = (Some final_count, w1) ->
  exists appended w2,
    self_excluded_records w1 = self_excluded_records w ++ appended
    /\ clean_all_data_and_save max_records w1 = (Some final_count, w2)
    /\ cleaned_dataset_csv w2 = cleaned_dataset_csv w1
    /\ self_excluded_records w2
       = self_excluded_records w ++ appended ++ appended
    /\ excluded_records_txt w2
       = match self_excluded_records w2 with
         | [] => excluded_records_txt w1
         | _ :: _ => Some (join_lines (self_excluded_records w2))
         end.
Proof.
  rewrite clean_all_data_and_save_unfold.
  destruct (train_csv w) as [rows|] eqn:T; [|discriminate]. cbv zeta.
  set (df := firstn max_records rows).
  destruct (clean_pipeline_appends df (self_excluded_records w)) as [Hf Hs].
  destruct (fst (clean_pipeline df (self_excluded_records w))) as [out|] eqn:E;
    [|discriminate].
  intros H. injection H as <- <-.
  set (w1 := save_excluded_records _).
  destruct (save_excluded_records_keeps
              (with_cleaned_dataset_csv
                 {| vendor_id_float := existsb (fun r => missing (vendor_id r)) df;
                    cleaned_rows := out |}
                 (with_excluded_records
                    (snd (clean_pipeline df (self_excluded_records w))) w)))
    as (H1 & H2 & H3 & H4).
  fold w1 in H1, H2, H3, H4.
  cbn [with_cleaned_dataset_csv with_excluded_records self_excluded_records
    train_csv cleaned_dataset_csv store] in H1, H2, H3, H4.
  exists (snd (clean_pipeline df [])).
  rewrite clean_all_data_and_save_unfold, H2, T. cbv zeta. fold df.
  destruct (clean_pipeline_appends df (self_excluded_records w1)) as [Hf1 Hs1].
  rewrite Hf1, <- Hf. eexists. split; [now rewrite H1, Hs|].
  split; [reflexivity|].
  destruct (save_excluded_records_keeps
              (with_cleaned_dataset_csv
                 {| vendor_id_float := existsb (fun r => missing (vendor_id r)) df;
                    cleaned_rows := out |}
                 (with_excluded_records
                    (snd (clean_pipeline df (self_excluded_records w1))) w1)))
    as (G1 & _ & G3 & _).
  rewrite G1, G3, H3.
  cbn [with_cleaned_dataset_csv with_excluded_records self_excluded_records
    cleaned_dataset_csv].
  split; [reflexivity|]. split; [rewrite Hs1, H1, Hs, <- app_assoc; reflexivity|].
  unfold save_excluded_records.
  cbn [with_cleaned_dataset_csv with_excluded_records self_excluded_records].
  destruct (snd (clean_pipeline df (self_excluded_records w1))); reflexivity.
Qed.

Lemma clean_all_data_and_save_again_witness :
  exists w2,
    clean_all_data_and_save default_max_records world_cleaned_float
    = (Some 2%nat, w2)
    /\ self_excluded_records w2 = ["id0000005"; "id0000005"]%string
    /\ excluded_records_txt w2
       = Some (join_lines ["id0000005"; "id0000005"]%string).
Proof.
  destruct (@clean_all_data_and_save_again default_max_records world_raw_float
              world_cleaned_float 2 clean_all_data_and_save_raw_float)
    as (appended & w2 & Happ & E & _ & Hled & Htxt).
  assert (Ha : appended = ["id0000005"]%string) by exact (eq_sym Happ).
  subst appended. exists w2. split; [exact E|].
  cbn [self_excluded_records world_raw_float app] in Hled.
  split; [exact Hled|]. now rewrite Hled in Htxt.
Defined.

End Files.

Section Startup.

Variable set_order : list string -> list string.
Hypothesis set_order_members : forall l, Permutation (set_order l) l.

Lemma save_unfold (float_column : bool) (order : list string -> list string)
    (df : CleanedFrame) (w : world) :
  save float_column order df w
  = (fst (save_to_database float_column (order (all_zones df)) df (store w)),
     with_store
       (snd (save_to_database float_column (order (all_zones df)) df (store w)))
       w).
Proof. unfold save. now destruct (save_to_database _ _ _ _). Qed.

Lemma length_unique_le (A : Type) (eq_dec : forall a b : A, {a = b} + {a <> b})
    (l seen : list A) :
  (List.length (unique eq_dec seen l) <= List.length l)%nat.
Proof.
  revert seen; induction l as [|a l IH]; intros seen; simpl; [lia|].
  destruct (in_dec eq_dec a seen); simpl; [specialize (IH seen)|
    specialize (IH (a :: seen))]; lia.
Qed.

Lemma load_rows_present (float_column : bool) (iteration : list string)
    (df : CleanedFrame) (db : database) (r : cleaned_trip) :
  trip_present (id (raw r)) db \/ In r df ->
  trip_present (id (raw r)) (load_rows float_column iteration df db).
Proof.
  intros H. unfold load_rows. apply insert_trip_rows_present.
  destruct H as [H|H]; [left|right; exact H].
  unfold trip_present. now rewrite insert_zones_trips, insert_vendor_rows_trips.
Qed.

Lemma load_rows_exists (float_column : bool) (iteration : list string)
    (df : CleanedFrame) (db : database) :
  df <> [] ->
  Database.check_data_exists (load_rows float_column iteration df db) = true.
Proof.
  destruct df as [|r df]; [congruence|]. intros _.
  pose proof (@load_rows_present float_column iteration (r :: df) db r
                (or_intror (or_introl eq_refl))) as H.
  unfold trip_present in H. unfold Database.check_data_exists.
  destruct (trips (load_rows float_column iteration (r :: df) db));
    [discriminate|reflexivity].
Qed.

(** A load brings at most one trip for each row of the frame. *)
Lemma save_to_database_length (float_column : bool) (iteration : list string)
    (df : CleanedFrame) (db : database) :
  (List.length (trips (snd (save_to_database float_column iteration df db)))
   <= List.length (trips db) + List.length df)%nat.
Proof.
  destruct (save_to_database float_column iteration df db) as [o db'] eqn:E.
  cbn [snd].
  destruct (save_to_database_adds _ _ _ _ E)
    as (loaded & nt & nv & nz & [rest Hp] & _ & Ht & Eid & _).
  rewrite Ht, length_app, <- (length_map trips_id nt), Eid.
  pose proof (length_unique_le string_dec (map (fun r => id (raw r)) loaded)
                (map trips_id (trips db))) as L.
  rewrite length_map in L. rewrite Hp, length_app. lia.
Qed.

(** X13: [process_data_if_needed] is idempotent.  After a call that
    returned, a second call changes nothing: not the store, not a file, not
    the ledger. *)
Theorem process_data_if_needed_idempotent (w w' : world) :
  process_data_if_needed set_order w = (Some tt, w') ->
  process_data_if_needed set_order w' = (Some tt, w').
Proof.
  unfold process_data_if_needed at 1.
  destruct (Database.check_data_exists (store w)) eqn:C; cbn [negb].
  { intros H. apply (f_equal snd) in H. cbn [snd] in H. subst w'.
    unfold process_data_if_needed. now rewrite C. }
  destruct (cleaned_dataset_csv w) as [f|] eqn:F.
  - unfold load_cleaned_data. rewrite F, save_unfold.
    destruct (save_to_database _ _ _ (store w)) as [[|] db] eqn:E;
      cbn [fst snd]; [|discriminate].
    intros H. apply (f_equal snd) in H. cbn [snd] in H. subst w'.
    pose proof (save_to_database_returned _ _ _ _ E) as [Edb _].
    destruct (firstn default_max_records (cleaned_rows f)) as [|r df] eqn:D.
    + change (all_zones []) with (@nil string) in *.
      rewrite (Permutation_nil (Permutation_sym (set_order_members []))) in *.
      assert (Hdb : db = store w) by (rewrite Edb; reflexivity).
      clear Edb. subst db.
      unfold process_data_if_needed, load_cleaned_data.
      cbn [with_store store cleaned_dataset_csv]. rewrite C, F, D.
      cbn [negb]. rewrite save_unfold.
      change (all_zones []) with (@nil string).
      rewrite (Permutation_nil (Permutation_sym (set_order_members []))).
      cbn [with_store store]. rewrite E. reflexivity.
    + unfold process_data_if_needed. cbn [with_store store].
      rewrite Edb, load_rows_exists by discriminate. reflexivity.
  - unfold load_data. destruct (train_csv w) as [rows|]; [|discriminate].
    destruct (clean_data _ _) as [df led].
    destruct (calculate_derived_features df led) as [[out|] led'] eqn:Ec;
      [|discriminate].
    rewrite save_unfold.
    destruct (save_to_database _ _ out _) as [[|] db] eqn:E;
      cbn [fst snd]; [|discriminate].
    intros H. apply (f_equal snd) in H. cbn [snd] in H. subst w'.
    pose proof (save_to_database_returned _ _ _ _ E) as [Edb _].
    unfold process_data_if_needed.
    destruct (save_excluded_records_keeps
                (with_store db (with_excluded_records led' w)))
      as (_ & _ & _ & ->).
    cbn [with_store store].
    rewrite Edb, load_rows_exists; [reflexivity|].
    eapply calculate_derived_features_nonempty, Ec.
Qed.

(** X14: [process_data_if_needed] brings an empty store to at most 5000
    trips ([default_max_records]), whatever the size of the files. *)
Theorem process_data_if_needed_limit (w : world) :
  Database.check_data_exists (store w) = false ->
  (List.length (trips (store (snd (process_data_if_needed set_order w))))
   <= default_max_records)%nat.
Proof.
  intros C.
  assert (H0 : trips (store w) = []).
  { unfold Database.check_data_exists in C.
    destruct (trips (store w)); [reflexivity|discriminate]. }
  assert (Hsave : forall fl df w0,
             trips (store w0) = [] ->
             (List.length df <= default_max_records)%nat ->
             (List.length (trips (store (snd (save fl set_order df w0))))
              <= default_max_records)%nat).
  { intros fl df w0 Hdb Hlen. rewrite save_unfold. cbn [snd with_store store].
    pose proof (save_to_database_length fl (set_order (all_zones df)) df
                  (store w0)) as L.
    rewrite Hdb in L. cbn [List.length] in L. lia. }
  unfold process_data_if_needed. rewrite C. cbn [negb].
  destruct (cleaned_dataset_csv w) as [f|] eqn:F.
  - unfold load_cleaned_data. rewrite F.
    specialize (Hsave (float_column_of f default_max_records)
                  (firstn default_max_records (cleaned_rows f)) w H0).
    destruct (save _ _ _ w) as [[|] w1]; cbn [snd] in *; apply Hsave;
      rewrite length_firstn; lia.
  - unfold load_data. destruct (train_csv w) as [rows|];
      [|cbn [snd]; rewrite H0; simpl; lia].
    destruct (clean_data _ _) as [df led] eqn:Ec.
    destruct (calculate_derived_features df led) as [[out|] led'] eqn:E.
    + assert (Hp : clean_pipeline (firstn default_max_records rows)
                     (self_excluded_records w) = (Some out, led')).
      { unfold clean_pipeline. rewrite Ec. exact E. }
      destruct (clean_pipeline_length _ _ Hp) as [Hlen _].
      rewrite length_firstn in Hlen.
      specialize (Hsave (existsb (fun r => missing (vendor_id r))
                                 (firstn default_max_records rows))
                    out (with_excluded_records led' w) H0).
      destruct (save _ _ out _) as [[|] w1]; cbn [snd] in *.
      * destruct (save_excluded_records_keeps w1) as (_ & _ & _ & ->).
        apply Hsave. lia.
      * apply Hsave. lia.
    + cbn [snd with_excluded_records store]. rewrite H0. simpl. lia.
Qed.

(** With [cleaned_dataset.csv] beside an empty store, the vendor cells of
    the file written with a decimal point and its rows loadable, the call
    loads the first 5000 rows of the file. *)
Lemma process_data_if_needed_cleaned (w : world) (f : cleaned_csv) :
  Database.check_data_exists (store w) = false ->
  cleaned_dataset_csv w = Some f ->
  vendor_id_float f = true ->
  Forall (fun r => loadable r = true) (cleaned_rows f) ->
  let df := firstn default_max_records (cleaned_rows f) in
  process_data_if_needed set_order w
  = (Some tt,
     with_store (load_rows true (set_order (all_zones df)) df (store w)) w).
Proof.
  intros C F Hfloat Hrows df.
  unfold process_data_if_needed, load_cleaned_data. rewrite C, F. cbn [negb].
  unfold float_column_of. rewrite Hfloat. cbn [orb]. fold df.
  rewrite save_unfold, save_to_database_accepted; [reflexivity|].
  apply load_accepted_loadable; [now apply loadable_firstn|].
  intros z Hz. eapply Permutation_in; [apply set_order_members|exact Hz].
Qed.

End Startup.

Lemma insertion_order_members (l : list string) :
  Permutation (insertion_order l) l.
Proof. apply Permutation_refl. Qed.

Lemma process_data_if_needed_idempotent_witness :
  exists w',
    process_data_if_needed insertion_order world_cleaned_float = (Some tt, w')
    /\ process_data_if_needed insertion_order w' = (Some tt, w').
Proof.
  pose proof (@process_data_if_needed_cleaned insertion_order
                insertion_order_members world_cleaned_float _
                eq_refl eq_refl eq_refl loadable_a_b) as E.
  cbv zeta in E.
  eexists. split; [exact E|].
  exact (@process_data_if_needed_idempotent insertion_order
           insertion_order_members world_cleaned_float _ E).
Defined.

Lemma process_data_if_needed_limit_witness :
  (List.length
     (trips (store (snd (process_data_if_needed insertion_order world_raw))))
   <= default_max_records)%nat.
Proof.
  apply (@process_data_if_needed_limit insertion_order world_raw).
  reflexivity.
Defined.

(** * [process_data_interactive] *)

Section Interactive.

Variable set_order : list string -> list string.
Variable batch_size : nat.

(** One turn of the loop, with the lengths worked out: the turn loads the rows
    from [total_processed] up to [total_processed + batch_size], as far as the
    file has them. *)
Lemma process_batches_turn (responses : list string) (total_processed : nat)
    (w : world) (f : cleaned_csv) :
  cleaned_dataset_csv w = Some f ->
  let rows := cleaned_rows f in
  let reached := Nat.min (total_processed + batch_size) (List.length rows) in
  let batch := skipn total_processed
                 (firstn (total_processed + batch_size) rows) in
  let load := save_to_database (float_column_of f (total_processed + batch_size))
                (set_order (all_zones batch)) batch (store w) in
  let w1 := with_store (snd load) w in
  let rest := skipn reached (firstn default_max_records rows) in
  let load_rest := save_to_database (float_column_of f default_max_records)
                     (set_order (all_zones rest)) rest (store w1) in
  process_batches set_order batch_size responses total_processed w
  = if (reached <=? total_processed)%nat then (Some total_processed, w)
    else
      match fst load with
      | raised => (None, w1)
      | returned =>
          match responses with
          | [] => (None, w1)
          | response :: responses =>
              if String.eqb response "q" then (Some reached, w1)
              else if String.eqb response "a" then
                if (reached <? Nat.min default_max_records (List.length rows))%nat
                then
                  match fst load_rest with
                  | raised => (None, with_store (snd load_rest) w1)
                  | returned =>
                      (Some (Nat.min default_max_records (List.length rows)),
                       with_store (snd load_rest) w1)
                  end
                else (Some reached, w1)
              else process_batches set_order batch_size responses reached w1
          end
      end.
Proof.
  intros F rows reached batch load w1 rest load_rest.
  assert (L1 : List.length (firstn (total_processed + batch_size) rows) = reached)
    by (rewrite length_firstn; reflexivity).
  assert (L2 : List.length batch = (reached - total_processed)%nat)
    by (unfold batch; rewrite length_skipn, L1; reflexivity).
  assert (L3 : List.length (firstn default_max_records rows)
               = Nat.min default_max_records (List.length rows))
    by (rewrite length_firstn; reflexivity).
  assert (Hstep :
    process_batches set_order batch_size responses total_processed w
    = if (List.length (firstn (total_processed + batch_size) rows)
          <=? total_processed)%nat
      then (Some total_processed, w)
      else
        if (List.length batch =? 0)%nat then (Some total_processed, w)
        else
          match fst load with
          | raised => (None, w1)
          | returned =>
              match responses with
              | [] => (None, w1)
              | response :: responses =>
                  if String.eqb response "q" then
                    (Some (total_processed + List.length batch)%nat, w1)
                  else if String.eqb response "a" then
                    if ((total_processed + List.length batch)
                        <? List.length (firstn default_max_records rows))%nat
                    then
                      let rest :=
                        skipn (total_processed + List.length batch)
                              (firstn default_max_records rows) in
                      let load_rest :=
                        save_to_database (float_column_of f default_max_records)
                          (set_order (all_zones rest)) rest (store w1) in
                      match fst load_rest with
                      | raised => (None, with_store (snd load_rest) w1)
                      | returned =>
                          (Some (total_processed + List.length batch
                                 + List.length rest)%nat,
                           with_store (snd load_rest) w1)
                      end
                    else (Some (total_processed + List.length batch)%nat, w1)
                  else process_batches set_order batch_size responses
                         (total_processed + List.length batch)%nat w1
              end
          end).
  { subst w1 load.
    destruct responses as [|response responses];
      cbn [process_batches]; unfold load_cleaned_data; rewrite F;
      fold rows; fold batch;
      (destruct (List.length (firstn (total_processed + batch_size) rows)
                 <=? total_processed)%nat; [reflexivity|]);
      (destruct (List.length batch =? 0)%nat; [reflexivity|]);
      rewrite save_unfold;
      destruct (save_to_database _ _ batch (store w)) as [[|] db];
      cbn [fst snd]; try reflexivity.
    destruct (String.eqb response "q"); [reflexivity|].
    destruct (String.eqb response "a"); [|reflexivity].
    cbn [with_store cleaned_dataset_csv]. rewrite F. fold rows.
    destruct (total_processed + List.length batch
              <? List.length (firstn default_max_records rows))%nat;
      [|reflexivity].
    rewrite save_unfold. cbv zeta.
    destruct (save_to_database _ _ _ _) as [[|] db2]; reflexivity. }
  rewrite Hstep. clear Hstep. rewrite L1, L2, L3.
  destruct (Nat.leb_spec reached total_processed) as [L|L]; [reflexivity|].
  replace (reached - total_processed =? 0)%nat with false
    by (symmetry; apply Nat.eqb_neq; lia).
  replace (total_processed + (reached - total_processed))%nat with reached by lia.
  destruct (fst load); [|reflexivity].
  destruct responses as [|response responses]; [reflexivity|].
  destruct (String.eqb response "q"); [reflexivity|].
  destruct (String.eqb response "a"); [|reflexivity].
  destruct (Nat.ltb_spec reached (Nat.min default_max_records (List.length rows)))
    as [A|A]; [|reflexivity].
  cbv zeta. fold rest. fold load_rest.
  destruct (fst load_rest); [|reflexivity].
  unfold rest. rewrite length_skipn, L3.
  replace (reached + (Nat.min default_max_records (List.length rows) - reached))%nat
    with (Nat.min default_max_records (List.length rows)) by lia.
  reflexivity.
Qed.

Lemma firstn_min_length (A : Type) (k : nat) (l : list A) :
  firstn (Nat.min k (List.length l)) l = firstn k l.
Proof.
  destruct (Nat.le_ge_cases k (List.length l)) as [L|L].
  - now rewrite Nat.min_l.
  - rewrite Nat.min_r, firstn_all by exact L. symmetry. now apply firstn_all2.
Qed.

(** The first [k'] rows are the first [k] rows and the rows from [k] to
    [k']. *)
Lemma firstn_split (A : Type) (k k' : nat) (l : list A) :
  (k <= k')%nat -> firstn k' l = firstn k l ++ skipn k (firstn k' l).
Proof.
  intros L. rewrite <- (firstn_skipn k (firstn k' l)) at 1.
  rewrite firstn_firstn, Nat.min_l by exact L. reflexivity.
Qed.

(** What a load that returned has put in the store. *)
Lemma save_to_database_present (float_column : bool) (iteration : list string)
    (df : CleanedFrame) (db : database) (r : cleaned_trip) :
  fst (save_to_database float_column iteration df db) = returned ->
  trip_present (id (raw r)) db \/ In r df ->
  trip_present (id (raw r))
    (snd (save_to_database float_column iteration df db)).
Proof.
  destruct (save_to_database float_column iteration df db) as [o db'] eqn:E.
  cbn [fst snd]. intros -> H.
  apply save_to_database_returned in E. destruct E as [-> _].
  now apply load_rows_present.
Qed.

(** What the loop has done when it returns: nothing to a file or to the
    ledger; the rows up to the number it returns are in the store. *)
Lemma process_batches_loaded (responses : list string) :
  forall (total_processed : nat) (w : world) (f : cleaned_csv) (n : nat)
         (w' : world),
    cleaned_dataset_csv w = Some f ->
    (total_processed <= List.length (cleaned_rows f))%nat ->
    (forall r, In r (firstn total_processed (cleaned_rows f)) ->
               trip_present (id (raw r)) (store w)) ->
    process_batches set_order batch_size responses total_processed w
    = (Some n, w') ->
    cleaned_dataset_csv w' = Some f
    /\ (total_processed <= n <= List.length (cleaned_rows f))%nat
    /\ (forall r, In r (firstn n (cleaned_rows f)) ->
                  trip_present (id (raw r)) (store w')).
Proof.
  induction responses as [|response responses IH];
    intros total w f n w' F Htotal Hin; rewrite (@process_batches_turn _ _ _ _ F);
    cbv zeta;
    set (rows := cleaned_rows f) in *;
    set (reached := Nat.min (total + batch_size) (List.length rows));
    set (batch := skipn total (firstn (total + batch_size) rows));
    set (load := save_to_database _ _ batch (store w));
    set (w1 := with_store (snd load) w);
    (destruct (Nat.leb_spec reached total) as [L|L];
     [intros H; injection H as <- <-; auto with arith|]);
    destruct (fst load) eqn:O; try discriminate.
  assert (Hin1 : forall r, In r (firstn reached rows) ->
                           trip_present (id (raw r)) (store w1)).
  { intros r Hr. unfold reached in Hr. rewrite firstn_min_length in Hr.
    rewrite (@firstn_split _ total (total + batch_size)) in Hr by lia.
    unfold w1. cbn [with_store store]. apply save_to_database_present; [exact O|].
    apply in_app_or in Hr. destruct Hr as [Hr|Hr]; auto. }
  assert (F1 : cleaned_dataset_csv w1 = Some f) by exact F.
  assert (Hreached : (reached <= List.length rows)%nat) by (unfold reached; lia).
  destruct (String.eqb response "q").
  { intros H; injection H as <- <-. split; [exact F1|]. split; [lia|exact Hin1]. }
  destruct (String.eqb response "a").
  - destruct (Nat.ltb_spec reached (Nat.min default_max_records (List.length rows)))
      as [A|A].
    + set (rest := skipn reached (firstn default_max_records rows)).
      set (load_rest := save_to_database _ _ rest (store w1)).
      destruct (fst load_rest) eqn:O2; [|discriminate].
      intros H.
      assert (Hn : n = Nat.min default_max_records (List.length rows))
        by congruence.
      apply (f_equal snd) in H. cbn [snd] in H. subst w' n.
      split; [exact F|]. split; [lia|].
      intros r Hr. rewrite firstn_min_length in Hr.
      rewrite (@firstn_split _ reached default_max_records) in Hr by lia.
      cbn [with_store store]. apply save_to_database_present; [exact O2|].
      apply in_app_or in Hr. destruct Hr as [Hr|Hr]; auto.
    + intros H; injection H as <- <-. split; [exact F1|]. split; [lia|exact Hin1].
  - intros H. destruct (IH reached w1 f n w' F1 Hreached Hin1 H) as (G1 & G2 & G3).
    fold rows in G2. split; [exact G1|]. split; [lia|exact G3].
Qed.

Lemma clean_all_data_and_save_cleaned (max_records : nat) (w w1 : world)
    (final_count : nat) :
  clean_all_data_and_save max_records w = (Some final_count, w1) ->
  exists f, cleaned_dataset_csv w1 = Some f.
Proof.
  rewrite clean_all_data_and_save_unfold.
  destruct (train_csv w) as [rows|]; [|discriminate]. cbv zeta.
  destruct (fst (clean_pipeline _ _)) as [out|]; [|discriminate].
  intros H. apply (f_equal snd) in H. cbn [snd] in H. subst w1.
  destruct (save_excluded_records_keeps
              (with_cleaned_dataset_csv
                 {| vendor_id_float :=
                      existsb (fun r => missing (vendor_id r))
                              (firstn max_records rows);
                    cleaned_rows := out |}
                 (with_excluded_records
                    (snd (clean_pipeline (firstn max_records rows)
                            (self_excluded_records w))) w))) as (_ & _ & -> & _).
  eexists. reflexivity.
Qed.

(** X15: what [process_data_interactive] has loaded when it returns [n],
    whatever was typed: [n] counts rows of [cleaned_dataset.csv] from its
    first row on, and each of these rows has its trip in the store. *)
Theorem process_data_interactive_loads_prefix (responses : list string)
    (w w' : world) (n : nat) :
  process_data_interactive set_order batch_size responses w = (Some n, w') ->
  let rows := match cleaned_dataset_csv w' with
              | Some f => cleaned_rows f
              | None => []
              end in
  (n <= List.length rows)%nat
  /\ Forall (fun r => trip_present (id (raw r)) (store w')) (firstn n rows).
Proof.
  assert (Hloop : forall responses w f,
             cleaned_dataset_csv w = Some f ->
             process_batches set_order batch_size responses 0 w = (Some n, w') ->
             let rows := match cleaned_dataset_csv w' with
                         | Some f => cleaned_rows f
                         | None => []
                         end in
             (n <= List.length rows)%nat
             /\ Forall (fun r => trip_present (id (raw r)) (store w'))
                       (firstn n rows)).
  { intros rs w0 f F H.
    destruct (@process_batches_loaded rs 0 w0 f n w' F (Nat.le_0_l _)
                (fun r (Hr : In r []) => match Hr with end) H) as (-> & G2 & G3).
    cbv zeta. split; [lia|]. apply Forall_forall. exact G3. }
  unfold process_data_interactive.
  destruct (cleaned_dataset_csv w) as [f|] eqn:F; [apply (Hloop _ _ _ F)|].
  destruct responses as [|response responses]; [discriminate|].
  destruct (yes response); cbn [negb].
  - destruct (clean_all_data_and_save default_max_records w) as [[count|] w1] eqn:E;
      [|discriminate].
    destruct (clean_all_data_and_save_cleaned _ _ E) as (f & F1).
    apply (Hloop _ _ _ F1).
  - intros H; injection H as <- <-. rewrite F. cbv zeta. simpl. auto.
Qed.

End Interactive.

Section InteractiveRuns.

Variable set_order : list string -> list string.
Hypothesis set_order_members : forall l, Permutation (set_order l) l.
Variable batch_size : nat.

Lemma unique_app (A : Type) (eq_dec : forall a b : A, {a = b} + {a <> b})
    (l1 l2 seen : list A) :
  unique eq_dec seen (l1 ++ l2)
  = unique eq_dec seen l1 ++ unique eq_dec (seen ++ unique eq_dec seen l1) l2.
Proof.
  revert seen; induction l1 as [|a l1 IH]; intros seen; simpl.
  - now rewrite app_nil_r.
  - destruct (in_dec eq_dec a seen) as [Ha|Ha].
    + apply IH.
    + simpl. f_equal. rewrite IH. f_equal. apply unique_ext.
      intros b. rewrite !in_app_iff. simpl. tauto.
Qed.

Lemma continues_false (response : string) :
  continues response = true ->
  String.eqb response "q" = false /\ String.eqb response "a" = false.
Proof.
  unfold continues. rewrite andb_true_iff, !negb_true_iff. tauto.
Qed.

(** Every stretch of a file of loadable rows, its vendor cells written with
    a decimal point, is loaded without an error. *)
Lemma stretch_accepted (f : cleaned_csv) (start stop k : nat) (db : database) :
  vendor_id_float f = true ->
  Forall (fun r => loadable r = true) (cleaned_rows f) ->
  let batch := skipn start (firstn stop (cleaned_rows f)) in
  save_to_database (float_column_of f k) (set_order (all_zones batch)) batch db
  = (returned, load_rows true (set_order (all_zones batch)) batch db).
Proof.
  intros Hfloat Hrows batch. unfold float_column_of. rewrite Hfloat. cbn [orb].
  apply save_to_database_accepted, load_accepted_loadable.
  - now apply loadable_skipn, loadable_firstn.
  - intros z Hz. eapply Permutation_in; [apply set_order_members|exact Hz].
Qed.

Lemma load_rows_trips (float_column : bool) (iteration : list string)
    (df : CleanedFrame) (db : database) :
  exists new,
    trips (load_rows float_column iteration df db) = trips db ++ new
    /\ map trips_id new
       = unique string_dec (map trips_id (trips db))
                (map (fun r => id (raw r)) df).
Proof.
  unfold load_rows.
  destruct (insert_trip_rows_appends df
              (insert_zones iteration df
                 (insert_vendor_rows float_column df db))) as (new & Et & Eid & _).
  rewrite insert_zones_trips, insert_vendor_rows_trips in Et, Eid.
  exists new. auto.
Qed.

(** The loop, when every response goes on and there are enough of them: it
    ends at the end of the file, and the trips table has taken, in the order
    of the file, one row for each id it did not hold. *)
Lemma process_batches_complete (responses : list string) :
  forall (total_processed : nat) (w : world) (f : cleaned_csv) (seen : list string),
    cleaned_dataset_csv w = Some f ->
    vendor_id_float f = true ->
    Forall (fun r => loadable r = true) (cleaned_rows f) ->
    (0 < batch_size)%nat ->
    Forall (fun response => continues response = true) responses ->
    (total_processed <= List.length (cleaned_rows f))%nat ->
    (List.length (cleaned_rows f)
     <= total_processed + List.length responses * batch_size)%nat ->
    map trips_id (trips (store w))
    = seen ++ unique string_dec seen
                (map (fun r => id (raw r))
                     (firstn total_processed (cleaned_rows f))) ->
    exists w',
      process_batches set_order batch_size responses total_processed w
      = (Some (List.length (cleaned_rows f)), w')
      /\ cleaned_dataset_csv w' = Some f
      /\ map trips_id (trips (store w'))
         = seen ++ unique string_dec seen
                     (map (fun r => id (raw r)) (cleaned_rows f)).
Proof.
  induction responses as [|response responses IH];
    intros total w f seen F Hfloat Hrows Hb Hc Htotal Hlen Hids;
    rewrite (@process_batches_turn _ _ _ _ _ _ F); cbv zeta;
    rewrite (@stretch_accepted f total (total + batch_size) _ (store w)
               Hfloat Hrows);
    cbn [fst snd];
    set (rows := cleaned_rows f) in *;
    set (reached := Nat.min (total + batch_size) (List.length rows));
    set (batch := skipn total (firstn (total + batch_size) rows));
    set (w1 := with_store _ w).
  - cbn [List.length] in Hlen.
    assert (E : total = List.length rows) by lia.
    replace (reached <=? total)%nat with true
      by (symmetry; apply Nat.leb_le; unfold reached; lia).
    exists w. rewrite <- E at 1. split; [reflexivity|]. split; [exact F|].
    rewrite Hids, E, firstn_all. reflexivity.
  - destruct (Nat.leb_spec reached total) as [L|L].
    + assert (E : total = List.length rows) by (unfold reached in L; lia).
      exists w. rewrite <- E at 1. split; [reflexivity|]. split; [exact F|].
      rewrite Hids, E, firstn_all. reflexivity.
    + apply Forall_cons_iff in Hc. destruct Hc as [Hr Hc'].
      destruct (continues_false _ Hr) as [-> ->].
      assert (F1 : cleaned_dataset_csv w1 = Some f) by exact F.
      apply (IH reached w1 f seen F1 Hfloat Hrows Hb Hc'); fold rows.
      * unfold reached. lia.
      * cbn [List.length] in Hlen. unfold reached. nia.
      * unfold w1. cbn [with_store store].
        destruct (load_rows_trips true (set_order (all_zones batch)) batch
                    (store w)) as (new & -> & Eid).
        rewrite map_app, Eid, Hids, <- app_assoc. f_equal.
        unfold reached. rewrite firstn_min_length.
        rewrite (@firstn_split _ total (total + batch_size) rows) by lia.
        fold batch. rewrite map_app, unique_app. reflexivity.
Qed.

(** X16: loading the whole file batch by batch.  When [cleaned_dataset.csv]
    exists, with its vendor cells written with a decimal point and rows the
    tables take, the batch size is not 0, every response goes on to the next
    batch and there is one for every batch, [process_data_interactive]
    returns the number of rows of the file, and the trips table has taken,
    in the order of the file, one row for each id of the file that it did
    not hold: the same ids as one load of the whole file. *)
Theorem process_data_interactive_complete (responses : list string)
    (w : world) (f : cleaned_csv) :
  cleaned_dataset_csv w = Some f ->
  vendor_id_float f = true ->
  Forall (fun r => loadable r = true) (cleaned_rows f) ->
  (0 < batch_size)%nat ->
  Forall (fun response => continues response = true) responses ->
  (List.length (cleaned_rows f) <= List.length responses * batch_size)%nat ->
  exists w' db1,
    process_data_interactive set_order batch_size responses w
    = (Some (List.length (cleaned_rows f)), w')
    /\ map trips_id (trips (store w'))
       = map trips_id (trips (store w))
         ++ unique string_dec (map trips_id (trips (store w)))
              (map (fun r => id (raw r)) (cleaned_rows f))
    /\ save_to_database (float_column_of f (List.length (cleaned_rows f)))
         (set_order (all_zones (cleaned_rows f))) (cleaned_rows f) (store w)
       = (returned, db1)
    /\ map trips_id (trips (store w')) = map trips_id (trips db1).
Proof.
  intros F Hfloat Hrows Hb Hc Hlen. unfold process_data_interactive. rewrite F.
  destruct (@process_batches_complete responses 0 w f
              (map trips_id (trips (store w))) F Hfloat Hrows Hb Hc
              (Nat.le_0_l _) Hlen)
    as (w' & E & _ & Hids).
  { cbn [firstn map unique]. now rewrite app_nil_r. }
  pose proof (@stretch_accepted f 0 (List.length (cleaned_rows f))
                (List.length (cleaned_rows f)) (store w) Hfloat Hrows) as Hall.
  cbv zeta in Hall. cbn [skipn] in Hall. rewrite firstn_all in Hall.
  exists w', (load_rows true (set_order (all_zones (cleaned_rows f)))
                (cleaned_rows f) (store w)).
  split; [exact E|]. split; [exact Hids|]. split; [exact Hall|].
  destruct (load_rows_trips true (set_order (all_zones (cleaned_rows f)))
              (cleaned_rows f) (store w)) as (new & -> & Eid).
  now rewrite map_app, Eid.
Qed.

(** X17: the response [a] ("all remaining") after the first batch, on such a
    file.  The rows loaded then reach to the 5000th row of the file and no
    further (to the end of the first batch, should that be longer),
    whatever the file holds beyond. *)
Theorem process_data_interactive_all_remaining (responses : list string)
    (w : world) (f : cleaned_csv) :
  cleaned_dataset_csv w = Some f ->
  vendor_id_float f = true ->
  Forall (fun r => loadable r = true) (cleaned_rows f) ->
  (0 < batch_size)%nat ->
  fst (process_data_interactive set_order batch_size ("a" :: responses) w)
  = Some (Nat.min (List.length (cleaned_rows f))
                  (Nat.max batch_size default_max_records)).
Proof.
  intros F Hfloat Hrows Hb. unfold process_data_interactive. rewrite F.
  rewrite (@process_batches_turn _ _ _ _ _ _ F). cbv zeta.
  rewrite (@stretch_accepted f 0 (0 + batch_size) _ (store w) Hfloat Hrows).
  cbn [fst snd].
  rewrite (@stretch_accepted f _ default_max_records _ _ Hfloat Hrows).
  cbn [fst snd].
  cbn [Nat.add]. change (String.eqb "a" "q") with false.
  change (String.eqb "a" "a") with true. cbv iota.
  destruct (Nat.leb_spec (Nat.min batch_size (List.length (cleaned_rows f))) 0)
    as [L|L]; cbn [fst].
  - f_equal. lia.
  - destruct (Nat.ltb_spec (Nat.min batch_size (List.length (cleaned_rows f)))
                (Nat.min default_max_records (List.length (cleaned_rows f))))
      as [A|A]; cbn [fst]; f_equal; lia.
Qed.

End InteractiveRuns.

Lemma process_data_interactive_loads_prefix_witness :
  exists w',
    process_data_interactive insertion_order 1 [""; ""] world_cleaned_float
    = (Some 2%nat, w')
    /\ Forall (fun r => trip_present (id (raw r)) (store w'))
              (firstn 2 (match cleaned_dataset_csv w' with
                         | Some f => cleaned_rows f
                         | None => []
                         end)).
Proof.
  destruct (@process_batches_complete insertion_order insertion_order_members
              1 [""; ""] 0 world_cleaned_float _ [] eq_refl eq_refl
              loadable_a_b (le_n 1)) as (w' & E & _ & _).
  - repeat constructor.
  - cbn. lia.
  - cbn. lia.
  - reflexivity.
  - exists w'. split; [exact E|].
    exact (proj2 (@process_data_interactive_loads_prefix insertion_order 1
                    [""; ""] world_cleaned_float w' 2 E)).
Defined.

Lemma process_data_interactive_complete_witness :
  exists w',
    process_data_interactive insertion_order 1 [""; ""] world_cleaned_float
    = (Some 2%nat, w')
    /\ map trips_id (trips (store w')) = ["id0000001"; "id0000002"]%string.
Proof.
  destruct (@process_data_interactive_complete insertion_order
              insertion_order_members 1 [""; ""] world_cleaned_float _
              eq_refl eq_refl loadable_a_b (le_n 1))
    as (w' & db1 & E & Hids & _).
  - repeat constructor.
  - simpl. lia.
  - exists w'. split; [exact E|exact Hids].
Defined.

Lemma process_data_interactive_all_remaining_witness :
  fst (process_data_interactive insertion_order 1 ["a"] world_cleaned_float)
  = Some 2%nat.
Proof.
  exact (@process_data_interactive_all_remaining insertion_order
           insertion_order_members 1 [] world_cleaned_float _ eq_refl eq_refl
           loadable_a_b (le_n 1)).
Defined.

Section LastBatch.

Variable set_order : list string -> list string.
Hypothesis set_order_members : forall l, Permutation (set_order l) l.
Variable batch_size : nat.

Lemma load_rows_zone_written (float_column : bool) (df : CleanedFrame)
    (db : database) (z : string) :
  In z (all_zones df) ->
  zone_written df z
    (zones (load_rows float_column (set_order (all_zones df)) df db)).
Proof.
  intros Hz. unfold load_rows. rewrite insert_trip_rows_zones.
  apply insert_zones_written. right.
  eapply Permutation_in; [apply Permutation_sym, set_order_members|exact Hz].
Qed.

(** The loop entered at the start of batch [i], when every response goes on:
    the last store it writes is the one of the last batch of the file. *)
Lemma process_batches_last_batch (responses : list string) :
  forall (i : nat) (w : world) (f : cleaned_csv) (j m : nat) (z : string),
    cleaned_dataset_csv w = Some f ->
    vendor_id_float f = true ->
    Forall (fun r => loadable r = true) (cleaned_rows f) ->
    (0 < m <= batch_size)%nat ->
    List.length (cleaned_rows f) = (j * batch_size + m)%nat ->
    (i <= j)%nat ->
    Forall (fun response => continues response = true) responses ->
    (List.length (cleaned_rows f)
     <= (i + List.length responses) * batch_size)%nat ->
    In z (all_zones (skipn (j * batch_size) (cleaned_rows f))) ->
    zone_written (skipn (j * batch_size) (cleaned_rows f)) z
      (zones (store (snd (process_batches set_order batch_size responses
                            (i * batch_size) w)))).
Proof.
  induction responses as [|response responses IH];
    intros i w f j m z F Hfloat Hrows Hm Hlen Hi Hc Hresp Hz.
  - exfalso. cbn [List.length] in Hresp.
    assert (i * batch_size <= j * batch_size)%nat
      by (apply Nat.mul_le_mono_r; exact Hi).
    lia.
  - rewrite (@process_batches_turn _ _ _ _ _ _ F). cbv zeta.
    rewrite (@stretch_accepted set_order set_order_members f (i * batch_size)
               (i * batch_size + batch_size) _ (store w) Hfloat Hrows).
    cbn [fst snd].
    set (rows := cleaned_rows f) in *.
    assert (Hij : (i * batch_size <= j * batch_size)%nat)
      by (apply Nat.mul_le_mono_r; exact Hi).
    replace (Nat.min (i * batch_size + batch_size) (List.length rows)
             <=? i * batch_size)%nat with false
      by (symmetry; apply Nat.leb_gt; lia).
    apply Forall_cons_iff in Hc. destruct Hc as [Hr Hc'].
    destruct (continues_false _ Hr) as [-> ->].
    set (w1 := with_store _ w).
    assert (F1 : cleaned_dataset_csv w1 = Some f) by exact F.
    destruct (Nat.eq_dec i j) as [->|Hne].
    + (* the last batch: the next turn finds no row and leaves the loop *)
      replace (Nat.min (j * batch_size + batch_size) (List.length rows))
        with (List.length rows) by lia.
      rewrite (@process_batches_turn _ _ _ _ _ _ F1). cbv zeta. fold rows.
      replace (Nat.min (List.length rows + batch_size) (List.length rows)
               <=? List.length rows)%nat with true
        by (symmetry; apply Nat.leb_le; lia).
      cbn [snd]. unfold w1. cbn [with_store store].
      rewrite (@firstn_all2 _ (j * batch_size + batch_size) rows) by lia.
      apply load_rows_zone_written, Hz.
    + assert (Hs : (S i * batch_size <= j * batch_size)%nat)
        by (apply Nat.mul_le_mono_r; lia).
      replace (Nat.min (i * batch_size + batch_size) (List.length rows))
        with (S i * batch_size)%nat by (cbn [Nat.mul] in *; lia).
      apply (IH (S i) w1 f j m z F1 Hfloat Hrows Hm Hlen); auto; [lia|].
      cbn [List.length] in Hresp. fold rows.
      replace (S i + List.length responses)%nat
        with (i + S (List.length responses))%nat by lia.
      exact Hresp.
Qed.

(** X18: the zone statistics after a load in batches.  When
    [process_data_interactive] has walked the whole of [cleaned_dataset.csv]
    (of [j] full batches and a last batch of [m] rows; its vendor cells
    written with a decimal point, its rows such as the tables take), the row
    of every zone of the last batch holds the mean coordinates and the trip
    count of that batch alone: the count is at most [batch_size], however
    many trips of the file, all in the trips table now, lie in the zone. *)
Theorem process_data_interactive_zone_statistics (responses : list string)
    (w : world) (f : cleaned_csv) (j m : nat) (z : string) :
  cleaned_dataset_csv w = Some f ->
  vendor_id_float f = true ->
  Forall (fun r => loadable r = true) (cleaned_rows f) ->
  (0 < m <= batch_size)%nat ->
  List.length (cleaned_rows f) = (j * batch_size + m)%nat ->
  Forall (fun response => continues response = true) responses ->
  (List.length (cleaned_rows f) <= List.length responses * batch_size)%nat ->
  let last_batch := skipn (j * batch_size) (cleaned_rows f) in
  let w' := snd (process_data_interactive set_order batch_size responses w) in
  In z (all_zones last_batch) ->
  (exists row, In row (zones (store w')) /\ zone_name row = z)
  /\ forall row,
      In row (zones (store w')) -> zone_name row = z ->
      latitude row = avg_lat last_batch z
      /\ longitude row = avg_lon last_batch z
      /\ trip_count row = List.length (zone_trips last_batch z)
      /\ (trip_count row <= batch_size)%nat.
Proof.
  intros F Hfloat Hrows Hm Hlen Hc Hresp last_batch w' Hz.
  assert (H : zone_written last_batch z (zones (store w'))).
  { unfold w', process_data_interactive. rewrite F.
    apply (@process_batches_last_batch responses 0 w f j m z F Hfloat Hrows
             Hm Hlen); auto with arith. }
  destruct H as (Hex & Hall). split; [exact Hex|].
  intros row Hrow Hname. destruct (Hall row Hrow Hname) as (H1 & H2 & H3).
  rewrite Hname in H1, H2, H3. repeat split; auto.
  rewrite H3. unfold zone_trips.
  pose proof (filter_length_le
                (fun r => zone_is z (pickup_zone r) || zone_is z (dropoff_zone r))
                last_batch) as L.
  unfold last_batch in L at 2. rewrite length_skipn, Hlen in L. lia.
Qed.

End LastBatch.

Lemma process_data_interactive_zone_statistics_witness :
  let w' := snd (process_data_interactive insertion_order 1 [""; ""]
                   world_cleaned_float) in
  exists row, In row (zones (store w')) /\ zone_name row = "Zone_19_19"%string.
Proof.
  apply (@process_data_interactive_zone_statistics insertion_order
           insertion_order_members 1 [""; ""] world_cleaned_float _ 1 1
           "Zone_19_19"%string eq_refl eq_refl loadable_a_b
           (conj (le_n 1) (le_n 1)) eq_refl).
  - repeat constructor.
  - simpl. lia.
  - simpl. auto.
Defined.
